(** * OpenChoreo: release reconciler, finalization and trait context

    A shallow embedding of

    - [internal/controller/release/controller.go] and
      [internal/controller/release/controller_finalize.go]
      (the Release reconciler and its finalization state machine), and
    - [internal/pipeline/component/context/trait.go]
      (the trait evaluation-context builder), and
    - helpers of the API services in
      [internal/openchoreo-api/services/component_service.go] and of the
      build service (promotion paths, workflow status, workload image), and
    - cases of the tests of the synthesis engine's [Render], whose own
      code is not in the sources,

    together with the statements that the design document makes about them.

    Conventions.  A Go [(T, error)] pair is a [result T]; a Go [error] that
    is returned alone is an [option error].  Go maps used as dictionaries
    are stdpp [gmap]s, maps used as sets are [gset]s.  [time.Duration] is a
    signed 64-bit count of nanoseconds, kept in [Z] with the wrap-around
    written out.  Calls to the two API servers go through fake clients with
    interceptors: a cluster state plus, for each verb, a function saying
    which calls fail. *)

From Stdlib Require Import ZArith Lia.
From Stdlib Require Floats.SpecFloat.
From stdpp Require Import gmap strings list fin_maps.

Set Warnings "-register-all".

(* ================================================================== *)
(** * Part I: definitions                                              *)
(* ================================================================== *)

(** ** Errors and results *)

(** Go errors.  [ErrWrap] is [fmt.Errorf("...: %w", err)]; the two API
    status errors are the ones the controller tests for with
    [apierrors.IsNotFound] and [apierrors.IsAlreadyExists]. *)
Inductive error : Type :=
  | ErrNotFound
  | ErrAlreadyExists
  | ErrOther (msg : string)
  | ErrWrap (msg : string) (inner : error).

Inductive result (A : Type) : Type :=
  | Ok (a : A)
  | Err (e : error).
Arguments Ok {A} a.
Arguments Err {A} e.

Definition isOk {A} (r : result A) : bool :=
  match r with Ok _ => true | Err _ => false end.

Fixpoint IsNotFound (e : error) : bool :=
  match e with
  | ErrNotFound => true
  | ErrWrap _ inner => IsNotFound inner
  | _ => false
  end.

Fixpoint IsAlreadyExists (e : error) : bool :=
  match e with
  | ErrAlreadyExists => true
  | ErrWrap _ inner => IsAlreadyExists inner
  | _ => false
  end.

(** ** Kubernetes objects *)

Record GroupVersionKind : Type := mkGVK {
  Group : string;
  Version : string;
  Kind : string;
}.

#[global] Instance GroupVersionKind_eq_dec : EqDecision GroupVersionKind.
Proof. solve_decision. Defined.

#[global] Instance GroupVersionKind_countable : Countable GroupVersionKind.
Proof.
  refine (inj_countable' (fun g => (Group g, Version g, Kind g))
            (fun t => match t with (a, b, c) => mkGVK a b c end) _).
  by intros [].
Defined.

(** [unstructured.Unstructured], restricted to the fields the controller
    reads or writes.  [objFinalizers] are the object's own finalizers: an
    object that has some is not removed by a delete call, it stays until
    they are cleared by whoever owns them. *)
Record Unstructured : Type := mkObj {
  objGVK : GroupVersionKind;
  objNamespace : string;
  objName : string;
  objLabels : gmap string string;
  objFinalizers : list string;
}.

#[global] Instance Unstructured_eq_dec : EqDecision Unstructured.
Proof. solve_decision. Defined.

(** Indexing a Go [map[string]string]: a missing key reads as [""]. *)
Definition index (m : gmap string string) (k : string) : string :=
  default "" (m !! k).

Definition SetLabels (obj : Unstructured) (l : gmap string string) : Unstructured :=
  {| objGVK := objGVK obj; objNamespace := objNamespace obj;
     objName := objName obj; objLabels := l;
     objFinalizers := objFinalizers obj |}.

Record Namespace : Type := mkNamespace {
  nsName : string;
  nsLabels : gmap string string;
}.

Record Condition : Type := mkCondition {
  condType : string;
  condStatus : string;
  condReason : string;
  condMessage : string;
  condObservedGeneration : Z;
}.

#[global] Instance Condition_eq_dec : EqDecision Condition.
Proof. solve_decision. Defined.

(** ** The Release API type *)

(** One entry of [spec.resources]: the resource ID and the raw JSON
    document ([runtime.RawExtension]). *)
Record Resource : Type := mkResource {
  resID : string;
  resObject : string;
}.

(** One entry of [status.resources].  [rsProgressing] stands for the
    recorded condition of the tracked resource: [true] when it is in
    progress (not terminal). *)
Record ResourceStatus : Type := mkResourceStatus {
  rsID : string;
  rsGroup : string;
  rsVersion : string;
  rsKind : string;
  rsName : string;
  rsNamespace : string;
  rsProgressing : bool;
}.

#[global] Instance ResourceStatus_eq_dec : EqDecision ResourceStatus.
Proof. solve_decision. Defined.

Record ReleaseSpec : Type := mkReleaseSpec {
  EnvironmentName : string;
  OwnerProjectName : string;
  Resources : list Resource;
  Interval : option Z;
  ProgressingInterval : option Z;
}.

Record ReleaseStatus : Type := mkReleaseStatus {
  StatusResources : list ResourceStatus;
  Conditions : list Condition;
}.

Record Release : Type := mkRelease {
  Name : string;
  Namespace_ : string;
  UID : string;
  Generation : Z;
  DeletionTimestamp : option Z;
  Finalizers : list string;
  Spec : ReleaseSpec;
  Status : ReleaseStatus;
}.

Definition withFinalizers (r : Release) (fs : list string) : Release :=
  {| Name := Name r; Namespace_ := Namespace_ r; UID := UID r;
     Generation := Generation r; DeletionTimestamp := DeletionTimestamp r;
     Finalizers := fs; Spec := Spec r; Status := Status r |}.

Definition withStatus (r : Release) (s : ReleaseStatus) : Release :=
  {| Name := Name r; Namespace_ := Namespace_ r; UID := UID r;
     Generation := Generation r; DeletionTimestamp := DeletionTimestamp r;
     Finalizers := Finalizers r; Spec := Spec r; Status := s |}.

Definition withConditions (r : Release) (cs : list Condition) : Release :=
  withStatus r {| StatusResources := StatusResources (Status r); Conditions := cs |}.

Definition withStatusResources (r : Release) (rs : list ResourceStatus) : Release :=
  withStatus r {| StatusResources := rs; Conditions := Conditions (Status r) |}.

(** [ctrl.Result]: [RequeueAfter] in nanoseconds, [0] for no requeue. *)
Record Result : Type := mkResult { RequeueAfter : Z }.

Definition Result_empty : Result := {| RequeueAfter := 0 |}.

Definition ControllerName : string := "release-controller".
Definition DataPlaneCleanupFinalizer : string := "openchoreo.dev/dataplane-cleanup".

Definition Second : Z := 1000000000.
Definition Minute : Z := 60 * Second.

(** ** Parts of the repository and of its libraries that are not in the sources *)

(** The label keys of package [internal/labels].  The package is not part
    of the sources at hand, so the keys are parameters; statements that
    need them to be different say so. *)
Class LabelKeys : Type := {
  LabelKeyManagedBy : string;
  LabelKeyReleaseResourceID : string;
  LabelKeyReleaseUID : string;
  LabelKeyReleaseName : string;
  LabelKeyReleaseNamespace : string;
  LabelKeyCreatedBy : string;
  LabelKeyEnvironmentName : string;
  LabelKeyProjectName : string;
}.


(** Library and helper functions the controller calls:
    - [UnmarshalJSON]: [Unstructured.UnmarshalJSON] on the raw bytes;
    - [LabelSelectorCheck]: the validation done by
      [metav1.LabelSelectorAsSelector] on a [MatchLabels] selector;
    - the two condition constructors of the controller's conditions file;
    - [observeProgressing live obj]: whether the condition observed for the
      desired document [obj] among the [live] objects is in progress;
    - [randIntn]: [rand.Intn]. *)
Class Externals : Type := {
  UnmarshalJSON : string -> result Unstructured;
  LabelSelectorCheck : gmap string string -> option error;
  NewReleaseFinalizingCondition : Z -> Condition;
  NewReleaseCleanupFailedCondition : Z -> error -> Condition;
  observeProgressing : list Unstructured -> Unstructured -> bool;
  randIntn : Z -> Z;
}.


(** ** The data plane: a fake cluster client with interceptors *)

Record Cluster : Type := mkCluster {
  objects : list Unstructured;
  namespaces : list Namespace;
  listErr : GroupVersionKind -> option error;
  deleteErr : Unstructured -> option error;
  patchErr : Unstructured -> option error;
  getNsErr : string -> option error;
  createNsErr : string -> option error;
}.

Definition withObjects (c : Cluster) (os : list Unstructured) : Cluster :=
  {| objects := os; namespaces := namespaces c; listErr := listErr c;
     deleteErr := deleteErr c; patchErr := patchErr c;
     getNsErr := getNsErr c; createNsErr := createNsErr c |}.

Definition withNamespaces (c : Cluster) (ns : list Namespace) : Cluster :=
  {| objects := objects c; namespaces := ns; listErr := listErr c;
     deleteErr := deleteErr c; patchErr := patchErr c;
     getNsErr := getNsErr c; createNsErr := createNsErr c |}.

(** Two objects are the same API object when kind, namespace and name agree. *)
Definition sameObject (a b : Unstructured) : bool :=
  bool_decide (objGVK a = objGVK b /\ objNamespace a = objNamespace b
               /\ objName a = objName b).

(** [MatchLabels]: every pair of the selector is among the labels. *)
Definition matchLabels (sel labels : gmap string string) : bool :=
  bool_decide (map_Forall (fun k v => labels !! k = Some v) sel).

(** The list kind of a kind, and the objects a list call for it returns. *)
Definition listGVK (gvk : GroupVersionKind) : GroupVersionKind :=
  {| Group := Group gvk; Version := Version gvk;
     Kind := String.append (Kind gvk) "List" |}.

Definition client_List (c : Cluster) (list_gvk : GroupVersionKind)
    (selector : gmap string string) : result (list Unstructured) :=
  match listErr c list_gvk with
  | Some err => Err err
  | None =>
      Ok (filter (fun o => listGVK (objGVK o) = list_gvk
                           /\ matchLabels selector (objLabels o) = true)
                 (objects c))
  end.

(** Delete: an absent object is a NotFound error; an object without
    finalizers of its own is removed; one with finalizers stays. *)
Definition client_Delete (c : Cluster) (obj : Unstructured) : option error * Cluster :=
  match deleteErr c obj with
  | Some err => (Some err, c)
  | None =>
      if existsb (sameObject obj) (objects c) then
        (None, withObjects c
                 (filter (fun o => sameObject obj o = false
                                   \/ objFinalizers o <> []) (objects c)))
      else (Some ErrNotFound, c)
  end.

(** Server-side apply with forced ownership: create, or replace the
    applied fields of, the object with this kind, namespace and name. *)
Definition client_Patch (c : Cluster) (obj : Unstructured) : option error * Cluster :=
  match patchErr c obj with
  | Some err => (Some err, c)
  | None =>
      if existsb (sameObject obj) (objects c) then
        (None, withObjects c
                 (map (fun o => if sameObject obj o
                                then {| objGVK := objGVK obj;
                                        objNamespace := objNamespace obj;
                                        objName := objName obj;
                                        objLabels := objLabels obj;
                                        objFinalizers := objFinalizers o |}
                                else o) (objects c)))
      else (None, withObjects c (objects c ++ [obj]))
  end.

Definition client_GetNamespace (c : Cluster) (name : string) : result Namespace :=
  match getNsErr c name with
  | Some err => Err err
  | None =>
      match find (fun n => bool_decide (nsName n = name)) (namespaces c) with
      | Some n => Ok n
      | None => Err ErrNotFound
      end
  end.

Definition client_CreateNamespace (c : Cluster) (ns : Namespace) : option error * Cluster :=
  match createNsErr c (nsName ns) with
  | Some err => (Some err, c)
  | None =>
      if existsb (fun n => bool_decide (nsName n = nsName ns)) (namespaces c)
      then (Some ErrAlreadyExists, c)
      else (None, withNamespaces c (namespaces c ++ [ns]))
  end.

(** ** The control plane: the store the reconciler's own client talks to *)

Record Environment : Type := mkEnvironment { DataPlaneRef : string }.

Record DataPlane : Type := mkDataPlane {
  dpName : string;
  dpNamespace : string;
  KubernetesCluster : string;
}.

Record ControlPlane : Type := mkControlPlane {
  cpReleases : gmap (string * string) Release;
  cpEnvironments : gmap (string * string) Environment;
  cpDataPlanes : gmap (string * string) DataPlane;
  cpGetErr : option error;
  cpUpdateErr : Release -> option error;
  cpStatusUpdateErr : Release -> option error;
  clientMgrErr : DataPlane -> option error;
}.

Definition withReleases (cp : ControlPlane) (rs : gmap (string * string) Release)
    : ControlPlane :=
  {| cpReleases := rs; cpEnvironments := cpEnvironments cp;
     cpDataPlanes := cpDataPlanes cp; cpGetErr := cpGetErr cp;
     cpUpdateErr := cpUpdateErr cp; cpStatusUpdateErr := cpStatusUpdateErr cp;
     clientMgrErr := clientMgrErr cp |}.

Definition releaseKey (r : Release) : string * string := (Namespace_ r, Name r).

(** [r.Get] of a Release. *)
Definition cp_Get (cp : ControlPlane) (key : string * string) : result Release :=
  match cpGetErr cp with
  | Some err => Err err
  | None =>
      match cpReleases cp !! key with
      | Some r => Ok r
      | None => Err ErrNotFound
      end
  end.

(** [r.Update]: writes metadata and spec.  An object that is being deleted
    and is left without finalizers disappears from the store. *)
Definition cp_Update (cp : ControlPlane) (r : Release) : option error * ControlPlane :=
  match cpUpdateErr cp r with
  | Some err => (Some err, cp)
  | None =>
      match cpReleases cp !! releaseKey r with
      | None => (Some ErrNotFound, cp)
      | Some stored =>
          match DeletionTimestamp stored, Finalizers r with
          | Some _, [] => (None, withReleases cp (delete (releaseKey r) (cpReleases cp)))
          | _, _ =>
              (None, withReleases cp
                       (<[releaseKey r := withStatus r (Status stored)]> (cpReleases cp)))
          end
      end
  end.

(** The status sub-resource update: writes the status only. *)
Definition cp_StatusUpdate (cp : ControlPlane) (r : Release) : option error * ControlPlane :=
  match cpStatusUpdateErr cp r with
  | Some err => (Some err, cp)
  | None =>
      match cpReleases cp !! releaseKey r with
      | None => (Some ErrNotFound, cp)
      | Some stored =>
          (None, withReleases cp
                   (<[releaseKey r := withStatus stored (Status r)]> (cpReleases cp)))
      end
  end.

(** Modelled from the spec: [controller.UpdateStatusConditions] is not in
    the sources.  The design document has a changed condition "persisted
    as a status condition"; so the helper writes the status when the
    conditions of [updated] differ from those of [old], and does nothing
    otherwise. *)
Definition UpdateStatusConditions (cp : ControlPlane) (old updated : Release)
    : option error * ControlPlane :=
  if decide (Conditions (Status old) = Conditions (Status updated))
  then (None, cp)
  else cp_StatusUpdate cp updated.

Record World : Type := mkWorld {
  cp : ControlPlane;
  dp : Cluster;
}.

Definition withCP (w : World) (c : ControlPlane) : World := {| cp := c; dp := dp w |}.
Definition withDP (w : World) (c : Cluster) : World := {| cp := cp w; dp := c |}.

(** ** [meta.SetStatusCondition] and [controllerutil] finalizer helpers *)

Definition mergeCondition (existing new : Condition) : Condition :=
  {| condType := condType existing;
     condStatus := condStatus new;
     condReason := condReason new;
     condMessage := condMessage new;
     condObservedGeneration := condObservedGeneration new |}.

Definition conditionChanged (existing new : Condition) : bool :=
  negb (bool_decide (condStatus existing = condStatus new
                     /\ condReason existing = condReason new
                     /\ condMessage existing = condMessage new
                     /\ condObservedGeneration existing = condObservedGeneration new)).

Fixpoint SetStatusCondition (conditions : list Condition) (new : Condition)
    : list Condition * bool :=
  match conditions with
  | [] => ([new], true)
  | c :: rest =>
      if decide (condType c = condType new)
      then (mergeCondition c new :: rest, conditionChanged c new)
      else let (rest', changed) := SetStatusCondition rest new in (c :: rest', changed)
  end.

Definition ContainsFinalizer (r : Release) (f : string) : bool :=
  bool_decide (f ∈ Finalizers r).

Definition AddFinalizer (r : Release) (f : string) : Release * bool :=
  if ContainsFinalizer r f then (r, false)
  else (withFinalizers r (Finalizers r ++ [f]), true).

Definition RemoveFinalizer (r : Release) (f : string) : Release * bool :=
  let fs := filter (fun g => g <> f) (Finalizers r) in
  (withFinalizers r fs, negb (bool_decide (length fs = length (Finalizers r)))).

(** ** IEEE-754 binary64 arithmetic, as far as the jitter needs it *)

(** [float64(base) * 0.2] converted back to [time.Duration].  A finite
    binary64 number is a pair [(m, e)] standing for [m * 2^e]; rounding
    keeps 53 significant bits, to nearest, ties to even.  The exponent
    range needs no care: every operand and product here lies between
    [2^-3] and [2^63] in magnitude, or is zero. *)
Module F64.

Definition float : Type := (Z * Z)%type.

Definition prec : Z := 53.

Definition round_pos (m e : Z) : float :=
  let n := (Z.log2 m + 1)%Z in
  if (n <=? prec)%Z then (m, e)
  else
    let s := (n - prec)%Z in
    let q := (m / 2 ^ s)%Z in
    let r := (m mod 2 ^ s)%Z in
    let half := (2 ^ (s - 1))%Z in
    let q' := if (r <? half)%Z then q
              else if (half <? r)%Z then (q + 1)%Z
              else if Z.even q then q else (q + 1)%Z in
    (q', (e + s)%Z).

Definition round (m e : Z) : float :=
  if (m =? 0)%Z then (0%Z, 0%Z)
  else if (m <? 0)%Z then let (q, e') := round_pos (- m) e in ((- q)%Z, e')
  else round_pos m e.

(** [float64(z)] for an integer [z]. *)
Definition of_int (z : Z) : float := round z 0.

Definition mul (x y : float) : float :=
  round (fst x * fst y) (snd x + snd y).

(** Conversion to an integer type truncates toward zero. *)
Definition to_int (x : float) : Z :=
  let (m, e) := x in
  if (0 <=? e)%Z then (m * 2 ^ e)%Z else Z.quot m (2 ^ (- e)).

(** The constant [0.2]: the binary64 number nearest to one fifth,
    [0x3FC999999999999A]. *)
Definition c0_2 : float := (7205759403792794%Z, (-55)%Z).

End F64.

(** The same product through the Standard Library's IEEE-754 operations
    ([prec = 53], [emax = 1024] is binary64); [jitterMax] below is
    compared with it on samples. *)
Definition jitterMax_ieee (baseInterval : Z) : Z :=
  match SpecFloat.SFmul 53 1024
          (SpecFloat.binary_normalize 53 1024 baseInterval 0 false)
          (SpecFloat.S754_finite false 7205759403792794 (-55)) with
  | SpecFloat.S754_zero _ => 0%Z
  | SpecFloat.S754_finite s m e =>
      let v := if (0 <=? e)%Z then (Z.pos m * 2 ^ e)%Z
               else Z.quot (Z.pos m) (2 ^ (- e)) in
      if s then (- v)%Z else v
  | _ => (- 2 ^ 63)%Z
  end.

(** [a + b] on [int64]. *)
Definition wrap64 (z : Z) : Z := ((z + 2 ^ 63) mod 2 ^ 64 - 2 ^ 63)%Z.

(** ** The Release reconciler *)

Section Controller.

Context `{LabelKeys} `{Externals}.

(** *** Desired state *)

Definition stampOwnership (release : Release) (resource : Resource)
    (obj : Unstructured) : Unstructured :=
  let resourceLabels := objLabels obj in
  let resourceLabels := <[LabelKeyManagedBy := ControllerName]> resourceLabels in
  let resourceLabels := <[LabelKeyReleaseResourceID := resID resource]> resourceLabels in
  let resourceLabels := <[LabelKeyReleaseUID := UID release]> resourceLabels in
  let resourceLabels := <[LabelKeyReleaseName := Name release]> resourceLabels in
  let resourceLabels := <[LabelKeyReleaseNamespace := Namespace_ release]> resourceLabels in
  SetLabels obj resourceLabels.

Fixpoint makeDesiredResources_from (release : Release) (resources : list Resource)
    : result (list Unstructured) :=
  match resources with
  | [] => Ok []
  | resource :: rest =>
      match UnmarshalJSON (resObject resource) with
      | Err err =>
          Err (ErrWrap (String.append "failed to unmarshal resource " (resID resource)) err)
      | Ok obj =>
          match makeDesiredResources_from release rest with
          | Err err => Err err
          | Ok desiredObjects => Ok (stampOwnership release resource obj :: desiredObjects)
          end
      end
  end.

Definition makeDesiredResources (release : Release) : result (list Unstructured) :=
  makeDesiredResources_from release (Resources (Spec release)).

Definition namespaceFor (release : Release) (namespaceName : string) : Namespace :=
  {| nsName := namespaceName;
     nsLabels :=
       <[LabelKeyProjectName := OwnerProjectName (Spec release)]>
       (<[LabelKeyEnvironmentName := EnvironmentName (Spec release)]>
       (<[LabelKeyReleaseUID := UID release]>
       (<[LabelKeyReleaseNamespace := Namespace_ release]>
       (<[LabelKeyReleaseName := Name release]>
       (<[LabelKeyCreatedBy := ControllerName]> ∅))))) |}.

(** The namespaces come out of a Go map, in no particular order; here
    in the order the map lists them. *)
Definition makeDesiredNamespaces (release : Release) (resources : list Unstructured)
    : list Namespace :=
  let namespaceMap : gmap string Namespace :=
    foldl (fun m obj =>
             let namespaceName := objNamespace obj in
             if decide (namespaceName <> "")
             then match m !! namespaceName with
                  | Some _ => m
                  | None => <[namespaceName := namespaceFor release namespaceName]> m
                  end
             else m)
          ∅ resources in
  (map_to_list namespaceMap).*2.

Fixpoint ensureNamespaces (dpClient : Cluster) (namespaces : list Namespace)
    : option error * Cluster :=
  match namespaces with
  | [] => (None, dpClient)
  | namespace :: rest =>
      match client_GetNamespace dpClient (nsName namespace) with
      | Ok _ => ensureNamespaces dpClient rest
      | Err err =>
          if negb (IsNotFound err)
          then (Some (ErrWrap (String.append "failed to check namespace " (nsName namespace)) err),
                dpClient)
          else
            match client_CreateNamespace dpClient namespace with
            | (Some err, dpClient') =>
                if IsAlreadyExists err then ensureNamespaces dpClient' rest
                else (Some (ErrWrap (String.append "failed to create namespace "
                                                   (nsName namespace)) err),
                      dpClient')
            | (None, dpClient') => ensureNamespaces dpClient' rest
            end
      end
  end.

(** *** Apply, discover, delete *)

Fixpoint applyResources (dpClient : Cluster) (resources : list Unstructured)
    : option error * Cluster :=
  match resources with
  | [] => (None, dpClient)
  | obj :: rest =>
      let resourceID := index (objLabels obj) LabelKeyReleaseResourceID in
      match client_Patch dpClient obj with
      | (Some err, dpClient') =>
          (Some (ErrWrap (String.append "failed to apply resource " resourceID) err), dpClient')
      | (None, dpClient') => applyResources dpClient' rest
      end
  end.

Definition findStaleResources (liveResources desiredResources : list Unstructured)
    : list Unstructured :=
  let desiredResourceIDs : gmap string bool :=
    foldl (fun ids obj =>
             let resourceID := index (objLabels obj) LabelKeyReleaseResourceID in
             if decide (resourceID <> "") then <[resourceID := true]> ids else ids)
          ∅ desiredResources in
  foldl (fun staleResources liveObj =>
           let liveResourceID := index (objLabels liveObj) LabelKeyReleaseResourceID in
           if decide (liveResourceID <> "")
           then if negb (default false (desiredResourceIDs !! liveResourceID))
                then staleResources ++ [liveObj]
                else staleResources
           else staleResources)
        [] liveResources.

Fixpoint deleteResources (dpClient : Cluster) (staleResources : list Unstructured)
    : option error * Cluster :=
  match staleResources with
  | [] => (None, dpClient)
  | obj :: rest =>
      let resourceID := index (objLabels obj) LabelKeyReleaseResourceID in
      match client_Delete dpClient obj with
      | (Some err, dpClient') =>
          (Some (ErrWrap (String.append "failed to delete stale resource " resourceID) err),
           dpClient')
      | (None, dpClient') => deleteResources dpClient' rest
      end
  end.

Definition wellKnownGVKs : list GroupVersionKind :=
  [ mkGVK "" "v1" "Service";
    mkGVK "" "v1" "ConfigMap";
    mkGVK "" "v1" "Secret";
    mkGVK "" "v1" "ServiceAccount";
    mkGVK "" "v1" "Namespace";
    mkGVK "" "v1" "PersistentVolumeClaim";
    mkGVK "apps" "v1" "Deployment";
    mkGVK "apps" "v1" "StatefulSet";
    mkGVK "batch" "v1" "Job";
    mkGVK "batch" "v1" "CronJob";
    mkGVK "autoscaling" "v2" "HorizontalPodAutoscaler";
    mkGVK "policy" "v1" "PodDisruptionBudget";
    mkGVK "networking.k8s.io" "v1" "NetworkPolicy";
    mkGVK "networking.k8s.io" "v1" "Ingress";
    mkGVK "rbac.authorization.k8s.io" "v1" "Role";
    mkGVK "rbac.authorization.k8s.io" "v1" "RoleBinding";
    mkGVK "rbac.authorization.k8s.io" "v1" "ClusterRole";
    mkGVK "rbac.authorization.k8s.io" "v1" "ClusterRoleBinding";
    mkGVK "gateway.networking.k8s.io" "v1" "HTTPRoute";
    mkGVK "gateway.networking.k8s.io" "v1" "Gateway";
    mkGVK "gateway.envoyproxy.io" "v1alpha1" "SecurityPolicy";
    mkGVK "gateway.envoyproxy.io" "v1alpha1" "BackendTrafficPolicy";
    mkGVK "gateway.envoyproxy.io" "v1alpha1" "HTTPRouteFilter";
    mkGVK "cilium.io" "v2" "CiliumNetworkPolicy";
    mkGVK "secrets-store.csi.x-k8s.io" "v1" "SecretProviderClass" ].

Definition statusGVK (appliedResource : ResourceStatus) : GroupVersionKind :=
  {| Group := rsGroup appliedResource;
     Version := rsVersion appliedResource;
     Kind := rsKind appliedResource |}.

(** The statements follow the source in its order: the slice [gvks] is
    filled from the set before the well-known kinds are added to the
    set, and it is the slice that is returned.  The slice lists the set
    in the order the map gives (unspecified in Go). *)
Definition findAllKnownGVKs (desiredResources : list Unstructured)
    (appliedResources : list ResourceStatus) : list GroupVersionKind :=
  let gvkSet : gmap GroupVersionKind bool := ∅ in
  let gvkSet := foldl (fun s obj => <[objGVK obj := true]> s) gvkSet desiredResources in
  let gvkSet := foldl (fun s appliedResource => <[statusGVK appliedResource := true]> s)
                      gvkSet appliedResources in
  let gvks := (map_to_list gvkSet).*1 in
  let gvkSet := foldl (fun s gvk => <[gvk := true]> s) gvkSet wellKnownGVKs in
  gvks.

Definition releaseSelector (release : Release) : gmap string string :=
  <[LabelKeyReleaseUID := UID release]> (<[LabelKeyManagedBy := ControllerName]> ∅).

Fixpoint listLiveResourcesByGVKs_from (dpClient : Cluster) (release : Release)
    (gvks : list GroupVersionKind) (allLiveResources : list Unstructured)
    : result (list Unstructured) :=
  match gvks with
  | [] => Ok allLiveResources
  | gvk :: rest =>
      let labelSelector := releaseSelector release in
      match LabelSelectorCheck labelSelector with
      | Some err => Err (ErrWrap "failed to create label selector" err)
      | None =>
          match client_List dpClient (listGVK gvk) labelSelector with
          | Err _ =>
              (* logged; continue with the other GVKs instead of failing *)
              listLiveResourcesByGVKs_from dpClient release rest allLiveResources
          | Ok items =>
              listLiveResourcesByGVKs_from dpClient release rest (allLiveResources ++ items)
          end
      end
  end.

Definition listLiveResourcesByGVKs (dpClient : Cluster) (release : Release)
    (gvks : list GroupVersionKind) : result (list Unstructured) :=
  listLiveResourcesByGVKs_from dpClient release gvks [].

(** *** Requeue intervals *)

(** [time.Duration(float64(baseInterval) * 0.2)]. *)
Definition jitterMax (baseInterval : Z) : Z :=
  F64.to_int (F64.mul (F64.of_int baseInterval) F64.c0_2).

Definition addJitter (base maxJitter : Z) : Z :=
  if (maxJitter <=? 0)%Z then base
  else
    let jitter := randIntn maxJitter in
    wrap64 (base + jitter).

Definition getStableRequeueInterval (release : Release) : Z :=
  let baseInterval := (5 * Minute)%Z in
  match Interval (Spec release) with
  | Some d =>
      let baseInterval := d in
      if (baseInterval =? 0)%Z then 0%Z
      else addJitter baseInterval (jitterMax baseInterval)
  | None => addJitter baseInterval (jitterMax baseInterval)
  end.

Definition getProgressingRequeueInterval (release : Release) : Z :=
  let baseInterval := (10 * Second)%Z in
  match ProgressingInterval (Spec release) with
  | Some d =>
      let baseInterval := d in
      if (baseInterval =? 0)%Z then 0%Z
      else addJitter baseInterval (jitterMax baseInterval)
  | None => addJitter baseInterval (jitterMax baseInterval)
  end.

End Controller.

Section Reconciler.

Context `{LabelKeys} `{Externals}.

(** A client for the data plane of an environment.  The world has one
    target cluster, [dp]; the client is the permission to talk to it. *)
Inductive DPClient : Type := dataplaneClient (dataplane : DataPlane).

Definition getDPClient (w : World) (orgName environmentName : string)
    : result DPClient :=
  match cpEnvironments (cp w) !! (orgName, environmentName) with
  | None =>
      Err (ErrWrap (String.append "failed to get environment " environmentName) ErrNotFound)
  | Some env =>
      match cpDataPlanes (cp w) !! (orgName, DataPlaneRef env) with
      | None =>
          Err (ErrWrap (String.append "failed to get dataplane " (DataPlaneRef env)) ErrNotFound)
      | Some dataplane =>
          match clientMgrErr (cp w) dataplane with
          | Some err =>
              Err (ErrWrap (String.append "failed to create dataplane client for "
                                          (dpName dataplane)) err)
          | None => Ok (dataplaneClient dataplane)
          end
      end
  end.

(** *** Status *)

Definition makeResourceStatus (liveResources : list Unstructured) (obj : Unstructured)
    : ResourceStatus :=
  {| rsID := index (objLabels obj) LabelKeyReleaseResourceID;
     rsGroup := Group (objGVK obj);
     rsVersion := Version (objGVK obj);
     rsKind := Kind (objGVK obj);
     rsName := objName obj;
     rsNamespace := objNamespace obj;
     rsProgressing := observeProgressing liveResources obj |}.

(** Modelled from the spec: [updateStatus] is not in the sources.  The
    design document: "Persist the new status inventory (GVK/ID/name/
    namespace per desired document).  If the status write itself changes
    observable state, return immediately".  The first component of the
    answer is [statusUpdated]; the Release returned is the in-memory
    object, whose status the helper has set. *)
Definition updateStatus (c : ControlPlane) (old release : Release)
    (desiredResources liveResources : list Unstructured)
    : (bool * option error) * Release * ControlPlane :=
  let release :=
    withStatusResources release (map (makeResourceStatus liveResources) desiredResources) in
  if decide (StatusResources (Status old) = StatusResources (Status release))
  then ((false, None), release, c)
  else
    let (err, c') := cp_StatusUpdate c release in
    ((true, err), release, c').

(** Modelled from the spec: [hasTransitioningResources] is not in the
    sources.  The design document: "if any tracked resource's condition
    indicates an in-progress/non-terminal state". *)
Definition hasTransitioningResources (resources : list ResourceStatus) : bool :=
  existsb rsProgressing resources.

(** *** Finalization *)

Definition ensureFinalizer (c : ControlPlane) (release : Release)
    : (bool * option error) * Release * ControlPlane :=
  match DeletionTimestamp release with
  | Some _ => ((false, None), release, c)
  | None =>
      let (release', added) := AddFinalizer release DataPlaneCleanupFinalizer in
      if added
      then let (err, c') := cp_Update c release' in ((true, err), release', c')
      else ((false, None), release', c)
  end.

(** Records the cleanup-failed condition and gives the error to return:
    the update's own error if it fails, otherwise the wrapped cause. *)
Definition cleanupFailed (w : World) (old release : Release) (msg : string) (err : error)
    : (Result * option error) * World :=
  let release :=
    withConditions release
      (fst (SetStatusCondition (Conditions (Status release))
              (NewReleaseCleanupFailedCondition (Generation release) err))) in
  match UpdateStatusConditions (cp w) old release with
  | (Some updateErr, c') => ((Result_empty, Some updateErr), withCP w c')
  | (None, c') => ((Result_empty, Some (ErrWrap msg err)), withCP w c')
  end.

Definition finalize (w : World) (old release : Release)
    : (Result * option error) * World :=
  if negb (ContainsFinalizer release DataPlaneCleanupFinalizer)
  then ((Result_empty, None), w)
  else
    (* STEP 1: set the finalizing condition and return to persist it *)
    let (conditions, changed) :=
      SetStatusCondition (Conditions (Status release))
        (NewReleaseFinalizingCondition (Generation release)) in
    let release := withConditions release conditions in
    if changed
    then
      match UpdateStatusConditions (cp w) old release with
      | (Some err, c') => ((Result_empty, Some err), withCP w c')
      | (None, c') => ((Result_empty, None), withCP w c')
      end
    else
      (* STEP 2: data plane client *)
      match getDPClient w (Namespace_ release) (EnvironmentName (Spec release)) with
      | Err err =>
          cleanupFailed w old release "failed to get dataplane client for finalization" err
      | Ok _ =>
          (* STEP 3: list all live resources, with no desired resources *)
          let emptyDesiredResources : list Unstructured := [] in
          let gvks := findAllKnownGVKs emptyDesiredResources
                        (StatusResources (Status release)) in
          match listLiveResourcesByGVKs (dp w) release gvks with
          | Err err =>
              cleanupFailed w old release "failed to list live resources for cleanup" err
          | Ok liveResources =>
              (* STEP 4: delete all of them *)
              match deleteResources (dp w) liveResources with
              | (Some err, d') =>
                  cleanupFailed (withDP w d') old release
                    "failed to delete resources during finalization" err
              | (None, d') =>
                  let w := withDP w d' in
                  (* STEP 5: anything listed means another round *)
                  if (0 <? length liveResources)%nat
                  then (({| RequeueAfter := 5 * Second |}, None), w)
                  else
                    (* STEP 6: remove the finalizer *)
                    let (release', removed) :=
                      RemoveFinalizer release DataPlaneCleanupFinalizer in
                    if removed
                    then
                      match cp_Update (cp w) release' with
                      | (Some err, c') => ((Result_empty, Some err), withCP w c')
                      | (None, c') => ((Result_empty, None), withCP w c')
                      end
                    else ((Result_empty, None), w)
              end
          end
      end.

(** *** The reconcile loop *)

Definition Reconcile (w : World) (req : string * string)
    : (Result * option error) * World :=
  match cp_Get (cp w) req with
  | Err err =>
      if IsNotFound err then ((Result_empty, None), w)
      else ((Result_empty, Some err), w)
  | Ok release =>
      let old := release in
      match DeletionTimestamp release with
      | Some _ => finalize w old release
      | None =>
          match ensureFinalizer (cp w) release with
          | ((_, Some err), _, c') => ((Result_empty, Some err), withCP w c')
          | ((true, None), _, c') => ((Result_empty, None), withCP w c')
          | ((false, None), release, c') =>
              let w := withCP w c' in
              match getDPClient w (Namespace_ release) (EnvironmentName (Spec release)) with
              | Err err => ((Result_empty, Some err), w)
              | Ok _ =>
                  match makeDesiredResources release with
                  | Err err => ((Result_empty, Some err), w)
                  | Ok desiredResources =>
                      let desiredNamespaces :=
                        makeDesiredNamespaces release desiredResources in
                      match ensureNamespaces (dp w) desiredNamespaces with
                      | (Some err, d') => ((Result_empty, Some err), withDP w d')
                      | (None, d') =>
                          (* PHASE 1: apply *)
                          match applyResources d' desiredResources with
                          | (Some err, d') => ((Result_empty, Some err), withDP w d')
                          | (None, d') =>
                              (* PHASE 2: discover *)
                              let gvks := findAllKnownGVKs desiredResources
                                            (StatusResources (Status release)) in
                              match listLiveResourcesByGVKs d' release gvks with
                              | Err err => ((Result_empty, Some err), withDP w d')
                              | Ok liveResources =>
                                  (* PHASE 3: delete stale resources *)
                                  let staleResources :=
                                    findStaleResources liveResources desiredResources in
                                  match deleteResources d' staleResources with
                                  | (Some err, d') => ((Result_empty, Some err), withDP w d')
                                  | (None, d') =>
                                      let w := withDP w d' in
                                      (* PHASE 4: status *)
                                      match updateStatus (cp w) old release
                                              desiredResources liveResources with
                                      | ((_, Some err), _, c') =>
                                          ((Result_empty, Some err), withCP w c')
                                      | ((true, None), _, c') =>
                                          ((Result_empty, None), withCP w c')
                                      | ((false, None), release, c') =>
                                          let w := withCP w c' in
                                          if hasTransitioningResources
                                               (StatusResources (Status release))
                                          then
                                            let requeueAfter :=
                                              getProgressingRequeueInterval release in
                                            (({| RequeueAfter := requeueAfter |}, None), w)
                                          else
                                            let requeueAfter :=
                                              getStableRequeueInterval release in
                                            (({| RequeueAfter := requeueAfter |}, None), w)
                                      end
                                  end
                              end
                          end
                      end
                  end
              end
          end
      end
  end.

End Reconciler.

(** ** The trait context builder *)

(** JSON values as [encoding/json] decodes them into [any].  Numbers are
    kept as integers: nothing here computes with them. *)
Inductive value : Type :=
  | VNull
  | VBool (b : bool)
  | VNumber (n : Z)
  | VString (s : string)
  | VList (l : list value)
  | VMap (m : gmap string value).


(** A [map[string]string] stored in a context as a value. *)
Definition stringMap (m : gmap string string) : value := VMap (VString <$> m).

(** Modelled from the spec: [deepMerge] is not in the sources (its test,
    [TestDeepMerge], is).  The design document: "Merge is a deep,
    recursive merge for nested map values; any non-map value at a given
    key is replaced wholesale by the higher-precedence value (no array
    splicing)".  [mergeValue existing v] is what a key holding [existing]
    in the base gets when the override holds [v]. *)
Fixpoint mergeValue (existing v : value) : value :=
  match existing, v with
  | VMap existingMap, VMap overrideMap =>
      VMap (union_with (fun e o => Some (mergeValue e o)) existingMap overrideMap)
  | _, _ => v
  end.

Definition deepMerge (base override : gmap string value) : gmap string value :=
  union_with (fun e o => Some (mergeValue e o)) base override.

(** Modelled from the spec: the structural schema ("a structural schema
    carrying defaults") is a tree of properties, each with an optional
    default. *)
Inductive Structural : Type :=
  mkStructural (Default : option value) (Properties : gmap string Structural).



(** Modelled from the spec: [schema.ApplyDefaults] is not in the sources.
    The schema default has the lowest precedence: it fills a key that the
    parameters do not have, and never replaces one they have; this is done
    at every level of nested maps. *)
Fixpoint defaultValue (s : Structural) (x : value) {struct s} : value :=
  match s with
  | mkStructural _ props =>
      match x with
      | VMap m =>
          VMap (merge (fun op ov =>
                         match ov, op with
                         | Some v, Some p => Some (defaultValue p v)
                         | Some v, None => Some v
                         | None, Some p =>
                             match p with
                             | mkStructural (Some d) _ => Some (defaultValue p d)
                             | _ => None
                             end
                         | None, None => None
                         end) props m)
      | _ => x
      end
  end.

Definition ApplyDefaults (target : gmap string value) (structural : Structural)
    : gmap string value :=
  match defaultValue structural (VMap target) with
  | VMap m => m
  | _ => target
  end.

Module v1alpha1.

Record RawExtension : Type := mkRaw { Raw : option string }.

Record TraitSchema : Type := mkTraitSchema {
  Types : option RawExtension;
  Parameters : option RawExtension;
  EnvOverrides : option RawExtension;
}.

Record Trait : Type := mkTrait {
  Name : string;
  Schema : TraitSchema;
}.

Record Component : Type := mkComponent {
  ComponentName : string;
  ComponentNamespace : string;
}.

Record ComponentTrait : Type := mkComponentTrait {
  InstanceName : string;
  InstanceParameters : option RawExtension;
}.

Record ComponentDeployment : Type := mkComponentDeployment {
  TraitOverrides : option (gmap string RawExtension);
}.

End v1alpha1.

Module context.

Record SchemaInput : Type := mkSchemaInput {
  Types : option v1alpha1.RawExtension;
  ParametersSchema : option v1alpha1.RawExtension;
  EnvOverridesSchema : option v1alpha1.RawExtension;
}.

Record EnvironmentContext : Type := mkEnvironmentContext {
  EnvName : string;
  VirtualHost : string;
}.

Record MetadataContext : Type := mkMetadataContext {
  Name : string;
  Namespace : string;
  Labels : gmap string string;
  Annotations : gmap string string;
  PodSelectors : gmap string string;
}.

Record TraitContextInput : Type := mkTraitContextInput {
  Trait : option v1alpha1.Trait;
  Instance : v1alpha1.ComponentTrait;
  Component : option v1alpha1.Component;
  ComponentDeployment : option v1alpha1.ComponentDeployment;
  Environment : EnvironmentContext;
  Metadata : MetadataContext;
  SchemaCache : option (gmap string Structural);
}.

(** [json.Unmarshal] into a [map[string]any], and [BuildStructuralSchema]
    of the same package (not in the sources). *)
Class Externals : Type := {
  jsonUnmarshal : string -> result (gmap string value);
  BuildStructuralSchema : SchemaInput -> result Structural;
}.

Section Builder.

Context `{Externals}.

Definition extractParametersFromRawExtension (raw : option v1alpha1.RawExtension)
    : result (gmap string value) :=
  match raw with
  | None => Ok ∅
  | Some r =>
      match v1alpha1.Raw r with
      | None => Ok ∅
      | Some bytes =>
          match jsonUnmarshal bytes with
          | Err err => Err (ErrWrap "failed to unmarshal parameters" err)
          | Ok params => Ok params
          end
      end
  end.

(** Modelled from the spec: [extractParameters] is not in the sources;
    [extractParametersFromRawExtension] is documented as "similar to
    extractParameters but operates on a runtime.RawExtension directly". *)
Definition extractParameters (raw : option v1alpha1.RawExtension)
    : result (gmap string value) :=
  extractParametersFromRawExtension raw.

(** Steps 5 to 8: the sections of the context other than [parameters]. *)
Definition contextSections (trait : v1alpha1.Trait) (component : v1alpha1.Component)
    (input : TraitContextInput) (ctx : gmap string value) : gmap string value :=
  let traitMeta : gmap string value :=
    <["instanceName" := VString (v1alpha1.InstanceName (Instance input))]>
    (<["name" := VString (v1alpha1.Name trait)]> ∅) in
  let ctx := <["trait" := VMap traitMeta]> ctx in
  let componentMeta : gmap string value :=
    <["name" := VString (v1alpha1.ComponentName component)]> ∅ in
  let componentMeta :=
    if decide (v1alpha1.ComponentNamespace component <> "")
    then <["namespace" := VString (v1alpha1.ComponentNamespace component)]> componentMeta
    else componentMeta in
  let ctx := <["component" := VMap componentMeta]> ctx in
  let environment : gmap string value :=
    <["vhost" := VString (VirtualHost (Environment input))]>
    (<["name" := VString (EnvName (Environment input))]> ∅) in
  let ctx := <["environment" := VMap environment]> ctx in
  let metadataMap : gmap string value :=
    <["namespace" := VString (Namespace (Metadata input))]>
    (<["name" := VString (Name (Metadata input))]> ∅) in
  let metadataMap :=
    if decide (0 < size (Labels (Metadata input)))%nat
    then <["labels" := stringMap (Labels (Metadata input))]> metadataMap
    else metadataMap in
  let metadataMap :=
    if decide (0 < size (Annotations (Metadata input)))%nat
    then <["annotations" := stringMap (Annotations (Metadata input))]> metadataMap
    else metadataMap in
  let metadataMap :=
    if decide (0 < size (PodSelectors (Metadata input)))%nat
    then <["podSelectors" := stringMap (PodSelectors (Metadata input))]> metadataMap
    else metadataMap in
  <["metadata" := VMap metadataMap]> ctx.

(** Step 1: the structural schema of the trait, from the cache when it
    is there, built (and stored in the cache, when there is one)
    otherwise.  The second component is the cache as the step leaves it. *)
Definition structuralSchemaFor (input : TraitContextInput) (trait : v1alpha1.Trait)
    : result Structural * option (gmap string Structural) :=
  let cache := SchemaCache input in
  let traitName := v1alpha1.Name trait in
  let cached : option Structural :=
    match cache with
    | Some c => c !! traitName
    | None => None
    end in
  match cached with
  | Some structural => (Ok structural, cache)
  | None =>
      let schemaInput :=
        {| Types := v1alpha1.Types (v1alpha1.Schema trait);
           ParametersSchema := v1alpha1.Parameters (v1alpha1.Schema trait);
           EnvOverridesSchema := v1alpha1.EnvOverrides (v1alpha1.Schema trait) |} in
      match BuildStructuralSchema schemaInput with
      | Err err => (Err (ErrWrap "failed to build trait schema" err), cache)
      | Ok structural =>
          (Ok structural,
           match cache with
           | Some c => Some (<[traitName := structural]> c)
           | None => None
           end)
      end
  end.

(** Step 3: the instance parameters with the environment overrides of the
    instance, if there are any, merged over them. *)
Definition mergeEnvOverrides (input : TraitContextInput) (parameters : gmap string value)
    : result (gmap string value) :=
  match ComponentDeployment input with
  | Some deployment =>
      match v1alpha1.TraitOverrides deployment with
      | Some overrides =>
          let instanceName := v1alpha1.InstanceName (Instance input) in
          match overrides !! instanceName with
          | Some instanceOverride =>
              match extractParametersFromRawExtension (Some instanceOverride) with
              | Err err =>
                  Err (ErrWrap "failed to extract trait environment overrides" err)
              | Ok envOverrides => Ok (deepMerge parameters envOverrides)
              end
          | None => Ok parameters
          end
      | None => Ok parameters
      end
  | None => Ok parameters
  end.

(** The answer is the context or the error, and the schema cache as the
    call leaves it (the cache is a map the caller shares). *)
Definition BuildTraitContext (input : option TraitContextInput)
    : result (gmap string value) * option (gmap string Structural) :=
  match input with
  | None => (Err (ErrOther "trait context input is nil"), None)
  | Some input =>
      let cache := SchemaCache input in
      match Trait input with
      | None => (Err (ErrOther "trait is nil"), cache)
      | Some trait =>
          match Component input with
          | None => (Err (ErrOther "component is nil"), cache)
          | Some component =>
              if decide (Name (Metadata input) = "")
              then (Err (ErrOther "metadata.name is required"), cache)
              else if decide (Namespace (Metadata input) = "")
              then (Err (ErrOther "metadata.namespace is required"), cache)
              else
                let ctx : gmap string value := ∅ in
                (* 1. structural schema for defaulting *)
                match structuralSchemaFor input trait with
                | (Err err, cache) => (Err err, cache)
                | (Ok structural, cache) =>
                    (* 2. instance parameters *)
                    match extractParameters (v1alpha1.InstanceParameters (Instance input)) with
                    | Err err =>
                        (Err (ErrWrap "failed to extract trait instance parameters" err), cache)
                    | Ok parameters =>
                        (* 3. environment overrides *)
                        match mergeEnvOverrides input parameters with
                        | Err err => (Err err, cache)
                        | Ok parameters =>
                            (* 4. schema defaults *)
                            let parameters := ApplyDefaults parameters structural in
                            let ctx := <["parameters" := VMap parameters]> ctx in
                            (Ok (contextSections trait component input ctx), cache)
                        end
                    end
                end
          end
      end
  end.

End Builder.

End context.

(** ** The synthesis engine: stamping of the rendered documents *)

Module pipeline.

(** A rendered resource document: its identity, the labels and annotations
    under [metadata], and the rest of the body. *)
Record Document : Type := mkDocument {
  apiVersion : string;
  kind : string;
  name : string;
  labels : gmap string string;
  annotations : gmap string string;
  body : value;
}.

(** The options given to [NewPipeline] ([WithResourceLabels],
    [WithResourceAnnotations]). *)
Record Options : Type := mkOptions {
  ResourceLabels : gmap string string;
  ResourceAnnotations : gmap string string;
}.


(** [RenderInput], as the tests of the engine fill it: the component (its
    name and the parameters it declares), the resource templates of its
    component type, the environment (its name) and the generated metadata.
    The cases embedded below have no traits and an empty workload. *)
Record RenderInput : Type := mkRenderInput {
  ComponentName : string;
  ComponentParameters : gmap string value;
  ResourceTemplates : list Document;
  EnvironmentName : string;
  Metadata : context.MetadataContext;
}.




(** *** The tests of [Render] *)

(** A case of the tables of [TestPipeline_Render] and
    [TestPipeline_Options], as far as the cases embedded here use it: the
    snapshot ([spec.component.metadata.name], [spec.component.spec.parameters],
    the templates under [spec.componentType.spec.resources]), the name of
    the environment of [environmentYAML], the options given to
    [NewPipeline] (none in [TestPipeline_Render]) and the documents of
    [wantResourceYAML]. *)
Record renderCase : Type := mkRenderCase {
  caseName : string;
  snapshotComponent : string;
  snapshotParameters : gmap string value;
  snapshotTemplates : list Document;
  caseEnvironment : string;
  caseOptions : Options;
  wantResources : list Document;
}.

(** The input that the loop body of both tests builds: the parts of the
    snapshot, the environment, and the same generated metadata in every
    case. *)
Definition renderInputOf (tt : renderCase) : RenderInput :=
  {| ComponentName := snapshotComponent tt;
     ComponentParameters := snapshotParameters tt;
     ResourceTemplates := snapshotTemplates tt;
     EnvironmentName := caseEnvironment tt;
     Metadata :=
       {| context.Name := "test-component-dev-12345678";
          context.Namespace := "test-namespace";
          context.Labels := {[ "openchoreo.org/component" := "test-component";
                               "openchoreo.org/environment" := "dev" ]};
          context.Annotations := ∅;
          context.PodSelectors := ∅ |} |}.


(** The template of both cases of [TestPipeline_Options]. *)
Definition appDeployment : Document :=
  {| apiVersion := "apps/v1"; kind := "Deployment"; name := "app";
     labels := ∅; annotations := ∅; body := VMap ∅ |}.

(** [TestPipeline_Options], "with custom labels". *)
Definition withCustomLabels : renderCase :=
  {| caseName := "with custom labels";
     snapshotComponent := "test-app";
     snapshotParameters := ∅;
     snapshotTemplates := [appDeployment];
     caseEnvironment := "dev";
     caseOptions := {| ResourceLabels := {[ "custom" := "label" ]};
                       ResourceAnnotations := ∅ |};
     wantResources :=
       [ {| apiVersion := "apps/v1"; kind := "Deployment"; name := "app";
            labels := {[ "custom" := "label";
                         "openchoreo.org/component" := "test-app";
                         "openchoreo.org/environment" := "dev" ]};
            annotations := ∅;
            body := VMap ∅ |} ] |}.

(** [TestPipeline_Options], "with custom annotations". *)
Definition withCustomAnnotations : renderCase :=
  {| caseName := "with custom annotations";
     snapshotComponent := "test-app";
     snapshotParameters := ∅;
     snapshotTemplates := [appDeployment];
     caseEnvironment := "dev";
     caseOptions := {| ResourceLabels := ∅;
                       ResourceAnnotations := {[ "custom" := "annotation" ]} |};
     wantResources :=
       [ {| apiVersion := "apps/v1"; kind := "Deployment"; name := "app";
            labels := {[ "openchoreo.org/component" := "test-app";
                         "openchoreo.org/environment" := "dev" ]};
            annotations := {[ "custom" := "annotation" ]};
            body := VMap ∅ |} ] |}.

(** What the loop body of the tests checks of a [Render]: it answers
    without error, and [cmp.Diff] finds no difference between the wanted
    resources and the rendered ones. *)
Definition casePasses (render : Options -> RenderInput -> result (list Document))
    (tt : renderCase) : Prop :=
  render (caseOptions tt) (renderInputOf tt) = Ok (wantResources tt).

Definition TestPipeline_Options
    (render : Options -> RenderInput -> result (list Document)) : Prop :=
  Forall (casePasses render) [withCustomLabels; withCustomAnnotations].

End pipeline.

(** ** The API services: promotion paths, workflow status, workload image *)

Module services.

(** [metav1.ConditionTrue]. *)
Definition ConditionTrue : string := "True".

(** One of the loops of [GetLatestWorkflowStatus]: whether some
    condition has the type and the status [True]. *)
Definition hasTrueCondition (conditionType : string) (workflowConditions : list Condition)
    : bool :=
  existsb (fun condition =>
             bool_decide (condType condition = conditionType)
             && bool_decide (condStatus condition = ConditionTrue))
          workflowConditions.

Definition GetLatestWorkflowStatus (workflowConditions : list Condition) : string :=
  if decide (length workflowConditions = 0%nat) then "Pending"
  else if hasTrueCondition "WorkloadUpdated" workflowConditions then "Completed"
  else if hasTrueCondition "WorkflowFailed" workflowConditions then "Failed"
  else if hasTrueCondition "WorkflowSucceeded" workflowConditions then "Succeeded"
  else if hasTrueCondition "WorkflowRunning" workflowConditions then "Running"
  else "Pending".

(** [WorkloadTemplateSpec]: the containers, a Go map from container
    name to container. *)
Record Container : Type := mkContainer { Image : string }.

Record WorkloadTemplateSpec : Type := mkWorkloadTemplateSpec {
  Containers : gmap string Container;
}.

(** The loop of [extractImageFromWorkloadSpec] over the containers in
    the order [range] gives them. *)
Fixpoint firstImage (containers : list (string * Container)) : string :=
  match containers with
  | [] => ""
  | (_, container) :: rest =>
      if decide (Image container <> "") then Image container else firstImage rest
  end.

(** Go ranges over a map in an order that is not specified; [range] is
    the order of one run. *)
Definition extractImageFromWorkloadSpec
    (range : gmap string Container -> list (string * Container))
    (workloadSpec : WorkloadTemplateSpec) : string :=
  if decide (size (Containers workloadSpec) = 0%nat) then ""
  else firstImage (range (Containers workloadSpec)).

(** The deployment pipeline, as far as the services read it. *)
Record TargetEnvironmentRef : Type := mkTargetEnvironmentRef { TargetName : string }.

Record PromotionPath : Type := mkPromotionPath {
  SourceEnvironmentRef : string;
  TargetEnvironmentRefs : list TargetEnvironmentRef;
}.

Record DeploymentPipeline : Type := mkDeploymentPipeline {
  PromotionPaths : list PromotionPath;
}.

Record ProjectResponse : Type := mkProjectResponse {
  ProjectDeploymentPipeline : string;
}.

(** What the component service is given: the project service, the
    client's [Get] of a deployment pipeline by namespace and name, the
    name of the default pipeline and the two sentinel errors (none of
    them is in the sources). *)
Class Externals : Type := {
  GetProject : string -> string -> result ProjectResponse;
  k8sGetPipeline : string * string -> result DeploymentPipeline;
  defaultPipeline : string;
  ErrDeploymentPipelineNotFound : error;
  ErrInvalidPromotionPath : error;
}.

Section ComponentService.
Context `{Externals}.

Definition pipelineNameOf (project : ProjectResponse) : string :=
  if decide (ProjectDeploymentPipeline project <> "")
  then ProjectDeploymentPipeline project
  else defaultPipeline.

Definition getEnvironmentsFromDeploymentPipeline (orgName projectName : string)
    : result (list string) :=
  match GetProject orgName projectName with
  | Err err => Err err
  | Ok project =>
      let pipelineName := pipelineNameOf project in
      match k8sGetPipeline (orgName, pipelineName) with
      | Err err =>
          if IsNotFound err then Err ErrDeploymentPipelineNotFound
          else Err (ErrWrap "failed to get deployment pipeline" err)
      | Ok pipeline =>
          let environmentSet : gmap string bool :=
            foldl (fun environmentSet path =>
                     let environmentSet :=
                       <[SourceEnvironmentRef path := true]> environmentSet in
                     foldl (fun environmentSet target =>
                              <[TargetName target := true]> environmentSet)
                           environmentSet (TargetEnvironmentRefs path))
                  ∅ (PromotionPaths pipeline) in
          Ok (map_to_list environmentSet).*1
      end
  end.

Definition validatePromotionPath (orgName projectName sourceEnv targetEnv : string)
    : option error :=
  match GetProject orgName projectName with
  | Err err => Some err
  | Ok project =>
      let pipelineName := pipelineNameOf project in
      match k8sGetPipeline (orgName, pipelineName) with
      | Err err =>
          if IsNotFound err then Some ErrDeploymentPipelineNotFound
          else Some (ErrWrap "failed to get deployment pipeline" err)
      | Ok pipeline =>
          if existsb (fun path =>
                        bool_decide (SourceEnvironmentRef path = sourceEnv)
                        && existsb (fun target => bool_decide (TargetName target = targetEnv))
                                   (TargetEnvironmentRefs path))
                     (PromotionPaths pipeline)
          then None
          else Some ErrInvalidPromotionPath
      end
  end.

End ComponentService.

End services.

(** ** Vocabulary of the statements *)

(** The resource-ID label of an object ([""] when it has none). *)
Definition resourceID `{LabelKeys} (obj : Unstructured) : string :=
  index (objLabels obj) LabelKeyReleaseResourceID.

(** The objects of a cluster that carry the UID label of a Release. *)
Definition ownedBy `{LabelKeys} (release : Release) (c : Cluster) : list Unstructured :=
  filter (fun o => objLabels o !! LabelKeyReleaseUID = Some (UID release)) (objects c).

(** The stored Release under [key] has the cleanup finalizer. *)
Definition hasFinalizer (c : ControlPlane) (key : string * string) : Prop :=
  exists r, cpReleases c !! key = Some r /\ DataPlaneCleanupFinalizer ∈ Finalizers r.

(** A pass from [w] to [w'] removed the cleanup finalizer of [key]. *)
Definition finalizerRemoved (w w' : World) (key : string * string) : Prop :=
  hasFinalizer (cp w) key /\ ~ hasFinalizer (cp w') key.


(** The tracking labels that name the component and the environment of an
    input. *)
Definition trackingLabels (input : pipeline.RenderInput) : gmap string string :=
  {[ "openchoreo.org/component" := pipeline.ComponentName input;
     "openchoreo.org/environment" := pipeline.EnvironmentName input ]}.



(** The environment overrides that apply to the trait instance of an
    input: the decoded entry of [TraitOverrides] under the instance name,
    empty when there is none. *)
Definition instanceOverrides `{context.Externals} (input : context.TraitContextInput)
    : result (gmap string value) :=
  match context.ComponentDeployment input with
  | Some deployment =>
      match v1alpha1.TraitOverrides deployment with
      | Some overrides =>
          match overrides !! v1alpha1.InstanceName (context.Instance input) with
          | Some instanceOverride =>
              context.extractParametersFromRawExtension (Some instanceOverride)
          | None => Ok ∅
          end
      | None => Ok ∅
      end
  | None => Ok ∅
  end.



(** What makes two entries of a cluster the same API object. *)
Definition identity (o : Unstructured) : GroupVersionKind * string * string :=
  (objGVK o, objNamespace o, objName o).

(** An API server holds one object per kind, namespace and name. *)
Definition uniqueIdentities (objs : list Unstructured) : Prop :=
  NoDup (identity <$> objs).

(** The input of a call with another schema cache, and with other
    trait overrides in its deployment. *)
Definition withSchemaCache (input : context.TraitContextInput)
    (cache : option (gmap string Structural)) : context.TraitContextInput :=
  {| context.Trait := context.Trait input;
     context.Instance := context.Instance input;
     context.Component := context.Component input;
     context.ComponentDeployment := context.ComponentDeployment input;
     context.Environment := context.Environment input;
     context.Metadata := context.Metadata input;
     context.SchemaCache := cache |}.

Definition withTraitOverrides (input : context.TraitContextInput)
    (overrides : option (gmap string v1alpha1.RawExtension)) : context.TraitContextInput :=
  {| context.Trait := context.Trait input;
     context.Instance := context.Instance input;
     context.Component := context.Component input;
     context.ComponentDeployment := Some {| v1alpha1.TraitOverrides := overrides |};
     context.Environment := context.Environment input;
     context.Metadata := context.Metadata input;
     context.SchemaCache := context.SchemaCache input |}.

(** An optional section of the metadata: there when the map has entries. *)
Definition optionalSection (m : gmap string string) : option value :=
  if decide (m = ∅) then None else Some (stringMap m).

(* ================================================================== *)
(** * Part II: a concrete world                                        *)
(* ================================================================== *)

(** One Release, [org/demo], with a single desired ConfigMap, reconciled
    against a data plane whose list call for ConfigMaps times out. *)
Module Fixture.

Definition keys : LabelKeys :=
  {| LabelKeyManagedBy := "openchoreo.dev/managed-by";
     LabelKeyReleaseResourceID := "openchoreo.dev/release-resource-id";
     LabelKeyReleaseUID := "openchoreo.dev/release-uid";
     LabelKeyReleaseName := "openchoreo.dev/release-name";
     LabelKeyReleaseNamespace := "openchoreo.dev/release-namespace";
     LabelKeyCreatedBy := "openchoreo.dev/created-by";
     LabelKeyEnvironmentName := "openchoreo.dev/environment";
     LabelKeyProjectName := "openchoreo.dev/project" |}.

Definition configMapGVK : GroupVersionKind := mkGVK "" "v1" "ConfigMap".

(** The document behind the raw bytes ["app-config.json"]. *)
Definition appConfig : Unstructured :=
  {| objGVK := configMapGVK; objNamespace := "default"; objName := "app-config";
     objLabels := {[ "app" := "demo" ]}; objFinalizers := [] |}.

Definition finalizing (generation : Z) : Condition :=
  {| condType := "Finalizing"; condStatus := "True";
     condReason := "CleanupInProgress"; condMessage := "cleaning up";
     condObservedGeneration := generation |}.

Definition cleanupFailedCondition (generation : Z) (err : error) : Condition :=
  {| condType := "Finalizing"; condStatus := "False";
     condReason := "CleanupFailed"; condMessage := "cleanup failed";
     condObservedGeneration := generation |}.

(** The documents [A] (a Secret), [B] and [C] (ConfigMaps) of the two
    scenarios of the design document. *)
Definition docA : Unstructured :=
  {| objGVK := mkGVK "" "v1" "Secret"; objNamespace := "default"; objName := "a";
     objLabels := ∅; objFinalizers := [] |}.

Definition docB : Unstructured :=
  {| objGVK := configMapGVK; objNamespace := "default"; objName := "b";
     objLabels := ∅; objFinalizers := [] |}.

Definition docC : Unstructured :=
  {| objGVK := configMapGVK; objNamespace := "default"; objName := "c";
     objLabels := ∅; objFinalizers := [] |}.

(** [randIntn] answers with the largest value it may return. *)
Definition externals : Externals :=
  {| UnmarshalJSON := fun raw =>
       if decide (raw = "app-config.json") then Ok appConfig
       else if decide (raw = "a.json") then Ok docA
       else if decide (raw = "b.json") then Ok docB
       else if decide (raw = "c.json") then Ok docC
       else Err (ErrOther "invalid character");
     LabelSelectorCheck := fun _ => None;
     NewReleaseFinalizingCondition := finalizing;
     NewReleaseCleanupFailedCondition := cleanupFailedCondition;
     observeProgressing := fun _ _ => false;
     randIntn := fun n => (n - 1)%Z |}.

Definition spec : ReleaseSpec :=
  {| EnvironmentName := "dev"; OwnerProjectName := "shop";
     Resources := [ {| resID := "config"; resObject := "app-config.json" |} ];
     Interval := None; ProgressingInterval := None |}.

Definition inventory : list ResourceStatus :=
  [ {| rsID := "config"; rsGroup := ""; rsVersion := "v1"; rsKind := "ConfigMap";
       rsName := "app-config"; rsNamespace := "default"; rsProgressing := false |} ].

(** The Release in steady state, and the same Release once its deletion
    was requested and the finalizing condition recorded. *)
Definition release : Release :=
  {| Name := "demo"; Namespace_ := "org"; UID := "uid-1"; Generation := 1;
     DeletionTimestamp := None; Finalizers := [DataPlaneCleanupFinalizer];
     Spec := spec;
     Status := {| StatusResources := inventory; Conditions := [] |} |}.

Definition deleting : Release :=
  {| Name := "demo"; Namespace_ := "org"; UID := "uid-1"; Generation := 1;
     DeletionTimestamp := Some 1700000000%Z;
     Finalizers := [DataPlaneCleanupFinalizer];
     Spec := spec;
     Status := {| StatusResources := inventory; Conditions := [finalizing 1] |} |}.

Definition key : string * string := ("org", "demo").

Definition controlPlane (r : Release) : ControlPlane :=
  {| cpReleases := {[ key := r ]};
     cpEnvironments := {[ ("org", "dev") := {| DataPlaneRef := "dp-1" |} ]};
     cpDataPlanes := {[ ("org", "dp-1") :=
                          {| dpName := "dp-1"; dpNamespace := "org";
                             KubernetesCluster := "k3d-dp" |} ]};
     cpGetErr := None;
     cpUpdateErr := fun _ => None;
     cpStatusUpdateErr := fun _ => None;
     clientMgrErr := fun _ => None |}.

(** The applied ConfigMap as it lives on the cluster. *)
Definition liveConfig : Unstructured :=
  @stampOwnership keys release {| resID := "config"; resObject := "app-config.json" |}
    appConfig.

Definition timeout : error := ErrOther "context deadline exceeded".

(** A cluster holding [objs] where listing ConfigMaps fails. *)
Definition flakyCluster (objs : list Unstructured) : Cluster :=
  {| objects := objs;
     namespaces := [ {| nsName := "default"; nsLabels := ∅ |} ];
     listErr := fun g => if decide (g = listGVK configMapGVK) then Some timeout else None;
     deleteErr := fun _ => None;
     patchErr := fun _ => None;
     getNsErr := fun _ => None;
     createNsErr := fun _ => None |}.

(** The same cluster with every call answering. *)
Definition healthyCluster (objs : list Unstructured) : Cluster :=
  {| objects := objs;
     namespaces := [ {| nsName := "default"; nsLabels := ∅ |} ];
     listErr := fun _ => None;
     deleteErr := fun _ => None;
     patchErr := fun _ => None;
     getNsErr := fun _ => None;
     createNsErr := fun _ => None |}.

(** A ConfigMap applied for an entry of the Release whose ID is the empty
    string: it carries the five ownership labels, the resource ID among
    them, empty. *)
Definition anonymous : Unstructured :=
  @stampOwnership keys release {| resID := ""; resObject := "legacy.json" |}
    {| objGVK := configMapGVK; objNamespace := "default"; objName := "legacy-config";
       objLabels := ∅; objFinalizers := [] |}.

(** A Secret applied by an earlier generation of the Release, no longer
    among its resources. *)
Definition orphan : Unstructured :=
  @stampOwnership keys release {| resID := "credentials"; resObject := "secret.json" |}
    {| objGVK := mkGVK "" "v1" "Secret"; objNamespace := "default";
       objName := "old-credentials"; objLabels := ∅; objFinalizers := [] |}.


(** A second stale object, and a cluster that refuses to delete the
    first one. *)
Definition orphanMap : Unstructured :=
  @stampOwnership keys release {| resID := "old-map"; resObject := "old-map.json" |}
    {| objGVK := configMapGVK; objNamespace := "default";
       objName := "old-map"; objLabels := ∅; objFinalizers := [] |}.

Definition stubbornCluster : Cluster :=
  {| objects := [liveConfig; orphan; orphanMap];
     namespaces := [ {| nsName := "default"; nsLabels := ∅ |} ];
     listErr := fun _ => None;
     deleteErr := fun o => if decide (objName o = "old-credentials")
                           then Some timeout else None;
     patchErr := fun _ => None;
     getNsErr := fun _ => None;
     createNsErr := fun _ => None |}.

Definition steadyWorld : World :=
  {| cp := controlPlane release; dp := flakyCluster [liveConfig] |}.

Definition finalizingWorld : World :=
  {| cp := controlPlane deleting; dp := flakyCluster [liveConfig] |}.

Definition healthyFinalizingWorld : World :=
  {| cp := controlPlane deleting; dp := healthyCluster [liveConfig] |}.

Definition cleanFinalizingWorld : World :=
  {| cp := controlPlane deleting; dp := healthyCluster [] |}.

(** Scenario 5 of the design document: the desired set [{A, B}] is
    reconciled, the spec is changed to [{B, C}] and reconciled again.
    Scenario 6: the Release is then deleted and reconciled until it is
    gone. *)
Definition releaseAB : Release :=
  {| Name := "demo"; Namespace_ := "org"; UID := "uid-1"; Generation := 1;
     DeletionTimestamp := None; Finalizers := [DataPlaneCleanupFinalizer];
     Spec := {| EnvironmentName := "dev"; OwnerProjectName := "shop";
                Resources := [ {| resID := "A"; resObject := "a.json" |};
                               {| resID := "B"; resObject := "b.json" |} ];
                Interval := None; ProgressingInterval := None |};
     Status := {| StatusResources := []; Conditions := [] |} |}.

Definition reconcile (w : World) : World :=
  (@Reconcile keys externals w key).2.

(** An edit of the stored Release by its owner. *)
Definition edit (f : Release -> Release) (w : World) : World :=
  withCP w (withReleases (cp w) (f <$> cpReleases (cp w))).

Definition setResourcesBC (r : Release) : Release :=
  {| Name := Name r; Namespace_ := Namespace_ r; UID := UID r;
     Generation := (Generation r + 1)%Z;
     DeletionTimestamp := DeletionTimestamp r; Finalizers := Finalizers r;
     Spec := {| EnvironmentName := "dev"; OwnerProjectName := "shop";
                Resources := [ {| resID := "B"; resObject := "b.json" |};
                               {| resID := "C"; resObject := "c.json" |} ];
                Interval := None; ProgressingInterval := None |};
     Status := Status r |}.

Definition requestDeletion (r : Release) : Release :=
  {| Name := Name r; Namespace_ := Namespace_ r; UID := UID r;
     Generation := Generation r;
     DeletionTimestamp := Some 1700000000%Z; Finalizers := Finalizers r;
     Spec := Spec r; Status := Status r |}.

Definition afterAB : World :=
  reconcile {| cp := controlPlane releaseAB; dp := healthyCluster [] |}.

Definition afterBC : World := reconcile (edit setResourcesBC afterAB).

Definition afterDeletion : World :=
  reconcile (reconcile (reconcile (edit requestDeletion afterBC))).

(** Intervals on which the two computations of the jitter bound are
    compared: the defaults, small values, and values around the powers of
    two where rounding changes. *)
Definition jitterSamples : list Z :=
  [ (10 * Second)%Z; (5 * Minute)%Z; 1%Z; 4%Z; 5%Z; 6%Z; 9%Z; 10%Z;
    (- (10 * Second))%Z; (-1)%Z; (2 ^ 63 - 1)%Z; (- 2 ^ 63)%Z;
    (2 ^ 62 + 513)%Z; (2 ^ 62 + 511)%Z; (2 ^ 55 + 5)%Z ]
  ++ map (fun k => (2 ^ 53 - Z.of_nat k)%Z) (seq 0 200)
  ++ map (fun k => (2 ^ 53 + Z.of_nat k)%Z) (seq 0 200)
  ++ map (fun k => (Z.of_nat k * 1000003)%Z) (seq 0 200).

End Fixture.

(** The inputs of two cases of [TestBuildTraitContext], "trait with
    environment overrides" and "nil trait input", and of
    [TestPipeline_Options]. *)
Module ContextFixture.

(** The instance parameters and the override of instance [db-1], as
    decoded from their raw bytes. *)
Definition instanceParams : gmap string value :=
  {[ "database" := VString "mydb"; "size" := VString "small" ]}.

Definition prodOverride : gmap string value :=
  {[ "size" := VString "large" ]}.

(** The schema of [mysql-trait]: [database: string],
    [size: string | default=small]. *)
Definition schemaOf : Structural :=
  mkStructural None
    {[ "database" := mkStructural None ∅;
       "size" := mkStructural (Some (VString "small")) ∅ ]}.

Definition externals : context.Externals :=
  {| context.jsonUnmarshal := fun bytes =>
       if decide (bytes = "instance-parameters.json") then Ok instanceParams
       else if decide (bytes = "db-1-override.json") then Ok prodOverride
       else Err (ErrOther "unexpected end of JSON input");
     context.BuildStructuralSchema := fun _ => Ok schemaOf |}.

Definition metadata : context.MetadataContext :=
  {| context.Name := "test-component-dev-12345678";
     context.Namespace := "test-namespace";
     context.Labels := ∅;
     context.Annotations := ∅;
     context.PodSelectors := ∅ |}.

Definition mysqlTrait : v1alpha1.Trait :=
  {| v1alpha1.Name := "mysql-trait";
     v1alpha1.Schema := {| v1alpha1.Types := None;
                           v1alpha1.Parameters := Some {| v1alpha1.Raw := Some "schema.json" |};
                           v1alpha1.EnvOverrides := None |} |}.

Definition testComponent : v1alpha1.Component :=
  {| v1alpha1.ComponentName := "test-component"; v1alpha1.ComponentNamespace := "" |}.

Definition input : context.TraitContextInput :=
  {| context.Trait := Some mysqlTrait;
     context.Instance :=
       {| v1alpha1.InstanceName := "db-1";
          v1alpha1.InstanceParameters :=
            Some {| v1alpha1.Raw := Some "instance-parameters.json" |} |};
     context.Component := Some testComponent;
     context.ComponentDeployment :=
       Some {| v1alpha1.TraitOverrides :=
                 Some {[ "db-1" := {| v1alpha1.Raw := Some "db-1-override.json" |} ]} |};
     context.Environment := {| context.EnvName := "prod";
                               context.VirtualHost := "api.example.com" |};
     context.Metadata := metadata;
     context.SchemaCache := None |}.

(** The context the test wants for [input]. *)
Definition want : gmap string value :=
  {[ "parameters" := VMap {[ "database" := VString "mydb"; "size" := VString "large" ]};
     "trait" := VMap {[ "name" := VString "mysql-trait";
                        "instanceName" := VString "db-1" ]};
     "component" := VMap {[ "name" := VString "test-component" ]};
     "environment" := VMap {[ "name" := VString "prod";
                              "vhost" := VString "api.example.com" ]};
     "metadata" := VMap {[ "name" := VString "test-component-dev-12345678";
                           "namespace" := VString "test-namespace" ]} ]}.

(** The input of the case "nil trait input". *)
Definition inputWithoutTrait : context.TraitContextInput :=
  {| context.Trait := None;
     context.Instance := {| v1alpha1.InstanceName := "";
                            v1alpha1.InstanceParameters := None |};
     context.Component := Some testComponent;
     context.ComponentDeployment := None;
     context.Environment := {| context.EnvName := "";
                               context.VirtualHost := "api.example.com" |};
     context.Metadata := metadata;
     context.SchemaCache := None |}.

(** A stand-in for [Render] on inputs whose templates hold no expression:
    the templates as they are, each with the tracking labels and the
    custom labels and annotations. *)
Definition renderByName (options : pipeline.Options) (input : pipeline.RenderInput)
    : result (list pipeline.Document) :=
  Ok (map (fun doc =>
             {| pipeline.apiVersion := pipeline.apiVersion doc;
                pipeline.kind := pipeline.kind doc;
                pipeline.name := pipeline.name doc;
                pipeline.labels :=
                  pipeline.ResourceLabels options
                  ∪ (trackingLabels input ∪ pipeline.labels doc);
                pipeline.annotations :=
                  pipeline.ResourceAnnotations options ∪ pipeline.annotations doc;
                pipeline.body := pipeline.body doc |})
          (pipeline.ResourceTemplates input)).

End ContextFixture.

(** Further worlds around the Release [org/demo]. *)
Module Scenario.

(** The Release as it is created: no finalizer yet. *)
Definition fresh : Release :=
  {| Name := "demo"; Namespace_ := "org"; UID := "uid-1"; Generation := 1;
     DeletionTimestamp := None; Finalizers := [];
     Spec := Fixture.spec;
     Status := {| StatusResources := []; Conditions := [] |} |}.

Definition freshWorld : World :=
  {| cp := Fixture.controlPlane fresh; dp := Fixture.healthyCluster [] |}.

(** The Release with a second entry whose bytes do not parse. *)
Definition broken : Release :=
  {| Name := "demo"; Namespace_ := "org"; UID := "uid-1"; Generation := 2;
     DeletionTimestamp := None; Finalizers := [DataPlaneCleanupFinalizer];
     Spec := {| EnvironmentName := "dev"; OwnerProjectName := "shop";
                Resources := [ {| resID := "config"; resObject := "app-config.json" |};
                               {| resID := "broken"; resObject := "{" |} ];
                Interval := None; ProgressingInterval := None |};
     Status := {| StatusResources := Fixture.inventory; Conditions := [] |} |}.

Definition brokenWorld : World :=
  {| cp := Fixture.controlPlane broken; dp := Fixture.healthyCluster [Fixture.liveConfig] |}.

(** The Release in steady state, with a Secret of an earlier generation
    still on the data plane and recorded in the inventory, and an object
    of another owner beside it. *)
Definition foreign : Unstructured :=
  {| objGVK := Fixture.configMapGVK; objNamespace := "default"; objName := "kube-root-ca";
     objLabels := ∅; objFinalizers := [] |}.

Definition withSecretInInventory : Release :=
  {| Name := "demo"; Namespace_ := "org"; UID := "uid-1"; Generation := 1;
     DeletionTimestamp := None; Finalizers := [DataPlaneCleanupFinalizer];
     Spec := Fixture.spec;
     Status := {| StatusResources :=
                    Fixture.inventory
                    ++ [ {| rsID := "credentials"; rsGroup := ""; rsVersion := "v1";
                            rsKind := "Secret"; rsName := "old-credentials";
                            rsNamespace := "default"; rsProgressing := false |} ];
                  Conditions := [] |} |}.

Definition staleWorld : World :=
  {| cp := Fixture.controlPlane withSecretInInventory;
     dp := Fixture.healthyCluster [Fixture.liveConfig; Fixture.orphan; foreign] |}.

(** A cluster without the namespace [default]. *)
Definition emptyCluster : Cluster :=
  {| objects := []; namespaces := [];
     listErr := fun _ => None; deleteErr := fun _ => None; patchErr := fun _ => None;
     getNsErr := fun _ => None; createNsErr := fun _ => None |}.

Definition defaultNamespace : Namespace :=
  @namespaceFor Fixture.keys Fixture.release "default".

End Scenario.

(** Inputs of the context builder with a schema cache, and with an
    override for another instance. *)
Module CacheFixture.

(** A builder whose schema construction fails. *)
Definition failingExternals : context.Externals :=
  {| context.jsonUnmarshal := @context.jsonUnmarshal ContextFixture.externals;
     context.BuildStructuralSchema := fun _ => Err (ErrOther "invalid schema") |}.

Definition cache : gmap string Structural :=
  {[ "mysql-trait" := ContextFixture.schemaOf ]}.

Definition cachedInput : context.TraitContextInput :=
  withSchemaCache ContextFixture.input (Some cache).

Definition overrides : gmap string v1alpha1.RawExtension :=
  {[ "db-1" := {| v1alpha1.Raw := Some "db-1-override.json" |} ]}.

Definition overridesWithAnother : gmap string v1alpha1.RawExtension :=
  {[ "db-1" := {| v1alpha1.Raw := Some "db-1-override.json" |};
     "db-2" := {| v1alpha1.Raw := Some "{" |} ]}.

End CacheFixture.

(** The pipeline [dev -> staging -> prod] of [TestValidatePromotionPath]
    and [TestFindLowestEnvironment], and a workload with one container. *)
Module ServicesFixture.

Definition pipeline : services.DeploymentPipeline :=
  {| services.PromotionPaths :=
       [ {| services.SourceEnvironmentRef := "dev";
            services.TargetEnvironmentRefs := [ {| services.TargetName := "staging" |} ] |};
         {| services.SourceEnvironmentRef := "staging";
            services.TargetEnvironmentRefs := [ {| services.TargetName := "prod" |} ] |} ] |}.

Definition externals : services.Externals :=
  {| services.GetProject := fun org project =>
       if decide (org = "org" /\ project = "shop")
       then Ok {| services.ProjectDeploymentPipeline := "" |}
       else Err ErrNotFound;
     services.k8sGetPipeline := fun key =>
       if decide (key = ("org", "default-pipeline")) then Ok pipeline else Err ErrNotFound;
     services.defaultPipeline := "default-pipeline";
     services.ErrDeploymentPipelineNotFound := ErrOther "deployment pipeline not found";
     services.ErrInvalidPromotionPath := ErrOther "invalid promotion path" |}.

Definition workload : services.WorkloadTemplateSpec :=
  {| services.Containers := {[ "main" := {| services.Image := "registry/app:v1" |} ]} |}.

End ServicesFixture.

(* ================================================================== *)
(** * Part III: theorems                                               *)
(* ================================================================== *)

Section ProbeSet.

Lemma elem_of_map_keys {V} (m : gmap GroupVersionKind V) (g : GroupVersionKind) :
  g ∈ (map_to_list m).*1 <-> is_Some (m !! g).
Proof.
  rewrite list_elem_of_fmap. split.
  - intros [[k v] [-> Hkv]]. apply elem_of_map_to_list in Hkv. by exists v.
  - intros [v Hv]. exists (g, v). split; [done|]. by apply elem_of_map_to_list.
Qed.

Lemma foldl_insert_true_lookup {A} (f : A -> GroupVersionKind) (l : list A)
    (s : gmap GroupVersionKind bool) (g : GroupVersionKind) :
  is_Some (foldl (fun s x => <[f x := true]> s) s l !! g)
  <-> is_Some (s !! g) \/ exists x, x ∈ l /\ f x = g.
Proof.
  revert s. induction l as [|a l IH]; intros s; simpl.
  - split; [auto|]. intros [?|(x & Hx & _)]; [done|]. by apply elem_of_nil in Hx.
  - rewrite IH, lookup_insert_is_Some'. split.
    + intros [[Ha|?]|(x & Hx & Hg)]; eauto.
      * right. exists a. split; [left|done].
      * right. exists x. split; [by right|done].
    + intros [?|(x & Hx & Hg)]; [auto|].
      apply elem_of_cons in Hx as [->|Hx]; [auto|]. right; eauto.
Qed.

Lemma findAllKnownGVKs_elem desired applied g :
  g ∈ findAllKnownGVKs desired applied
  <-> (exists obj, obj ∈ desired /\ objGVK obj = g)
      \/ (exists a, a ∈ applied /\ statusGVK a = g).
Proof.
  unfold findAllKnownGVKs.
  rewrite elem_of_map_keys, (foldl_insert_true_lookup statusGVK),
    (foldl_insert_true_lookup objGVK), lookup_empty.
  split; [intros [[Hn|?]|?]|intros [?|?]]; auto.
  by destruct Hn.
Qed.

(** C1.  What the code does where the claim fails: with nothing desired
    and nothing in the inventory no GVK is probed at all.  The GVKs
    returned are those of the desired documents and of the status
    inventory; a well-known kind is returned only if it is one of these. *)
Theorem findAllKnownGVKs_omits_catalog :
  findAllKnownGVKs [] [] = []
  /\ (forall desired applied gvk,
        gvk ∈ findAllKnownGVKs desired applied
        <-> (exists obj, obj ∈ desired /\ objGVK obj = gvk)
            \/ (exists a, a ∈ applied /\ statusGVK a = gvk))
  /\ mkGVK "" "v1" "Service" ∈ wellKnownGVKs
  /\ mkGVK "" "v1" "Service" ∉ findAllKnownGVKs [] [].
Proof.
  split; [reflexivity|]. split; [apply findAllKnownGVKs_elem|].
  split; [unfold wellKnownGVKs; left|].
  rewrite findAllKnownGVKs_elem. intros [(x & Hx & _)|(x & Hx & _)]; by apply elem_of_nil in Hx.
Qed.
End ProbeSet.

Section StaleSet.
Context `{LabelKeys}.

Lemma foldl_snoc_filter {A} (P : A -> bool) (l acc : list A) :
  foldl (fun acc x => if P x then acc ++ [x] else acc) acc l
  = acc ++ filter (fun x => P x = true) l.
Proof.
  revert acc. induction l as [|a l IH]; intros acc; simpl.
  - by rewrite app_nil_r.
  - rewrite IH, filter_cons. destruct (P a) eqn:E.
    + rewrite decide_True by done. by rewrite <- app_assoc.
    + rewrite decide_False by congruence. done.
Qed.

Lemma desiredResourceIDs_lookup (desired : list Unstructured) (ids : gmap string bool) id :
  default false
    (foldl (fun ids obj =>
              let resourceID := index (objLabels obj) LabelKeyReleaseResourceID in
              if decide (resourceID <> "") then <[resourceID := true]> ids else ids)
       ids desired !! id) = true
  <-> default false (ids !! id) = true
      \/ (id <> "" /\ exists d, d ∈ desired /\ resourceID d = id).
Proof.
  revert ids. induction desired as [|d l IH]; intros ids.
  - simpl. split; [auto|]. intros [?|[_ (x & Hx & _)]]; [done|]. by apply elem_of_nil in Hx.
  - cbn [foldl]. rewrite IH. fold (resourceID d). cbv zeta. case_decide as Hd.
    + destruct (decide (resourceID d = id)) as [<-|Hne].
      * rewrite lookup_insert_eq. simpl. split; [intros _|auto].
        right. split; [done|]. exists d. split; [left|done].
      * rewrite lookup_insert_ne by done. split.
        -- intros [?|[? (x & Hx & Hxi)]]; [auto|]. right. split; [done|].
           exists x. split; [by right|done].
        -- intros [?|[? (x & Hx & Hxi)]]; [auto|].
           apply elem_of_cons in Hx as [->|?]; [done|]. right. eauto.
    + split.
      * intros [?|[? (x & Hx & Hxi)]]; [auto|]. right. split; [done|].
        exists x. split; [by right|done].
      * intros [?|[Hid (x & Hx & Hxi)]]; [auto|].
        apply elem_of_cons in Hx as [->|?]; [|right; eauto].
        congruence.
Qed.

Lemma findStaleResources_filter (live desired : list Unstructured) :
  findStaleResources live desired
  = filter (fun l => resourceID l <> "" /\ resourceID l ∉ resourceID <$> desired) live.
Proof.
  unfold findStaleResources.
  set (ids := foldl _ ∅ desired).
  pose (P := fun liveObj : Unstructured =>
               bool_decide (resourceID liveObj <> "")
               && negb (default false (ids !! resourceID liveObj))).
  assert (Hgen : forall acc,
    foldl (fun staleResources liveObj =>
             let liveResourceID := index (objLabels liveObj) LabelKeyReleaseResourceID in
             if decide (liveResourceID <> "")
             then if negb (default false (ids !! liveResourceID))
                  then staleResources ++ [liveObj]
                  else staleResources
             else staleResources) acc live
    = foldl (fun acc x => if P x then acc ++ [x] else acc) acc live).
  { induction live as [|a l IH]; intros acc; [done|].
    cbn [foldl]. rewrite <- IH. f_equal. unfold P. fold (resourceID a). cbv zeta.
    case_decide as Hc.
    - by rewrite bool_decide_eq_true_2.
    - rewrite bool_decide_eq_false_2; [done|]. by intros Hn. }
  rewrite Hgen.
  rewrite foldl_snoc_filter. simpl. apply list_filter_iff. intros x. unfold P.
  rewrite andb_true_iff, bool_decide_eq_true, negb_true_iff.
  assert (Hids : default false (ids !! resourceID x) = true
                 <-> resourceID x <> "" /\ resourceID x ∈ resourceID <$> desired).
  { unfold ids. rewrite desiredResourceIDs_lookup, lookup_empty. simpl.
    rewrite list_elem_of_fmap. split.
    - intros [?|[? (d & ? & ?)]]; [done|]. split; [done|]. by exists d.
    - intros [? (d & ? & ?)]. right. split; [done|]. by exists d. }
  split.
  - intros [Hne Hf]. split; [done|]. intros Hin.
    destruct Hids as [_ Hids]. rewrite Hids in Hf by done. done.
  - intros [Hne Hnin]. split; [done|].
    destruct (default false (ids !! resourceID x)) eqn:E; [|done].
    destruct Hids as [Hids _]. destruct (Hids eq_refl). done.
Qed.

(** Deleting shrinks the set of objects. *)
Lemma client_Delete_objects c obj err c' :
  client_Delete c obj = (err, c') ->
  match err with
  | None => objects c' = filter (fun o => sameObject obj o = false \/ objFinalizers o <> [])
                                (objects c)
  | Some _ => c' = c
  end.
Proof.
  unfold client_Delete. destruct (deleteErr c obj); [by intros [= <- <-]|].
  destruct (existsb _ _); by intros [= <- <-].
Qed.

Lemma deleteResources_ok c stale c' :
  deleteResources c stale = (None, c') ->
  forall o, o ∈ objects c' ->
    o ∈ objects c
    /\ forall s, s ∈ stale -> sameObject s o = true -> objFinalizers o <> [].
Proof.
  revert c. induction stale as [|s l IH]; intros c; simpl.
  - intros [= <-] o Ho. split; [done|]. intros s Hs. by apply elem_of_nil in Hs.
  - destruct (client_Delete c s) as [[e|] c1] eqn:E; [done|].
    intros Hrest o Ho. apply client_Delete_objects in E.
    destruct (IH _ Hrest o Ho) as [Ho1 Hl].
    rewrite E in Ho1. apply list_elem_of_filter in Ho1 as [Hkeep Hoc].
    split; [done|]. intros s' Hs' Hsame.
    apply elem_of_cons in Hs' as [->|Hs']; [|by eapply Hl].
    destruct Hkeep as [Hf|?]; [congruence|done].
Qed.

Lemma deleteResources_err c stale e c' :
  deleteResources c stale = (Some e, c') ->
  exists pre s post e0,
    stale = pre ++ s :: post
    /\ deleteResources c pre = (None, c')
    /\ client_Delete c' s = (Some e0, c').
Proof.
  revert c. induction stale as [|s l IH]; intros c; simpl; [done|].
  destruct (client_Delete c s) as [[e1|] c1] eqn:E.
  - intros [= <- <-]. pose proof (client_Delete_objects _ _ _ _ E) as ->.
    exists [], s, l, e1. done.
  - intros Hrest. destruct (IH _ Hrest) as (pre & s' & post & e0 & -> & Hpre & Hs').
    exists (s :: pre), s', post, e0. split; [done|]. split; [|done].
    simpl. by rewrite E.
Qed.
End StaleSet.

Section Phases.
Context `{LabelKeys} `{Externals}.

Lemma ensureFinalizer_present c r :
  DeletionTimestamp r = None ->
  ContainsFinalizer r DataPlaneCleanupFinalizer = true ->
  ensureFinalizer c r = ((false, None), r, c).
Proof.
  intros Hd Hf. unfold ensureFinalizer, AddFinalizer. by rewrite Hd, Hf.
Qed.

(** What a steady-state pass that ends without error went through. *)
Lemma Reconcile_steady_inv w key r res w' :
  cp_Get (cp w) key = Ok r ->
  DeletionTimestamp r = None ->
  ContainsFinalizer r DataPlaneCleanupFinalizer = true ->
  Reconcile w key = ((res, None), w') ->
  exists desired d1 d2 live d3 updated r' c',
    makeDesiredResources r = Ok desired
    /\ ensureNamespaces (dp w) (makeDesiredNamespaces r desired) = (None, d1)
    /\ applyResources d1 desired = (None, d2)
    /\ listLiveResourcesByGVKs d2 r
         (findAllKnownGVKs desired (StatusResources (Status r))) = Ok live
    /\ deleteResources d2 (findStaleResources live desired) = (None, d3)
    /\ updateStatus (cp w) r r desired live = ((updated, None), r', c')
    /\ w' = {| cp := c'; dp := d3 |}
    /\ res = (if updated then Result_empty
              else if hasTransitioningResources (StatusResources (Status r'))
                   then {| RequeueAfter := getProgressingRequeueInterval r' |}
                   else {| RequeueAfter := getStableRequeueInterval r' |}).
Proof.
  intros Hget Hd Hf. unfold Reconcile. rewrite Hget, Hd.
  rewrite (ensureFinalizer_present _ _ Hd Hf).
  destruct w as [c d]. cbn [cp dp withCP withDP].
  destruct (getDPClient _ _ _); [|done].
  destruct (makeDesiredResources r) as [desired|] eqn:Hm; [|done].
  destruct (ensureNamespaces _ _) as [[?|] d1] eqn:Hn; [done|].
  destruct (applyResources _ _) as [[?|] d2] eqn:Ha; [done|].
  destruct (listLiveResourcesByGVKs _ _ _) as [live|] eqn:Hl; [|done].
  destruct (deleteResources _ _) as [[?|] d3] eqn:Hdel; [done|].
  destruct (updateStatus _ _ _ _ _) as [[[updated [?|]] r'] c'] eqn:Hu; [by destruct updated|].
  intros Hres. exists desired, d1, d2, live, d3, updated, r', c'.
  repeat (split; [done|]).
  destruct updated.
  - by injection Hres as <- <-.
  - destruct (hasTransitioningResources _); injection Hres as <- <-; done.
Qed.
End Phases.

Section Finalize.
Context `{LabelKeys} `{Externals}.

Lemma listLiveResourcesByGVKs_from_spec c r gvks acc :
  listLiveResourcesByGVKs_from c r gvks acc =
  match gvks, LabelSelectorCheck (releaseSelector r) with
  | _ :: _, Some err => Err (ErrWrap "failed to create label selector" err)
  | _, _ =>
      Ok (acc ++ flat_map (fun gvk =>
                   match client_List c (listGVK gvk) (releaseSelector r) with
                   | Ok items => items
                   | Err _ => []
                   end) gvks)
  end.
Proof.
  revert acc. induction gvks as [|g l IH]; intros acc; simpl.
  - by rewrite app_nil_r.
  - destruct (LabelSelectorCheck (releaseSelector r)) as [e|] eqn:E; [done|].
    destruct (client_List c (listGVK g) (releaseSelector r)) as [items|e];
      rewrite IH; destruct l; simpl; by rewrite ?app_nil_r, ?app_assoc.
Qed.

Lemma listLiveResourcesByGVKs_spec c r gvks :
  listLiveResourcesByGVKs c r gvks =
  match gvks, LabelSelectorCheck (releaseSelector r) with
  | _ :: _, Some err => Err (ErrWrap "failed to create label selector" err)
  | _, _ =>
      Ok (flat_map (fun gvk =>
                      match client_List c (listGVK gvk) (releaseSelector r) with
                      | Ok items => items
                      | Err _ => []
                      end) gvks)
  end.
Proof. unfold listLiveResourcesByGVKs. by rewrite listLiveResourcesByGVKs_from_spec. Qed.

Lemma SetStatusCondition_unchanged cs n :
  (SetStatusCondition cs n).2 = false -> (SetStatusCondition cs n).1 = cs.
Proof.
  induction cs as [|c cs IH]; simpl; [done|].
  case_decide as Ht.
  - simpl. unfold conditionChanged. rewrite negb_false_iff, bool_decide_eq_true.
    intros (?&?&?&?). f_equal. destruct c, n; unfold mergeCondition; simpl in *. congruence.
  - destruct (SetStatusCondition cs n) as [rest ch]. simpl in *.
    intros ->. by rewrite IH.
Qed.

Lemma withConditions_id r : withConditions r (Conditions (Status r)) = r.
Proof. by destruct r as [? ? ? ? ? ? ? []]. Qed.

Lemma RemoveFinalizer_present r f :
  f ∈ Finalizers r ->
  RemoveFinalizer r f = (withFinalizers r (filter (fun g => g <> f) (Finalizers r)), true).
Proof.
  intros Hin. unfold RemoveFinalizer. f_equal.
  rewrite negb_true_iff, bool_decide_eq_false. intros Hlen.
  pose proof (length_filter_lt (fun g => g <> f) (Finalizers r) f Hin) as Hlt.
  assert (~ f <> f) as Hnn by (by intros Hn). specialize (Hlt Hnn). lia.
Qed.

(** Status writes leave the finalizers of every stored Release alone. *)
Lemma cp_StatusUpdate_hasFinalizer c r e c' key :
  cp_StatusUpdate c r = (e, c') -> (hasFinalizer c' key <-> hasFinalizer c key).
Proof.
  unfold cp_StatusUpdate. destruct (cpStatusUpdateErr c r); [by intros [= <- <-]|].
  destruct (cpReleases c !! releaseKey r) as [stored|] eqn:E; [|by intros [= <- <-]].
  intros [= <- <-]. unfold hasFinalizer. simpl.
  destruct (decide (releaseKey r = key)) as [<-|Hne].
  - rewrite lookup_insert_eq, E. split; intros (x & [= <-] & Hx); eauto.
  - by rewrite lookup_insert_ne.
Qed.

Lemma UpdateStatusConditions_hasFinalizer c old r e c' key :
  UpdateStatusConditions c old r = (e, c') -> (hasFinalizer c' key <-> hasFinalizer c key).
Proof.
  unfold UpdateStatusConditions. case_decide; [by intros [= <- <-]|].
  apply cp_StatusUpdate_hasFinalizer.
Qed.

Lemma cleanupFailed_hasFinalizer w old r msg err key :
  hasFinalizer (cp (cleanupFailed w old r msg err).2) key <-> hasFinalizer (cp w) key.
Proof.
  unfold cleanupFailed.
  destruct (UpdateStatusConditions _ _ _) as [[e|] c'] eqn:E; simpl;
    by eapply UpdateStatusConditions_hasFinalizer.
Qed.

(** The finalizer is present, the finalizing condition is recorded and the
    client resolves: what [finalize] does from the listing on. *)
Lemma finalize_from_listing w old r cl :
  ContainsFinalizer r DataPlaneCleanupFinalizer = true ->
  (SetStatusCondition (Conditions (Status r))
     (NewReleaseFinalizingCondition (Generation r))).2 = false ->
  getDPClient w (Namespace_ r) (EnvironmentName (Spec r)) = Ok cl ->
  finalize w old r =
    match listLiveResourcesByGVKs (dp w) r
            (findAllKnownGVKs [] (StatusResources (Status r))) with
    | Err err => cleanupFailed w old r "failed to list live resources for cleanup" err
    | Ok liveResources =>
        match deleteResources (dp w) liveResources with
        | (Some err, d') =>
            cleanupFailed (withDP w d') old r
              "failed to delete resources during finalization" err
        | (None, d') =>
            if (0 <? length liveResources)%nat
            then (({| RequeueAfter := 5 * Second |}, None), withDP w d')
            else
              match cp_Update (cp w)
                      (withFinalizers r (filter (fun g => g <> DataPlaneCleanupFinalizer)
                                                (Finalizers r))) with
              | (Some err, c') => ((Result_empty, Some err), withCP (withDP w d') c')
              | (None, c') => ((Result_empty, None), withCP (withDP w d') c')
              end
        end
    end.
Proof.
  intros Hf Hc Hcl. unfold finalize. rewrite Hf. simpl negb. cbv iota.
  pose proof (SetStatusCondition_unchanged _ _ Hc) as Hcs.
  destruct (SetStatusCondition _ _) as [cs ch]. simpl in Hc, Hcs. subst ch cs.
  rewrite withConditions_id, Hcl.
  destruct (listLiveResourcesByGVKs _ _ _) as [live|]; [|done].
  destruct (deleteResources _ _) as [[e|] d']; [done|].
  destruct (0 <? length live)%nat; [done|].
  rewrite RemoveFinalizer_present; [done|].
  unfold ContainsFinalizer in Hf. by apply bool_decide_eq_true in Hf.
Qed.
End Finalize.

Section FinalizeIff.
Context `{LabelKeys} `{Externals}.

Lemma cp_Get_Ok c key r :
  cp_Get c key = Ok r -> cpReleases c !! key = Some r.
Proof.
  unfold cp_Get. destruct (cpGetErr c); [done|].
  destruct (cpReleases c !! key); [|done]. by intros [= ->].
Qed.

Lemma Reconcile_finalizing w key r :
  cp_Get (cp w) key = Ok r -> DeletionTimestamp r <> None ->
  Reconcile w key = finalize w r r.
Proof.
  intros Hget Hd. unfold Reconcile. rewrite Hget.
  by destruct (DeletionTimestamp r).
Qed.

Lemma cp_Update_drops_finalizer c r c' key :
  cpReleases c !! key = Some r -> releaseKey r = key ->
  cp_Update c (withFinalizers r (filter (fun g => g <> DataPlaneCleanupFinalizer)
                                        (Finalizers r))) = (None, c') ->
  ~ hasFinalizer c' key.
Proof.
  intros Hlook Hkey. unfold cp_Update.
  destruct (cpUpdateErr c _); [done|].
  change (releaseKey (withFinalizers r _)) with (releaseKey r).
  rewrite Hkey, Hlook. cbn [Finalizers withFinalizers].
  set (fs := filter _ _).
  assert (Hfs : DataPlaneCleanupFinalizer ∉ fs).
  { unfold fs. rewrite list_elem_of_filter. by intros [Hne _]. }
  intros Hc' (x & Hx & Hin).
  destruct (DeletionTimestamp r), fs; injection Hc' as <-; simpl in Hx;
    first [ by rewrite lookup_delete_eq in Hx
          | rewrite lookup_insert_eq in Hx; injection Hx as <-; simpl in Hin; done ].
Qed.

Lemma cp_Update_failed c r e c' : cp_Update c r = (Some e, c') -> c' = c.
Proof.
  unfold cp_Update. destruct (cpUpdateErr c r); [by intros [= _ <-]|].
  destruct (cpReleases c !! releaseKey r); [|by intros [= _ <-]].
  by destruct (DeletionTimestamp _), (Finalizers r).
Qed.

Lemma cp_Update_error c r :
  cpReleases c !! releaseKey r <> None ->
  (cp_Update c r).1 = cpUpdateErr c r.
Proof.
  intros Hl. unfold cp_Update. destruct (cpUpdateErr c r); [done|].
  destruct (cpReleases c !! releaseKey r); [|done].
  by destruct (DeletionTimestamp _), (Finalizers r).
Qed.

(** When exactly a finalization pass removes the finalizer. *)
Lemma finalize_removes_iff w key r :
  cp_Get (cp w) key = Ok r -> releaseKey r = key ->
  finalizerRemoved w (finalize w r r).2 key
  <-> ContainsFinalizer r DataPlaneCleanupFinalizer = true
      /\ (SetStatusCondition (Conditions (Status r))
            (NewReleaseFinalizingCondition (Generation r))).2 = false
      /\ isOk (getDPClient w (Namespace_ r) (EnvironmentName (Spec r))) = true
      /\ listLiveResourcesByGVKs (dp w) r
           (findAllKnownGVKs [] (StatusResources (Status r))) = Ok []
      /\ cpUpdateErr (cp w)
           (withFinalizers r (filter (fun g => g <> DataPlaneCleanupFinalizer)
                                     (Finalizers r))) = None.
Proof.
  intros Hget Hkey. apply cp_Get_Ok in Hget.
  assert (Hhas : hasFinalizer (cp w) key
                 <-> ContainsFinalizer r DataPlaneCleanupFinalizer = true).
  { unfold hasFinalizer, ContainsFinalizer. rewrite bool_decide_eq_true. split.
    - intros (x & Hx & Hin). congruence.
    - intros Hin. eauto. }
  unfold finalizerRemoved. rewrite Hhas.
  destruct (ContainsFinalizer r DataPlaneCleanupFinalizer) eqn:Hf; [|by split; intros [? ?]].
  destruct (SetStatusCondition (Conditions (Status r))
              (NewReleaseFinalizingCondition (Generation r))).2 eqn:Hc.
  { (* the pass only records the finalizing condition *)
    split; [|by intros (_ & ? & _)]. intros [_ Hrem]. exfalso. apply Hrem.
    unfold finalize. rewrite Hf. simpl negb. cbv iota.
    destruct (SetStatusCondition _ _) as [cs ch]. simpl in Hc. subst ch.
    destruct (UpdateStatusConditions _ _ _) as [[e|] c'] eqn:E; simpl;
      (eapply UpdateStatusConditions_hasFinalizer; [exact E|]); by apply Hhas. }
  destruct (getDPClient w (Namespace_ r) (EnvironmentName (Spec r))) as [cl|e] eqn:Hcl.
  2: { split; [|by intros (_ & _ & ? & _)]. intros [_ Hrem]. exfalso. apply Hrem.
       unfold finalize. rewrite Hf. simpl negb. cbv iota.
       pose proof (SetStatusCondition_unchanged _ _ Hc) as Hcs.
       destruct (SetStatusCondition _ _) as [cs ch]. simpl in Hc, Hcs. subst ch cs.
       rewrite withConditions_id, Hcl.
       apply cleanupFailed_hasFinalizer. by apply Hhas. }
  rewrite (finalize_from_listing w r r cl Hf Hc Hcl).
  destruct (listLiveResourcesByGVKs _ _ _) as [live|e] eqn:Hl.
  2: { split; [|by intros (_ & _ & _ & ? & _)]. intros [_ Hrem]. exfalso. apply Hrem.
       apply cleanupFailed_hasFinalizer. by apply Hhas. }
  destruct live as [|o live].
  2: { split; [|by intros (_ & _ & _ & ? & _)]. intros [_ Hrem]. exfalso. apply Hrem.
       destruct (deleteResources _ _) as [[e|] d'].
       - apply cleanupFailed_hasFinalizer. by apply Hhas.
       - simpl. by apply Hhas. }
  cbn [deleteResources length Nat.ltb Nat.leb].
  destruct (cp_Update _ _) as [[e|] c'] eqn:Hu.
  - pose proof (cp_Update_failed _ _ _ _ Hu) as ->.
    pose proof (cp_Update_error (cp w) (withFinalizers r
                  (filter (fun g => g <> DataPlaneCleanupFinalizer) (Finalizers r)))) as He.
    rewrite Hu in He. simpl in He.
    split.
    + intros [_ Hrem]. exfalso. apply Hrem. simpl. by apply Hhas.
    + intros (_ & _ & _ & _ & Hnone). rewrite <- He in Hnone; [done|].
      change (releaseKey (withFinalizers r _)) with (releaseKey r). by rewrite Hkey, Hget.
  - pose proof (cp_Update_error (cp w) (withFinalizers r
                  (filter (fun g => g <> DataPlaneCleanupFinalizer) (Finalizers r)))) as He.
    rewrite Hu in He. simpl in He.
    split.
    + intros _. repeat (split; [done|]). symmetry. apply He.
      change (releaseKey (withFinalizers r _)) with (releaseKey r). by rewrite Hkey, Hget.
    + intros _. split; [done|]. simpl. by eapply cp_Update_drops_finalizer.
Qed.
End FinalizeIff.

Section Jitter.
#[local] Open Scope Z_scope.




End Jitter.

Section ReleaseTheorems.
Context `{LabelKeys} `{Externals}.

(** C3 (as amended).  The stale set is the live resources with a non-empty
    resource-ID label that no desired document carries.  [deleteResources]
    deletes them in order and stops at the first delete call that fails;
    when none fails every stale resource is gone from the cluster, or, if
    it has finalizers of its own, is left for them to clear.  A
    steady-state pass that ends without error has deleted its stale set in
    this sense. *)
Theorem stale_set_is_filtered_and_deleted (live desired : list Unstructured) :
  findStaleResources live desired
  = filter (fun l => resourceID l <> "" /\ resourceID l ∉ resourceID <$> desired) live
  /\ (forall c : Cluster,
        match deleteResources c (findStaleResources live desired) with
        | (None, c') =>
            forall s o, s ∈ findStaleResources live desired -> o ∈ objects c' ->
                        sameObject s o = true -> objFinalizers o <> []
        | (Some _, c') =>
            exists pre s post e0,
              findStaleResources live desired = pre ++ s :: post
              /\ deleteResources c pre = (None, c')
              /\ client_Delete c' s = (Some e0, c')
        end)
  /\ (forall w key r res w',
        cp_Get (cp w) key = Ok r ->
        DeletionTimestamp r = None ->
        ContainsFinalizer r DataPlaneCleanupFinalizer = true ->
        Reconcile w key = ((res, None), w') ->
        exists desired' d1 d2 live',
          makeDesiredResources r = Ok desired'
          /\ ensureNamespaces (dp w) (makeDesiredNamespaces r desired') = (None, d1)
          /\ applyResources d1 desired' = (None, d2)
          /\ listLiveResourcesByGVKs d2 r
               (findAllKnownGVKs desired' (StatusResources (Status r))) = Ok live'
          /\ forall s o, s ∈ findStaleResources live' desired' -> o ∈ objects (dp w') ->
                         sameObject s o = true -> objFinalizers o <> []).
Proof.
  split; [apply findStaleResources_filter|]. split.
  - intros c. destruct (deleteResources c _) as [[e|] c'] eqn:E.
    + by eapply deleteResources_err.
    + intros s o Hs Ho. by eapply (deleteResources_ok _ _ _ E).
  - intros w key r res w' Hget Hd Hf Hrec.
    destruct (Reconcile_steady_inv _ _ _ _ _ Hget Hd Hf Hrec)
      as (des & d1 & d2 & lv & d3 & upd & r' & c' & Hm & Hns & Hap & Hls & Hdel & _ & -> & _).
    exists des, d1, d2, lv. repeat (split; [done|]). intros s o Hs Ho. simpl in Ho.
    by eapply (deleteResources_ok _ _ _ Hdel).
Qed.

(** C5 (as amended).  A list call that fails is skipped: the listing is
    the resources of the GVKs whose list call answered, in order, and it
    is returned without error.  The one error the listing can return is a
    label selector that cannot be built; with a selector that can be
    built the listing never fails, whatever the list calls answer. *)
Theorem listing_skips_failed_list_calls (c : Cluster) (r : Release)
    (gvks : list GroupVersionKind) :
  listLiveResourcesByGVKs c r gvks =
  match gvks, LabelSelectorCheck (releaseSelector r) with
  | _ :: _, Some err => Err (ErrWrap "failed to create label selector" err)
  | _, _ =>
      Ok (flat_map (fun gvk =>
                      match client_List c (listGVK gvk) (releaseSelector r) with
                      | Ok items => items
                      | Err _ => []
                      end) gvks)
  end
  /\ (LabelSelectorCheck (releaseSelector r) = None ->
      isOk (listLiveResourcesByGVKs c r gvks) = true).
Proof.
  assert (Hacc : forall acc,
    LabelSelectorCheck (releaseSelector r) = None ->
    listLiveResourcesByGVKs_from c r gvks acc =
    Ok (acc ++ flat_map (fun gvk =>
                 match client_List c (listGVK gvk) (releaseSelector r) with
                 | Ok items => items
                 | Err _ => []
                 end) gvks)).
  { induction gvks as [|g l IH]; intros acc Hsel; simpl.
    - by rewrite app_nil_r.
    - rewrite Hsel. destruct (client_List c (listGVK g) (releaseSelector r)) as [items|e].
      + rewrite IH by done. by rewrite app_assoc.
      + by rewrite IH. }
  unfold listLiveResourcesByGVKs.
  destruct (LabelSelectorCheck (releaseSelector r)) as [err|] eqn:Hsel.
  - split; [|done]. destruct gvks; simpl; [done|]. by rewrite Hsel.
  - rewrite Hacc by done. split; [|done]. by destruct gvks.
Qed.

(** C2 (as amended).  A finalization pass removes the cleanup finalizer
    exactly when the finalizer is there, the finalizing condition was
    recorded before, the cluster client resolves, the listing of this pass
    is empty and the update that drops the finalizer is accepted.  The
    listing covers the probed GVKs only, and skips a GVK whose list call
    fails: at removal, no object of a probed kind whose list call answered
    matches the selector of the Release, and the pass deleted nothing. *)
Theorem finalizer_removed_iff_listing_empty (w : World) (key : string * string)
    (r : Release) :
  cp_Get (cp w) key = Ok r ->
  releaseKey r = key ->
  DeletionTimestamp r <> None ->
  let w' := (Reconcile w key).2 in
  let gvks := findAllKnownGVKs [] (StatusResources (Status r)) in
  (finalizerRemoved w w' key
   <-> ContainsFinalizer r DataPlaneCleanupFinalizer = true
       /\ (SetStatusCondition (Conditions (Status r))
             (NewReleaseFinalizingCondition (Generation r))).2 = false
       /\ isOk (getDPClient w (Namespace_ r) (EnvironmentName (Spec r))) = true
       /\ listLiveResourcesByGVKs (dp w) r gvks = Ok []
       /\ cpUpdateErr (cp w)
            (withFinalizers r (filter (fun g => g <> DataPlaneCleanupFinalizer)
                                      (Finalizers r))) = None)
  /\ (finalizerRemoved w w' key ->
      dp w' = dp w
      /\ forall gvk o,
           gvk ∈ gvks -> listErr (dp w) (listGVK gvk) = None ->
           o ∈ objects (dp w') -> objGVK o = gvk ->
           matchLabels (releaseSelector r) (objLabels o) = false).
Proof.
  intros Hget Hkey Hd w' gvks. subst w' gvks.
  rewrite (Reconcile_finalizing _ _ _ Hget Hd).
  pose proof (finalize_removes_iff w key r Hget Hkey) as Hiff.
  split; [exact Hiff|].
  intros Hrem. apply Hiff in Hrem as (Hf & Hc & Hcl & Hl & Hu).
  destruct (getDPClient w _ _) as [cl|] eqn:Ecl; [|done].
  rewrite (finalize_from_listing w r r cl Hf Hc Ecl).
  rewrite Hl. cbn [deleteResources length Nat.ltb Nat.leb].
  clear Hiff. rewrite listLiveResourcesByGVKs_spec in Hl.
  revert Hl. generalize (findAllKnownGVKs [] (StatusResources (Status r))).
  intros gvks Hl.
  assert (Hobj : forall gvk o,
            gvk ∈ gvks -> listErr (dp w) (listGVK gvk) = None ->
            o ∈ objects (dp w) -> objGVK o = gvk ->
            matchLabels (releaseSelector r) (objLabels o) = false).
  { intros gvk o Hg Herr Ho Hgvk.
    assert (Hflat : flat_map (fun gvk =>
                     match client_List (dp w) (listGVK gvk) (releaseSelector r) with
                     | Ok items => items
                     | Err _ => []
                     end) gvks = []).
    { revert Hl. destruct gvks; [done|].
      destruct (LabelSelectorCheck (releaseSelector r)); [done|]. intros Hx. by injection Hx. }
    destruct (matchLabels (releaseSelector r) (objLabels o)) eqn:Hm; [exfalso|done].
    assert (Hin : o ∈ flat_map (fun gvk =>
                     match client_List (dp w) (listGVK gvk) (releaseSelector r) with
                     | Ok items => items
                     | Err _ => []
                     end) gvks).
    { apply list_elem_of_In, in_flat_map. exists gvk. split; [by apply list_elem_of_In|].
      unfold client_List. rewrite Herr. apply list_elem_of_In, list_elem_of_filter.
      split; [|done]. split; [by rewrite Hgvk|done]. }
    rewrite Hflat in Hin. by apply elem_of_nil in Hin. }
  by destruct (cp_Update _ _) as [[?|] ?]; simpl.
Qed.

(** C10.  A finalization pass whose listing is not empty does not remove
    the finalizer; when every delete call succeeds it asks to be run again
    after five seconds.  A pass that removes the finalizer is one whose
    listing was empty. *)
Theorem nonempty_listing_keeps_finalizer (w : World) (key : string * string)
    (r : Release) (live : list Unstructured) :
  cp_Get (cp w) key = Ok r ->
  releaseKey r = key ->
  DeletionTimestamp r <> None ->
  listLiveResourcesByGVKs (dp w) r
    (findAllKnownGVKs [] (StatusResources (Status r))) = Ok live ->
  live <> [] ->
  ~ finalizerRemoved w (Reconcile w key).2 key
  /\ (ContainsFinalizer r DataPlaneCleanupFinalizer = true ->
      (SetStatusCondition (Conditions (Status r))
         (NewReleaseFinalizingCondition (Generation r))).2 = false ->
      isOk (getDPClient w (Namespace_ r) (EnvironmentName (Spec r))) = true ->
      forall d', deleteResources (dp w) live = (None, d') ->
        Reconcile w key = (({| RequeueAfter := 5 * Second |}, None), withDP w d'))
  /\ (forall w2 r2,
        cp_Get (cp w2) key = Ok r2 -> releaseKey r2 = key ->
        DeletionTimestamp r2 <> None ->
        finalizerRemoved w2 (Reconcile w2 key).2 key ->
        listLiveResourcesByGVKs (dp w2) r2
          (findAllKnownGVKs [] (StatusResources (Status r2))) = Ok []).
Proof.
  intros Hget Hkey Hd Hl Hne. split; [|split].
  - rewrite (Reconcile_finalizing _ _ _ Hget Hd).
    rewrite (finalize_removes_iff w key r Hget Hkey). intros (_ & _ & _ & Hl' & _).
    rewrite Hl in Hl'. by injection Hl'.
  - intros Hf Hc Hcl d' Hdel.
    rewrite (Reconcile_finalizing _ _ _ Hget Hd).
    destruct (getDPClient w _ _) as [cl|] eqn:Ecl; [|done].
    rewrite (finalize_from_listing w r r cl Hf Hc Ecl), Hl, Hdel.
    by destruct live.
  - intros w2 r2 Hget2 Hkey2 Hd2.
    rewrite (Reconcile_finalizing _ _ _ Hget2 Hd2).
    rewrite (finalize_removes_iff w2 key r2 Hget2 Hkey2). by intros (_ & _ & _ & ? & _).
Qed.

End ReleaseTheorems.

Section Requeue.
Context `{LabelKeys} `{Externals}.
#[local] Open Scope Z_scope.















End Requeue.

Section ContextTheorems.
Context `{context.Externals}.

Lemma deepMerge_lookup base override k :
  deepMerge base override !! k =
  match base !! k, override !! k with
  | Some e, Some v => Some (mergeValue e v)
  | Some e, None => Some e
  | None, Some v => Some v
  | None, None => None
  end.
Proof.
  unfold deepMerge. rewrite lookup_union_with.
  by destruct (base !! k), (override !! k).
Qed.

Lemma deepMerge_empty_r base : deepMerge base ∅ = base.
Proof.
  apply map_eq. intros k. rewrite deepMerge_lookup, lookup_empty.
  by destruct (base !! k).
Qed.






Lemma mergeEnvOverrides_spec i params :
  context.mergeEnvOverrides i params =
  match instanceOverrides i with
  | Ok overrides => Ok (deepMerge params overrides)
  | Err err => Err (ErrWrap "failed to extract trait environment overrides" err)
  end.
Proof.
  unfold context.mergeEnvOverrides, instanceOverrides.
  destruct (context.ComponentDeployment i) as [dep|]; [|by rewrite deepMerge_empty_r].
  destruct (v1alpha1.TraitOverrides dep) as [ovs|]; [|by rewrite deepMerge_empty_r].
  destruct (ovs !! _); [|by rewrite deepMerge_empty_r].
  by destruct (context.extractParametersFromRawExtension _).
Qed.


(** What a successful call has decoded and put under ["parameters"]. *)
Lemma BuildTraitContext_inv input ctx :
  (context.BuildTraitContext input).1 = Ok ctx ->
  exists i trait component structural params overrides,
    input = Some i
    /\ context.Trait i = Some trait
    /\ context.Component i = Some component
    /\ context.Name (context.Metadata i) <> ""
    /\ context.Namespace (context.Metadata i) <> ""
    /\ (context.structuralSchemaFor i trait).1 = Ok structural
    /\ context.extractParameters (v1alpha1.InstanceParameters (context.Instance i))
       = Ok params
    /\ instanceOverrides i = Ok overrides.
Proof.
  unfold context.BuildTraitContext. destruct input as [i|]; [|done].
  destruct (context.Trait i) as [trait|] eqn:Et; [|done].
  destruct (context.Component i) as [component|] eqn:Ec; [|done].
  case_decide as Hn; [done|]. case_decide as Hns; [done|].
  destruct (context.structuralSchemaFor i trait) as [[structural|] cache] eqn:Es; [|done].
  destruct (context.extractParameters _) as [params|] eqn:Ep; [|done].
  rewrite mergeEnvOverrides_spec.
  destruct (instanceOverrides i) as [overrides|] eqn:Eo; [|done].
  intros _. exists i, trait, component, structural, params, overrides.
  by rewrite Es.
Qed.

(** C7.  [BuildTraitContext] answers with an error, and so with no
    context, when the input, the trait or the component is nil or the
    metadata name or namespace is empty; a call that answers with a
    context had all of them. *)
Theorem BuildTraitContext_needs_its_inputs (input : option context.TraitContextInput) :
  ((input = None
    \/ exists i, input = Some i
         /\ (context.Trait i = None \/ context.Component i = None
             \/ context.Name (context.Metadata i) = ""
             \/ context.Namespace (context.Metadata i) = "")) ->
   exists e, (context.BuildTraitContext input).1 = Err e)
  /\ (forall ctx, (context.BuildTraitContext input).1 = Ok ctx ->
        exists i trait component,
          input = Some i
          /\ context.Trait i = Some trait
          /\ context.Component i = Some component
          /\ context.Name (context.Metadata i) <> ""
          /\ context.Namespace (context.Metadata i) <> "").
Proof.
  split.
  - intros [->|(i & -> & Hmiss)]; [by eexists|].
    unfold context.BuildTraitContext.
    destruct (context.Trait i); [|by eexists].
    destruct (context.Component i); [|by eexists].
    case_decide; [by eexists|]. case_decide; [by eexists|].
    by destruct Hmiss as [?|[?|[?|?]]].
  - intros ctx Hctx.
    destruct (BuildTraitContext_inv _ _ Hctx)
      as (i & t & c & _ & _ & _ & ? & ? & ? & ? & ? & _).
    by exists i, t, c.
Qed.


End ContextTheorems.

Section PipelineTheorems.




End PipelineTheorems.

(* ================================================================== *)
(** * Part IV: the statements at the concrete world                    *)
(* ================================================================== *)



(** C2, counterexample.  The list call for ConfigMaps fails, the listing
    comes back empty, the finalizer is removed and the Release is gone,
    while its ConfigMap is still on the cluster with the UID label. *)
Lemma finalizer_removed_with_resource_left :
  let w := Fixture.finalizingWorld in
  let w' := (@Reconcile Fixture.keys Fixture.externals w Fixture.key).2 in
  finalizerRemoved w w' Fixture.key
  /\ @ownedBy Fixture.keys Fixture.deleting (dp w') = [Fixture.liveConfig]
  /\ ~ (finalizerRemoved w w' Fixture.key
        <-> @ownedBy Fixture.keys Fixture.deleting (dp w') = []).
Proof.
  assert (Hrem : finalizerRemoved Fixture.finalizingWorld
            (@Reconcile Fixture.keys Fixture.externals Fixture.finalizingWorld
               Fixture.key).2 Fixture.key).
  { split.
    - exists Fixture.deleting. split; [by vm_compute|]. left.
    - intros (x & Hx & _). vm_compute in Hx. discriminate Hx. }
  assert (Hown : @ownedBy Fixture.keys Fixture.deleting
            (dp (@Reconcile Fixture.keys Fixture.externals Fixture.finalizingWorld
                   Fixture.key).2) = [Fixture.liveConfig]).
  { by vm_compute. }
  split; [exact Hrem|]. split; [exact Hown|].
  intros [Hiff _]. specialize (Hiff Hrem). rewrite Hown in Hiff. discriminate Hiff.
Qed.

(** C2, witness: on a cluster that holds nothing of the Release, the pass
    removes the finalizer. *)
Lemma finalizer_removed_iff_listing_empty_witness :
  finalizerRemoved Fixture.cleanFinalizingWorld
    (@Reconcile Fixture.keys Fixture.externals Fixture.cleanFinalizingWorld
       Fixture.key).2 Fixture.key.
Proof.
  apply (proj1 (@finalizer_removed_iff_listing_empty Fixture.keys Fixture.externals
                  Fixture.cleanFinalizingWorld Fixture.key Fixture.deleting
                  ltac:(vm_compute; reflexivity) ltac:(reflexivity)
                  ltac:(discriminate))).
  repeat split; vm_compute; reflexivity.
Defined.

(** C3, counterexample.  A ConfigMap applied for an entry with an empty
    ID is found by the discovery; once the entry is gone its resource-ID
    label is in no desired set, and yet it is not in the stale set.  And
    when the delete call for the first stale resource fails, the second
    one is still on the cluster at the end of the pass. *)
Lemma empty_id_resource_is_never_stale :
  (@listLiveResourcesByGVKs Fixture.keys Fixture.externals
     (Fixture.healthyCluster [Fixture.anonymous]) Fixture.release [Fixture.configMapGVK]
   = Ok [Fixture.anonymous]
   /\ objLabels Fixture.anonymous !! "openchoreo.dev/release-resource-id" = Some ""
   /\ @findStaleResources Fixture.keys [Fixture.anonymous] [] = []
   /\ @findStaleResources Fixture.keys [Fixture.anonymous] []
      <> filter (fun l => @resourceID Fixture.keys l
                          ∉ @resourceID Fixture.keys <$> ([] : list Unstructured))
                [Fixture.anonymous])
  /\ (@findStaleResources Fixture.keys (objects Fixture.stubbornCluster)
        [Fixture.liveConfig] = [Fixture.orphan; Fixture.orphanMap]
      /\ exists err c',
           @deleteResources Fixture.keys Fixture.stubbornCluster
             [Fixture.orphan; Fixture.orphanMap] = (Some err, c')
           /\ Fixture.orphanMap ∈ objects c').
Proof.
  split.
  - split; [by vm_compute|]. split; [by vm_compute|]. split; by vm_compute.
  - split; [by vm_compute|]. eexists _, _. split; [by vm_compute|].
    right. right. left.
Qed.

(** C3, witness: with the ConfigMap desired and an old Secret live, the
    stale set is the Secret. *)
Lemma stale_set_is_filtered_and_deleted_witness :
  @findStaleResources Fixture.keys [Fixture.liveConfig; Fixture.orphan] [Fixture.liveConfig]
  = [Fixture.orphan].
Proof.
  rewrite (proj1 (@stale_set_is_filtered_and_deleted Fixture.keys Fixture.externals
                    [Fixture.liveConfig; Fixture.orphan] [Fixture.liveConfig])).
  vm_compute. reflexivity.
Defined.

(** C5, counterexample.  The ConfigMap kind is probed, its list call
    fails, and the pass ends without error, asking to be run again after
    the stable delay. *)
Lemma reconcile_succeeds_when_list_call_fails :
  Fixture.configMapGVK
    ∈ findAllKnownGVKs [Fixture.liveConfig] (StatusResources (Status Fixture.release))
  /\ client_List (dp Fixture.steadyWorld) (listGVK Fixture.configMapGVK)
       (@releaseSelector Fixture.keys Fixture.release) = Err Fixture.timeout
  /\ (@Reconcile Fixture.keys Fixture.externals Fixture.steadyWorld Fixture.key).1
     = ({| RequeueAfter := 359999999999 |}, None).
Proof.
  split; [by vm_compute; left|]. split; by vm_compute.
Qed.

(** C5, witness: on the cluster whose ConfigMap list call fails, the
    listing of the ConfigMap kind is empty and there is no error. *)
Lemma listing_skips_failed_list_calls_witness :
  @LabelSelectorCheck Fixture.externals (@releaseSelector Fixture.keys Fixture.release)
  = None
  /\ @listLiveResourcesByGVKs Fixture.keys Fixture.externals
       (Fixture.flakyCluster [Fixture.liveConfig]) Fixture.release [Fixture.configMapGVK]
     = Ok []
  /\ isOk (@listLiveResourcesByGVKs Fixture.keys Fixture.externals
             (Fixture.flakyCluster [Fixture.liveConfig]) Fixture.release
             [Fixture.configMapGVK]) = true.
Proof.
  split; [reflexivity|]. split.
  - rewrite (proj1 (@listing_skips_failed_list_calls Fixture.keys Fixture.externals
                      (Fixture.flakyCluster [Fixture.liveConfig]) Fixture.release
                      [Fixture.configMapGVK])).
    vm_compute. reflexivity.
  - apply (proj2 (@listing_skips_failed_list_calls Fixture.keys Fixture.externals
                    (Fixture.flakyCluster [Fixture.liveConfig]) Fixture.release
                    [Fixture.configMapGVK])).
    reflexivity.
Defined.




(** C10, witness: the ConfigMap is listed and deleted, the finalizer
    stays, and the pass asks to be run again after five seconds. *)
Lemma nonempty_listing_keeps_finalizer_witness :
  ~ finalizerRemoved Fixture.healthyFinalizingWorld
      (@Reconcile Fixture.keys Fixture.externals Fixture.healthyFinalizingWorld
         Fixture.key).2 Fixture.key
  /\ @Reconcile Fixture.keys Fixture.externals Fixture.healthyFinalizingWorld Fixture.key
     = (({| RequeueAfter := 5 * Second |}, None),
        withDP Fixture.healthyFinalizingWorld (Fixture.healthyCluster [])).
Proof.
  pose proof (@nonempty_listing_keeps_finalizer Fixture.keys Fixture.externals
                Fixture.healthyFinalizingWorld Fixture.key Fixture.deleting
                [Fixture.liveConfig]
                ltac:(vm_compute; reflexivity) ltac:(reflexivity) ltac:(discriminate)
                ltac:(vm_compute; reflexivity) ltac:(discriminate)) as (Hkeep & Hrequeue & _).
  split; [exact Hkeep|].
  apply Hrequeue; vm_compute; reflexivity.
Defined.

(** Scenario 5: after the second pass the cluster holds [b] and [c], the
    Secret [a] is deleted although no desired document is a Secret any
    more, and the inventory lists [B] and [C]. *)
Example scenario_5_stale_resource_is_collected :
  objName <$> objects (dp Fixture.afterAB) = ["a"; "b"]
  /\ objName <$> objects (dp Fixture.afterBC) = ["b"; "c"]
  /\ (fun r : Release => rsID <$> StatusResources (Status r))
       <$> cpReleases (cp Fixture.afterBC) !! Fixture.key
     = Some ["B"; "C"].
Proof. by vm_compute. Qed.

(** Scenario 6: the first pass after the deletion request records the
    finalizing condition, the second deletes [b] and [c], the third
    removes the finalizer; the Release is then not found. *)
Example scenario_6_release_is_finalized :
  objects (dp Fixture.afterDeletion) = []
  /\ cp_Get (cp Fixture.afterDeletion) Fixture.key = Err ErrNotFound.
Proof. by vm_compute. Qed.

(** The hand-written binary64 product and the Standard Library's agree on
    the samples. *)
Example jitterMax_agrees_with_ieee :
  forallb (fun b => (jitterMax b =? jitterMax_ieee b)%Z) Fixture.jitterSamples = true.
Proof. by vm_compute. Qed.

(** The three cases of [TestDeepMerge]. *)
Example deepMerge_simple_merge :
  deepMerge {[ "a" := VNumber 1; "b" := VNumber 2 ]}
            {[ "b" := VNumber 3; "c" := VNumber 4 ]}
  = {[ "a" := VNumber 1; "b" := VNumber 3; "c" := VNumber 4 ]}.
Proof. by vm_compute. Qed.

Example deepMerge_nested_merge :
  deepMerge {[ "config" := VMap {[ "replicas" := VNumber 1; "cpu" := VString "100m" ]} ]}
            {[ "config" := VMap {[ "replicas" := VNumber 3 ]} ]}
  = {[ "config" := VMap {[ "replicas" := VNumber 3; "cpu" := VString "100m" ]} ]}.
Proof. by vm_compute. Qed.

Example deepMerge_override_with_different_type :
  deepMerge {[ "value" := VString "string" ]} {[ "value" := VNumber 123 ]}
  = {[ "value" := VNumber 123 ]}.
Proof. by vm_compute. Qed.

(** The case "trait with environment overrides" of
    [TestBuildTraitContext]. *)
Example BuildTraitContext_with_environment_overrides :
  (@context.BuildTraitContext ContextFixture.externals (Some ContextFixture.input)).1
  = Ok ContextFixture.want.
Proof. by vm_compute. Qed.


(** C7, witness: the case "nil trait input" of [TestBuildTraitContext]. *)
Lemma BuildTraitContext_needs_its_inputs_witness :
  context.Trait ContextFixture.inputWithoutTrait = None
  /\ exists e,
       (@context.BuildTraitContext ContextFixture.externals
          (Some ContextFixture.inputWithoutTrait)).1 = Err e.
Proof.
  split; [reflexivity|].
  apply (proj1 (@BuildTraitContext_needs_its_inputs ContextFixture.externals
                  (Some ContextFixture.inputWithoutTrait))).
  right. exists ContextFixture.inputWithoutTrait. split; [reflexivity|].
  left. reflexivity.
Defined.


(** The stand-in passes both cases of [TestPipeline_Options]. *)
Example renderByName_passes_TestPipeline_Options :
  pipeline.TestPipeline_Options ContextFixture.renderByName.
Proof. repeat constructor; by vm_compute. Qed.


(* ================================================================== *)
(** * Part V: further properties of the code                          *)
(* ================================================================== *)

(** ** The reconciler and the data plane *)

Section DataPlaneSafety.
Context `{LabelKeys} `{Externals}.

Lemma sameObject_identity a b : sameObject a b = true <-> identity a = identity b.
Proof.
  unfold sameObject, identity. rewrite bool_decide_eq_true. split.
  - intros (-> & -> & ->). done.
  - intros [= -> -> ->]. done.
Qed.

Lemma uniqueIdentities_same objs a b :
  uniqueIdentities objs -> a ∈ objs -> b ∈ objs -> sameObject a b = true -> a = b.
Proof.
  unfold uniqueIdentities. rewrite sameObject_identity.
  induction objs as [|x l IH]; intros Hnd Ha Hb Hid; [by apply elem_of_nil in Ha|].
  rewrite fmap_cons in Hnd. apply NoDup_cons in Hnd as [Hx Hnd].
  apply elem_of_cons in Ha as [->|Ha]; apply elem_of_cons in Hb as [->|Hb]; auto.
  - exfalso. apply Hx. rewrite Hid. apply list_elem_of_fmap. eauto.
  - exfalso. apply Hx. rewrite <- Hid. apply list_elem_of_fmap. eauto.
Qed.

Lemma client_Delete_frame c obj e c' :
  client_Delete c obj = (e, c') -> c' = withObjects c (objects c').
Proof.
  unfold client_Delete. destruct (deleteErr c obj); [intros [= _ <-]; by destruct c|].
  destruct (existsb _ _); intros [= _ <-]; [done|by destruct c].
Qed.

Lemma client_Delete_removed c obj e c' o :
  client_Delete c obj = (e, c') -> o ∈ objects c -> o ∉ objects c' ->
  sameObject obj o = true /\ objFinalizers o = [].
Proof.
  intros Hd Ho Hno. apply client_Delete_objects in Hd. destruct e as [e|]; [by subst|].
  rewrite Hd, list_elem_of_filter in Hno.
  destruct (sameObject obj o) eqn:Es; [|exfalso; apply Hno; auto].
  destruct (objFinalizers o) eqn:Ef; [done|]. exfalso. apply Hno. split; [|done]. right. done.
Qed.

Lemma client_Delete_sublist c obj e c' :
  client_Delete c obj = (e, c') -> objects c' `sublist_of` objects c.
Proof.
  intros Hd. apply client_Delete_objects in Hd. destruct e; [by subst|].
  rewrite Hd. apply sublist_filter.
Qed.

Lemma deleteResources_frame c l e c' :
  deleteResources c l = (e, c') -> c' = withObjects c (objects c').
Proof.
  revert c. induction l as [|s l IH]; intros c; simpl.
  - intros [= _ <-]. by destruct c.
  - destruct (client_Delete c s) as [[e1|] c1] eqn:E.
    + intros [= _ <-]. by eapply client_Delete_frame.
    + intros Hr. apply IH in Hr. apply client_Delete_frame in E.
      rewrite Hr. rewrite E at 1. done.
Qed.

Lemma deleteResources_sublist c l e c' :
  deleteResources c l = (e, c') -> objects c' `sublist_of` objects c.
Proof.
  revert c. induction l as [|s l IH]; intros c; simpl.
  - by intros [= _ <-].
  - destruct (client_Delete c s) as [[e1|] c1] eqn:E.
    + intros [= _ <-]. by eapply client_Delete_sublist.
    + intros Hr. etrans; [by eapply IH|by eapply client_Delete_sublist].
Qed.

Lemma deleteResources_removed c l e c' o :
  deleteResources c l = (e, c') -> o ∈ objects c -> o ∉ objects c' ->
  exists s, s ∈ l /\ sameObject s o = true /\ objFinalizers o = [].
Proof.
  revert c. induction l as [|s l IH]; intros c; simpl.
  - intros [= _ <-] Ho Hno. done.
  - destruct (client_Delete c s) as [[e1|] c1] eqn:E.
    + intros [= _ <-] Ho Hno.
      destruct (client_Delete_removed _ _ _ _ _ E Ho Hno). exists s. split; [left|done].
    + intros Hr Ho Hno. destruct (decide (o ∈ objects c1)) as [Hin|Hnin].
      * destruct (IH _ Hr Hin Hno) as (s' & Hs' & Hsame). exists s'. split; [by right|done].
      * destruct (client_Delete_removed _ _ _ _ _ E Ho Hnin). exists s. split; [left|done].
Qed.

Lemma listLive_elem c r gvks live o :
  listLiveResourcesByGVKs c r gvks = Ok live -> o ∈ live ->
  o ∈ objects c /\ matchLabels (releaseSelector r) (objLabels o) = true
  /\ exists gvk, gvk ∈ gvks /\ listGVK (objGVK o) = listGVK gvk
                 /\ listErr c (listGVK gvk) = None.
Proof.
  rewrite listLiveResourcesByGVKs_spec. intros Hl Ho.
  assert (Hflat : o ∈ flat_map (fun gvk =>
                     match client_List c (listGVK gvk) (releaseSelector r) with
                     | Ok items => items
                     | Err _ => []
                     end) gvks).
  { destruct gvks; [by injection Hl as <-|].
    destruct (LabelSelectorCheck (releaseSelector r)); [done|]. by injection Hl as <-. }
  apply list_elem_of_In, in_flat_map in Hflat as (gvk & Hg & Hin).
  apply list_elem_of_In in Hg, Hin. unfold client_List in Hin.
  destruct (listErr c (listGVK gvk)) eqn:El; [by apply elem_of_nil in Hin|].
  apply list_elem_of_filter in Hin as [[Hk Hm] Hoc]. eauto 10.
Qed.

Lemma listLive_withConditions c r cs gvks :
  listLiveResourcesByGVKs c (withConditions r cs) gvks = listLiveResourcesByGVKs c r gvks.
Proof. by rewrite !listLiveResourcesByGVKs_spec. Qed.

Lemma cleanupFailed_dp w old r msg err : dp (cleanupFailed w old r msg err).2 = dp w.
Proof. unfold cleanupFailed. by destruct (UpdateStatusConditions _ _ _) as [[?|] ?]. Qed.

(** The data plane a finalization pass leaves: untouched, or what the
    delete calls for the listed resources left. *)
Lemma finalize_dp w old r :
  dp (finalize w old r).2 = dp w
  \/ exists live e d',
       listLiveResourcesByGVKs (dp w) r
         (findAllKnownGVKs [] (StatusResources (Status r))) = Ok live
       /\ deleteResources (dp w) live = (e, d')
       /\ dp (finalize w old r).2 = d'.
Proof.
  unfold finalize. destruct (negb _); [by left|].
  destruct (SetStatusCondition _ _) as [cs ch].
  destruct ch.
  { left. by destruct (UpdateStatusConditions _ _ _) as [[?|] ?]. }
  destruct (getDPClient _ _ _); [|left; apply cleanupFailed_dp].
  rewrite listLive_withConditions. cbn [Status withConditions withStatus StatusResources].
  destruct (listLiveResourcesByGVKs _ _ _) as [live|] eqn:El; [|left; apply cleanupFailed_dp].
  right. exists live.
  destruct (deleteResources (dp w) live) as [[e|] d'] eqn:Ed.
  - exists (Some e), d'. split; [done|]. split; [done|]. by rewrite cleanupFailed_dp.
  - exists None, d'. split; [done|]. split; [done|].
    destruct (0 <? length live)%nat; [done|].
    destruct (RemoveFinalizer _ _) as [r' rem]. destruct rem; [|done].
    by destruct (cp_Update _ _) as [[?|] ?].
Qed.


Lemma client_Patch_frame c obj e c' :
  client_Patch c obj = (e, c') -> c' = withObjects c (objects c').
Proof.
  unfold client_Patch. destruct (patchErr c obj); [intros [= _ <-]; by destruct c|].
  destruct (existsb _ _); by intros [= _ <-].
Qed.

Lemma existsb_sameObject obj objs :
  existsb (sameObject obj) objs = true <-> exists o, o ∈ objs /\ sameObject obj o = true.
Proof.
  rewrite existsb_exists. split; intros (o & Ho & Hs); exists o; split; auto;
    by apply list_elem_of_In.
Qed.

Lemma sameObject_sym a b : sameObject a b = sameObject b a.
Proof.
  unfold sameObject. apply bool_decide_ext. split; intros (?&?&?); done.
Qed.

Lemma sameObject_trans a b c :
  sameObject a b = true -> sameObject b c = true -> sameObject a c = true.
Proof. rewrite !sameObject_identity. congruence. Qed.

Lemma sameObject_refl a : sameObject a a = true.
Proof. by apply sameObject_identity. Qed.

(** Apply keeps the identities of the objects there are, and adds at
    most the identity of the applied document. *)
Lemma client_Patch_identities c obj e c' :
  client_Patch c obj = (e, c') ->
  identity <$> objects c' = identity <$> objects c
  \/ (e = None /\ (identity obj ∉ identity <$> objects c)
      /\ objects c' = objects c ++ [obj]).
Proof.
  unfold client_Patch. destruct (patchErr c obj); [intros [= _ <-]; by left|].
  destruct (existsb (sameObject obj) (objects c)) eqn:Ex; intros [= <- <-].
  - left. simpl. rewrite <- list_fmap_compose. apply list_fmap_ext.
    intros i o _. simpl. destruct (sameObject obj o) eqn:Es; [|done].
    apply sameObject_identity in Es. by rewrite <- Es.
  - right. split; [done|]. split; [|done].
    intros Hin. apply list_elem_of_fmap in Hin as (o & Hid & Ho).
    assert (existsb (sameObject obj) (objects c) = true); [|congruence].
    apply existsb_sameObject. exists o. split; [done|]. by apply sameObject_identity.
Qed.

Lemma client_Patch_unique c obj e c' :
  client_Patch c obj = (e, c') ->
  uniqueIdentities (objects c) -> uniqueIdentities (objects c').
Proof.
  intros Hp Hu. destruct (client_Patch_identities _ _ _ _ Hp) as [Hid|(_ & Hn & Ho)];
    unfold uniqueIdentities in *.
  - by rewrite Hid.
  - rewrite Ho, fmap_app. apply NoDup_app. split; [done|]. split.
    + intros x Hx Hx'. apply list_elem_of_singleton in Hx'. by subst.
    + apply NoDup_singleton.
Qed.

(** Every object of the cluster is still there after an apply, as it was
    or with the labels of the applied document of its identity. *)
Lemma client_Patch_tracks c obj e c' o :
  client_Patch c obj = (e, c') -> o ∈ objects c ->
  exists o', o' ∈ objects c' /\ sameObject o o' = true
             /\ (o' = o \/ (sameObject obj o' = true /\ objLabels o' = objLabels obj)).
Proof.
  unfold client_Patch. destruct (patchErr c obj).
  { intros [= _ <-] Ho. exists o. rewrite sameObject_refl; auto. }
  destruct (existsb (sameObject obj) (objects c)) eqn:Ex; intros [= _ <-] Ho; simpl.
  - destruct (sameObject obj o) eqn:Es.
    + eexists. split; [apply list_elem_of_fmap; exists o; split; [reflexivity|done]|].
      rewrite Es. simpl.
      split; [rewrite sameObject_sym; by apply sameObject_identity; apply sameObject_identity in Es|].
      right. split; [by apply sameObject_identity|done].
    + exists o. split; [|by rewrite sameObject_refl; auto].
      apply list_elem_of_fmap. exists o. by rewrite Es.
  - exists o. split; [apply elem_of_app; by left|]. rewrite sameObject_refl; auto.
Qed.

(** Every object of the cluster after an apply was there before, or is
    the applied document as far as identity and labels go. *)
Lemma client_Patch_origin c obj e c' o' :
  client_Patch c obj = (e, c') -> o' ∈ objects c' ->
  o' ∈ objects c \/ (e = None /\ sameObject obj o' = true /\ objLabels o' = objLabels obj).
Proof.
  unfold client_Patch. destruct (patchErr c obj); [intros [= _ <-]; by left|].
  destruct (existsb (sameObject obj) (objects c)) eqn:Ex; intros [= <- <-]; simpl.
  - intros Ho. apply list_elem_of_fmap in Ho as (o & -> & Ho).
    destruct (sameObject obj o) eqn:Es; [right|by left].
    split; [done|]. split; [by apply sameObject_identity|done].
  - intros Ho. apply elem_of_app in Ho as [?|Ho]; [by left|].
    apply list_elem_of_singleton in Ho as ->. right. by rewrite sameObject_refl.
Qed.

(** After a successful apply the document is on the cluster. *)
Lemma client_Patch_applied c obj c' :
  client_Patch c obj = (None, c') ->
  exists o, o ∈ objects c' /\ sameObject obj o = true /\ objLabels o = objLabels obj.
Proof.
  unfold client_Patch. destruct (patchErr c obj); [done|].
  destruct (existsb (sameObject obj) (objects c)) eqn:Ex; intros [= <-]; simpl.
  - apply existsb_sameObject in Ex as (o & Ho & Hs).
    eexists. split; [apply list_elem_of_fmap; exists o; split; [reflexivity|done]|].
    rewrite Hs. simpl. split; [by apply sameObject_identity|done].
  - exists obj. split; [apply elem_of_app; right; by apply list_elem_of_singleton|].
    by rewrite sameObject_refl.
Qed.

Lemma applyResources_frame c l e c' :
  applyResources c l = (e, c') -> c' = withObjects c (objects c').
Proof.
  revert c. induction l as [|d l IH]; intros c; simpl.
  - intros [= _ <-]. by destruct c.
  - destruct (client_Patch c d) as [[e1|] c1] eqn:E.
    + intros [= _ <-]. by eapply client_Patch_frame.
    + intros Hr. apply IH in Hr. apply client_Patch_frame in E.
      rewrite Hr. rewrite E at 1. done.
Qed.

Lemma applyResources_unique c l e c' :
  applyResources c l = (e, c') ->
  uniqueIdentities (objects c) -> uniqueIdentities (objects c').
Proof.
  revert c. induction l as [|d l IH]; intros c; simpl.
  - by intros [= _ <-].
  - destruct (client_Patch c d) as [[e1|] c1] eqn:E.
    + intros [= _ <-]. by eapply client_Patch_unique.
    + intros Hr Hu. eapply IH; [done|]. by eapply client_Patch_unique.
Qed.

Lemma applyResources_tracks c l e c' o :
  applyResources c l = (e, c') -> o ∈ objects c ->
  exists o', o' ∈ objects c' /\ sameObject o o' = true
             /\ (o' = o \/ exists d, d ∈ l /\ sameObject d o' = true
                                     /\ objLabels o' = objLabels d).
Proof.
  revert c o. induction l as [|d l IH]; intros c o; simpl.
  - intros [= _ <-] Ho. exists o. rewrite sameObject_refl; auto.
  - destruct (client_Patch c d) as [[e1|] c1] eqn:E.
    + intros [= _ <-] Ho.
      destruct (client_Patch_tracks _ _ _ _ _ E Ho) as (o' & Ho' & Hs & [->|[Hd Hl]]).
      * exists o. auto.
      * exists o'. split; [done|]. split; [done|]. right. exists d. split; [left|done].
    + intros Hr Ho.
      destruct (client_Patch_tracks _ _ _ _ _ E Ho) as (o1 & Ho1 & Hs1 & Hor1).
      destruct (IH _ _ Hr Ho1) as (o' & Ho' & Hs' & Hor').
      exists o'. split; [done|]. split; [by eapply sameObject_trans|].
      destruct Hor' as [->|(d' & Hd' & Hsd & Hl)].
      * destruct Hor1 as [->|[Hd Hl]]; [by left|].
        right. exists d. split; [left|done].
      * right. exists d'. split; [by right|done].
Qed.

Lemma applyResources_origin c l e c' o' :
  applyResources c l = (e, c') -> o' ∈ objects c' ->
  o' ∈ objects c \/ exists d, d ∈ l /\ sameObject d o' = true /\ objLabels o' = objLabels d.
Proof.
  revert c. induction l as [|d l IH]; intros c; simpl.
  - intros [= _ <-]. by left.
  - destruct (client_Patch c d) as [[e1|] c1] eqn:E.
    + intros [= _ <-] Ho. destruct (client_Patch_origin _ _ _ _ _ E Ho) as [?|(? & _)]; [by left|done].
    + intros Hr Ho. destruct (IH _ Hr Ho) as [Ho1|(d' & Hd' & Hrest)].
      * destruct (client_Patch_origin _ _ _ _ _ E Ho1) as [?|(_ & Hs & Hl)]; [by left|].
        right. exists d. split; [left|done].
      * right. exists d'. split; [by right|done].
Qed.

Lemma applyResources_applied c l c' d :
  applyResources c l = (None, c') -> d ∈ l ->
  exists o, o ∈ objects c' /\ sameObject d o = true
            /\ exists d', d' ∈ l /\ sameObject d d' = true /\ objLabels o = objLabels d'.
Proof.
  revert c. induction l as [|x l IH]; intros c; simpl; [intros _ Hd; by apply elem_of_nil in Hd|].
  destruct (client_Patch c x) as [[e1|] c1] eqn:E; [done|].
  intros Hr Hd. apply elem_of_cons in Hd as [->|Hd].
  - destruct (client_Patch_applied _ _ _ E) as (o1 & Ho1 & Hs1 & Hl1).
    destruct (applyResources_tracks _ _ _ _ _ Hr Ho1) as (o' & Ho' & Hs' & Hor).
    exists o'. split; [done|]. split; [by eapply sameObject_trans|].
    destruct Hor as [->|(d' & Hd' & Hsd & Hl)].
    + exists x. split; [left|]. by rewrite sameObject_refl.
    + exists d'. split; [by right|]. split; [|done].
      eapply sameObject_trans; [|by rewrite sameObject_sym].
      by eapply sameObject_trans.
  - destruct (IH _ Hr Hd) as (o & Ho & Hs & d' & Hd' & Hsd & Hl).
    exists o. split; [done|]. split; [done|]. exists d'. split; [by right|done].
Qed.

Lemma ensureNamespaces_frame c nss e c' :
  ensureNamespaces c nss = (e, c') -> c' = withNamespaces c (namespaces c').
Proof.
  revert c. induction nss as [|ns l IH]; intros c; simpl.
  - intros [= _ <-]. by destruct c.
  - destruct (client_GetNamespace c (nsName ns)) as [n|err]; [apply IH|].
    destruct (negb (IsNotFound err)); [intros [= _ <-]; by destruct c|].
    assert (Hc : forall e1 c1, client_CreateNamespace c ns = (e1, c1) ->
                               c1 = withNamespaces c (namespaces c1)).
    { unfold client_CreateNamespace. intros e1 c1. destruct (createNsErr c (nsName ns)).
      - intros [= _ <-]. by destruct c.
      - destruct (existsb _ _); intros [= _ <-]; [by destruct c|done]. }
    destruct (client_CreateNamespace c ns) as [[e1|] c1] eqn:E; pose proof (Hc _ _ eq_refl) as Hc1.
    + destruct (IsAlreadyExists e1).
      * intros Hr. apply IH in Hr. rewrite Hr. rewrite Hc1 at 1. done.
      * by intros [= _ <-].
    + intros Hr. apply IH in Hr. rewrite Hr. rewrite Hc1 at 1. done.
Qed.

Lemma ensureNamespaces_objects c nss e c' :
  ensureNamespaces c nss = (e, c') -> objects c' = objects c.
Proof. intros Hn. apply ensureNamespaces_frame in Hn. by rewrite Hn. Qed.


(** The data plane a pass for a Release that is not being deleted leaves:
    untouched; or as the namespace phase left it; or as the apply phase
    left it; or as the deletes of the stale resources left it, after all
    documents were applied and the listing was made. *)
Lemma Reconcile_steady_dp w key r :
  cp_Get (cp w) key = Ok r -> DeletionTimestamp r = None ->
  dp (Reconcile w key).2 = dp w
  \/ exists desired e1 d1,
       makeDesiredResources r = Ok desired
       /\ ensureNamespaces (dp w) (makeDesiredNamespaces r desired) = (e1, d1)
       /\ (dp (Reconcile w key).2 = d1
           \/ exists e2 d2,
                applyResources d1 desired = (e2, d2)
                /\ (dp (Reconcile w key).2 = d2
                    \/ exists live e3 d3,
                         e2 = None
                         /\ listLiveResourcesByGVKs d2 r
                              (findAllKnownGVKs desired (StatusResources (Status r))) = Ok live
                         /\ deleteResources d2 (findStaleResources live desired) = (e3, d3)
                         /\ dp (Reconcile w key).2 = d3)).
Proof.
  intros Hget Hd. unfold Reconcile. rewrite Hget, Hd.
  unfold ensureFinalizer, AddFinalizer. rewrite Hd.
  destruct (ContainsFinalizer r DataPlaneCleanupFinalizer) eqn:Hf.
  2: { left. by destruct (cp_Update _ _) as [[?|] ?]. }
  destruct w as [c d]. cbn [cp dp withCP withDP].
  destruct (getDPClient _ _ _); [|by left].
  destruct (makeDesiredResources r) as [desired|] eqn:Hm; [|by left].
  right. exists desired.
  destruct (ensureNamespaces _ _) as [[e1|] d1] eqn:Hn.
  { exists (Some e1), d1. split; [done|]. split; [done|]. by left. }
  exists None, d1. split; [done|]. split; [done|]. right.
  destruct (applyResources _ _) as [[e2|] d2] eqn:Ha.
  { exists (Some e2), d2. split; [done|]. by left. }
  exists None, d2. split; [done|].
  destruct (listLiveResourcesByGVKs _ _ _) as [live|] eqn:Hl; [|by left].
  right. exists live.
  destruct (deleteResources _ _) as [[e3|] d3] eqn:Hdel.
  { exists (Some e3), d3. done. }
  exists None, d3. split; [done|]. split; [done|]. split; [done|].
  destruct (updateStatus _ _ _ _ _) as [[[updated [?|]] r'] c'] eqn:Hu; [by destruct updated|].
  destruct updated; [done|]. by destruct (hasTransitioningResources _).
Qed.

(** X1.  A pass for a Release that does not carry the cleanup finalizer
    makes no change to the data plane: nothing is applied before the
    finalizer is stored, and a Release deleted without it is left alone. *)
Theorem data_plane_untouched_without_finalizer (w : World) (key : string * string) :
  (forall r, cp_Get (cp w) key = Ok r ->
             ContainsFinalizer r DataPlaneCleanupFinalizer = false) ->
  dp (Reconcile w key).2 = dp w.
Proof.
  intros Hnf. unfold Reconcile.
  destruct (cp_Get (cp w) key) as [r|e] eqn:Hget; [|by destruct (IsNotFound e)].
  specialize (Hnf r eq_refl).
  destruct (DeletionTimestamp r) eqn:Hd.
  - unfold finalize. by rewrite Hnf.
  - unfold ensureFinalizer, AddFinalizer. rewrite Hd, Hnf.
    by destruct (cp_Update _ _) as [[?|] ?].
Qed.

(** X2.  The first pass for a Release stores the cleanup finalizer and
    does nothing else: the Release is stored with the finalizer added at
    the end of its finalizers, the data plane is as it was, and no requeue
    is asked for.  When the update is refused, its error is the pass's
    error and nothing has changed. *)
Theorem first_pass_stores_the_finalizer (w : World) (key : string * string) (r : Release) :
  cp_Get (cp w) key = Ok r ->
  releaseKey r = key ->
  DeletionTimestamp r = None ->
  ContainsFinalizer r DataPlaneCleanupFinalizer = false ->
  let r' := withFinalizers r (Finalizers r ++ [DataPlaneCleanupFinalizer]) in
  match cpUpdateErr (cp w) r' with
  | None =>
      Reconcile w key
      = ((Result_empty, None),
         withCP w (withReleases (cp w) (<[key := r']> (cpReleases (cp w)))))
  | Some err => Reconcile w key = ((Result_empty, Some err), w)
  end.
Proof.
  intros Hget Hkey Hd Hnf r'. unfold Reconcile. rewrite Hget, Hd.
  unfold ensureFinalizer, AddFinalizer. rewrite Hd, Hnf. fold r'.
  apply cp_Get_Ok in Hget. unfold cp_Update.
  destruct (cpUpdateErr (cp w) r'); [by destruct w|].
  change (releaseKey r') with (releaseKey r). rewrite Hkey, Hget, Hd.
  replace (withStatus r' (Status r)) with r' by by destruct r.
  done.
Qed.

(** X3.  A finalization pass only deletes.  The objects it leaves on
    the data plane are, in order, objects that were there; namespaces are
    as they were; and the pass that records the finalizing condition
    leaves the data plane untouched. *)
Theorem finalization_only_deletes (w : World) (key : string * string) (r : Release) :
  cp_Get (cp w) key = Ok r ->
  DeletionTimestamp r <> None ->
  objects (dp (Reconcile w key).2) `sublist_of` objects (dp w)
  /\ namespaces (dp (Reconcile w key).2) = namespaces (dp w)
  /\ ((SetStatusCondition (Conditions (Status r))
         (NewReleaseFinalizingCondition (Generation r))).2 = true ->
      dp (Reconcile w key).2 = dp w).
Proof.
  intros Hget Hd. rewrite (Reconcile_finalizing _ _ _ Hget Hd).
  split; [|split].
  - destruct (finalize_dp w r r) as [->|(live & e & d' & _ & Hdel & ->)]; [done|].
    by eapply deleteResources_sublist.
  - destruct (finalize_dp w r r) as [->|(live & e & d' & _ & Hdel & ->)]; [done|].
    apply deleteResources_frame in Hdel. by rewrite Hdel.
  - intros Hc. unfold finalize. destruct (negb _); [done|].
    destruct (SetStatusCondition _ _) as [cs ch]. simpl in Hc. subst ch.
    by destruct (UpdateStatusConditions _ _ _) as [[?|] ?].
Qed.

(** X4.  A finalization pass deletes only what belongs to the Release.
    On a data plane that holds one object per identity, an object that is
    gone after the pass carried the UID label of the Release and the
    managed-by label of the controller, had no finalizers of its own, and
    is of a kind recorded in the status inventory. *)
Theorem finalization_deletes_only_owned (w : World) (key : string * string) (r : Release)
    (o : Unstructured) :
  cp_Get (cp w) key = Ok r ->
  DeletionTimestamp r <> None ->
  uniqueIdentities (objects (dp w)) ->
  LabelKeyManagedBy <> LabelKeyReleaseUID ->
  o ∈ objects (dp w) ->
  o ∉ objects (dp (Reconcile w key).2) ->
  objLabels o !! LabelKeyReleaseUID = Some (UID r)
  /\ objLabels o !! LabelKeyManagedBy = Some ControllerName
  /\ objFinalizers o = []
  /\ exists a, a ∈ StatusResources (Status r)
               /\ listGVK (statusGVK a) = listGVK (objGVK o).
Proof.
  intros Hget Hd Hu Hk Ho Hno. rewrite (Reconcile_finalizing _ _ _ Hget Hd) in Hno.
  destruct (finalize_dp w r r) as [Heq|(live & e & d' & Hl & Hdel & Heq)];
    rewrite Heq in Hno; [done|].
  destruct (deleteResources_removed _ _ _ _ _ Hdel Ho Hno) as (s & Hs & Hsame & Hfin).
  destruct (listLive_elem _ _ _ _ _ Hl Hs) as (Hsc & Hm & gvk & Hg & Hk' & _).
  assert (s = o) as -> by by eapply uniqueIdentities_same.
  unfold matchLabels, releaseSelector in Hm. apply bool_decide_eq_true in Hm.
  split; [apply (Hm LabelKeyReleaseUID); apply lookup_insert_eq|].
  split; [apply (Hm LabelKeyManagedBy); rewrite lookup_insert_ne by done;
          apply lookup_insert_eq|].
  split; [done|].
  apply findAllKnownGVKs_elem in Hg as [(x & Hx & _)|(a & Ha & Hga)];
    [by apply elem_of_nil in Hx|].
  exists a. split; [done|]. by rewrite Hga.
Qed.

(** X5.  A pass for a Release that is not being deleted removes only
    stale resources.  On a data plane that holds one object per identity,
    every object is still there after the pass (as it was, or as applied),
    unless it carried the labels of the Release's selector, had a
    resource ID that is not empty and that no desired document has, and
    had no finalizers of its own. *)
Theorem steady_pass_deletes_only_stale (w : World) (key : string * string) (r : Release)
    (o : Unstructured) :
  cp_Get (cp w) key = Ok r ->
  DeletionTimestamp r = None ->
  uniqueIdentities (objects (dp w)) ->
  o ∈ objects (dp w) ->
  (exists o', o' ∈ objects (dp (Reconcile w key).2) /\ sameObject o o' = true)
  \/ (matchLabels (releaseSelector r) (objLabels o) = true
      /\ resourceID o <> ""
      /\ objFinalizers o = []
      /\ exists desired, makeDesiredResources r = Ok desired
                         /\ resourceID o ∉ resourceID <$> desired).
Proof.
  intros Hget Hd Hu Ho.
  assert (Hself : forall d, dp (Reconcile w key).2 = d -> objects d = objects (dp w) ->
            exists o', o' ∈ objects (dp (Reconcile w key).2) /\ sameObject o o' = true).
  { intros d -> Hobj. exists o. rewrite Hobj. by rewrite sameObject_refl. }
  destruct (Reconcile_steady_dp w key r Hget Hd)
    as [Heq|(desired & e1 & d1 & Hm & Hns & Hrest)]; [left; by eapply Hself|].
  pose proof (ensureNamespaces_objects _ _ _ _ Hns) as Hobj1.
  destruct Hrest as [Heq|(e2 & d2 & Hap & Hrest)]; [left; by eapply Hself|].
  assert (Ho1 : o ∈ objects d1) by by rewrite Hobj1.
  destruct (applyResources_tracks _ _ _ _ _ Hap Ho1) as (o2 & Ho2 & Hs2 & Hor2).
  destruct Hrest as [Heq|(live & e3 & d3 & -> & Hl & Hdel & Heq)];
    [left; exists o2; by rewrite Heq|].
  destruct (decide (o2 ∈ objects d3)) as [Hin|Hnin]; [left; exists o2; by rewrite Heq|].
  right.
  destruct (deleteResources_removed _ _ _ _ _ Hdel Ho2 Hnin) as (s & Hs & Hsame & Hfin).
  rewrite findStaleResources_filter in Hs.
  apply list_elem_of_filter in Hs as [[Hne Hnd] Hlive].
  destruct (listLive_elem _ _ _ _ _ Hl Hlive) as (Hsc & Hmatch & _).
  assert (Hu2 : uniqueIdentities (objects d2)).
  { eapply applyResources_unique; [done|]. by rewrite Hobj1. }
  assert (s = o2) as -> by by eapply uniqueIdentities_same.
  assert (o2 = o) as ->.
  { destruct Hor2 as [?|(d & Hdin & _ & Hlab)]; [done|]. exfalso. apply Hnd.
    apply list_elem_of_fmap. exists d. split; [|done]. unfold resourceID. by rewrite Hlab. }
  split; [done|]. split; [done|]. split; [done|]. by exists desired.
Qed.

(** X6.  A pass that ends without error has put every desired document
    on the data plane.  On a data plane that holds one object per
    identity, each desired document has, after the pass, an object of its
    kind, namespace and name that carries the labels of a desired document
    of that identity: its own labels, when no other desired document has
    the same identity. *)
Theorem successful_pass_applies_every_document (w w' : World) (key : string * string)
    (r : Release) (res : Result) :
  cp_Get (cp w) key = Ok r ->
  DeletionTimestamp r = None ->
  ContainsFinalizer r DataPlaneCleanupFinalizer = true ->
  uniqueIdentities (objects (dp w)) ->
  Reconcile w key = ((res, None), w') ->
  exists desired,
    makeDesiredResources r = Ok desired
    /\ forall d, d ∈ desired ->
         exists o, o ∈ objects (dp w') /\ sameObject d o = true
                   /\ (exists d', d' ∈ desired /\ sameObject d d' = true
                                  /\ objLabels o = objLabels d')
                   /\ (uniqueIdentities desired -> objLabels o = objLabels d).
Proof.
  intros Hget Hd Hf Hu Hrec.
  destruct (Reconcile_steady_inv _ _ _ _ _ Hget Hd Hf Hrec)
    as (desired & d1 & d2 & live & d3 & upd & r' & c' & Hm & Hns & Hap & Hl & Hdel & _ & -> & _).
  exists desired. split; [done|]. intros d Hdin. cbn [dp].
  destruct (applyResources_applied _ _ _ _ Hap Hdin) as (o & Ho & Hs & d' & Hd' & Hsd & Hlab).
  assert (Hu2 : uniqueIdentities (objects d2)).
  { eapply applyResources_unique; [done|].
    by rewrite (ensureNamespaces_objects _ _ _ _ Hns). }
  assert (Hin : o ∈ objects d3).
  { destruct (decide (o ∈ objects d3)) as [?|Hnin]; [done|]. exfalso.
    destruct (deleteResources_removed _ _ _ _ _ Hdel Ho Hnin) as (s & Hsin & Hsame & _).
    rewrite findStaleResources_filter in Hsin.
    apply list_elem_of_filter in Hsin as [[Hne Hnd] Hlive].
    destruct (listLive_elem _ _ _ _ _ Hl Hlive) as (Hsc & _).
    assert (s = o) as -> by by eapply uniqueIdentities_same.
    apply Hnd, list_elem_of_fmap. exists d'. split; [|done]. unfold resourceID. by rewrite Hlab. }
  exists o. split; [done|]. split; [done|]. split; [by exists d'|].
  intros Hud. by rewrite Hlab, (uniqueIdentities_same desired d d').
Qed.

End DataPlaneSafety.

Section Namespaces.
Context `{LabelKeys} `{Externals}.

Lemma makeDesiredNamespaces_map release resources (m : gmap string Namespace) k ns :
  foldl (fun m obj =>
           let namespaceName := objNamespace obj in
           if decide (namespaceName <> "")
           then match m !! namespaceName with
                | Some _ => m
                | None => <[namespaceName := namespaceFor release namespaceName]> m
                end
           else m) m resources !! k = Some ns
  <-> m !! k = Some ns
      \/ (m !! k = None /\ k <> "" /\ k ∈ objNamespace <$> resources
          /\ ns = namespaceFor release k).
Proof.
  revert m. induction resources as [|obj l IH]; intros m.
  - simpl. split; [by left|]. intros [?|(_ & _ & Hx & _)]; [done|]. by apply elem_of_nil in Hx.
  - cbn [foldl]. rewrite IH. cbv zeta. rewrite fmap_cons.
    setoid_rewrite elem_of_cons.
    destruct (decide (objNamespace obj <> "")) as [Hne|He].
    + destruct (m !! objNamespace obj) as [ns0|] eqn:Em.
      * split; (intros [?|(Hk & Hkne & Hin & ->)]; [by left|right]).
        -- auto.
        -- repeat (split; [done|]). split; [|done].
           destruct Hin as [->|?]; [congruence|done].
      * destruct (decide (objNamespace obj = k)) as [<-|Hk].
        -- rewrite lookup_insert_eq. split.
           ++ intros [[= <-]|(? & _)]; [|done]. right. auto.
           ++ intros [?|(_ & _ & _ & ->)]; [congruence|by left].
        -- rewrite lookup_insert_ne by done.
           split; (intros [?|(Hmk & Hkne & Hin & ->)]; [by left|right]).
           ++ auto.
           ++ repeat (split; [done|]). split; [|done]. destruct Hin as [->|?]; done.
    + split; (intros [?|(Hmk & Hkne & Hin & ->)]; [by left|right]).
      * auto.
      * repeat (split; [done|]). split; [|done]. destruct Hin as [->|?]; [|done].
        exfalso. apply He. done.
Qed.

(** X7.  [makeDesiredNamespaces] gives one namespace for each namespace
    name that some desired document has, and none for the empty name: no
    name comes twice, and each namespace carries the audit and
    identification labels of the Release. *)
Theorem makeDesiredNamespaces_one_per_name (release : Release)
    (resources : list Unstructured) :
  NoDup (nsName <$> makeDesiredNamespaces release resources)
  /\ forall ns,
       ns ∈ makeDesiredNamespaces release resources
       <-> exists obj, obj ∈ resources /\ objNamespace obj <> ""
                       /\ ns = namespaceFor release (objNamespace obj).
Proof.
  unfold makeDesiredNamespaces. set (m := foldl _ ∅ resources).
  assert (Hm : forall k ns, m !! k = Some ns
               <-> k <> "" /\ (exists obj, obj ∈ resources /\ objNamespace obj = k)
                   /\ ns = namespaceFor release k).
  { intros k ns. unfold m. rewrite makeDesiredNamespaces_map, lookup_empty.
    rewrite list_elem_of_fmap. split.
    - intros [?|(_ & ? & (obj & ? & ?) & ->)]; [done|]. split; [done|]. split; [|done].
      by exists obj.
    - intros (? & (obj & ? & ?) & ->). right. repeat (split; [done|]). split; [|done].
      by exists obj. }
  split.
  - assert (Heq : nsName <$> (map_to_list m).*2 = (map_to_list m).*1).
    { rewrite <- !list_fmap_compose. apply list_fmap_ext. intros i [k ns] Hi. simpl.
      apply list_elem_of_lookup_2, elem_of_map_to_list, Hm in Hi as (_ & _ & ->). done. }
    rewrite Heq. apply NoDup_fst_map_to_list.
  - intros ns. rewrite list_elem_of_fmap. split.
    + intros ([k ns'] & -> & Hin). apply elem_of_map_to_list, Hm in Hin as (Hk & (obj & Ho & <-) & ->).
      by exists obj.
    + intros (obj & Ho & Hne & ->). exists (objNamespace obj, namespaceFor release (objNamespace obj)).
      split; [done|]. apply elem_of_map_to_list, Hm. split; [done|]. split; [by exists obj|done].
Qed.

Lemma client_CreateNamespace_spec c ns e c' :
  client_CreateNamespace c ns = (e, c') ->
  (e <> None /\ c' = c)
  \/ (e = None /\ c' = withNamespaces c (namespaces c ++ [ns])
      /\ forall n, n ∈ namespaces c -> nsName n <> nsName ns).
Proof.
  unfold client_CreateNamespace. destruct (createNsErr c (nsName ns)); [intros [= <- <-]; by left|].
  destruct (existsb _ _) eqn:Ex; intros [= <- <-]; [by left|]. right.
  split; [done|]. split; [done|]. intros n Hn Heq.
  assert (existsb (fun n => bool_decide (nsName n = nsName ns)) (namespaces c) = true);
    [|congruence].
  apply existsb_exists. exists n. split; [by apply list_elem_of_In|]. by apply bool_decide_eq_true.
Qed.

(** X8.  [ensureNamespaces] leaves what is on the cluster alone.  The
    objects are as they were, every namespace that was there is still
    there with its labels, and the namespaces added are among those asked
    for, each under a name that no namespace of the cluster had. *)
Theorem ensureNamespaces_keeps_existing (c c' : Cluster) (nss : list Namespace)
    (e : option error) :
  ensureNamespaces c nss = (e, c') ->
  objects c' = objects c
  /\ exists added,
       namespaces c' = namespaces c ++ added
       /\ forall ns, ns ∈ added ->
            ns ∈ nss /\ forall n, n ∈ namespaces c -> nsName n <> nsName ns.
Proof.
  intros He. split.
  { apply ensureNamespaces_frame in He. by rewrite He. }
  revert c He. induction nss as [|ns l IH]; intros c; simpl.
  - intros [= _ <-]. exists []. rewrite app_nil_r. split; [done|]. intros ns Hns.
    by apply elem_of_nil in Hns.
  - assert (Hrest : ensureNamespaces c l = (e, c') ->
              exists added, namespaces c' = namespaces c ++ added
                /\ forall ns0, ns0 ∈ added ->
                     ns0 ∈ ns :: l /\ forall n, n ∈ namespaces c -> nsName n <> nsName ns0).
    { intros Hr. destruct (IH _ Hr) as (added & Hadd & Hall). exists added. split; [done|].
      intros ns0 Hin. destruct (Hall _ Hin). split; [by right|done]. }
    destruct (client_GetNamespace c (nsName ns)) as [n|err]; [done|].
    destruct (negb (IsNotFound err)).
    { intros [= _ <-]. exists []. rewrite app_nil_r. split; [done|]. intros ? Hns.
      by apply elem_of_nil in Hns. }
    destruct (client_CreateNamespace c ns) as [e1 c1] eqn:Ec.
    destruct (client_CreateNamespace_spec _ _ _ _ Ec) as [[Hne ->]|(-> & -> & Hfresh)].
    + destruct e1 as [e1|]; [|done]. destruct (IsAlreadyExists e1); [done|].
      intros [= _ <-]. exists []. rewrite app_nil_r. split; [done|]. intros ? Hns.
      by apply elem_of_nil in Hns.
    + intros Hr. destruct (IH _ Hr) as (added & Hadd & Hall). simpl in Hadd.
      exists (ns :: added). split; [by rewrite Hadd, <- app_assoc|].
      intros ns0 Hin. apply elem_of_cons in Hin as [->|Hin]; [split; [left|done]|].
      destruct (Hall _ Hin) as [Hin0 Hfr]. split; [by right|].
      intros n Hn. apply Hfr. simpl. apply elem_of_app. by left.
Qed.

Lemma client_GetNamespace_found c name :
  getNsErr c name = None ->
  (isOk (client_GetNamespace c name) = true
   <-> exists n, n ∈ namespaces c /\ nsName n = name).
Proof.
  intros Hg. unfold client_GetNamespace. rewrite Hg.
  destruct (find _ _) as [n|] eqn:Ef; simpl.
  - split; [intros _|done]. apply find_some in Ef as [Hin Hn].
    exists n. split; [by apply list_elem_of_In|]. by apply bool_decide_eq_true in Hn.
  - split; [done|]. intros (n & Hn & Hname). exfalso.
    apply list_elem_of_In in Hn.
    pose proof (find_none _ _ Ef n Hn) as Hfn. simpl in Hfn.
    by apply bool_decide_eq_false in Hfn.
Qed.

Lemma ensureNamespaces_present c nss :
  (forall ns, ns ∈ nss -> isOk (client_GetNamespace c (nsName ns)) = true) ->
  ensureNamespaces c nss = (None, c).
Proof.
  induction nss as [|ns l IH]; intros Hall; simpl; [done|].
  pose proof (Hall ns (list_elem_of_here _ _)) as Hns.
  destruct (client_GetNamespace c (nsName ns)); [|done].
  apply IH. intros ns' Hin. apply Hall. by right.
Qed.

(** X9.  On a cluster whose namespace calls all answer,
    [ensureNamespaces] succeeds, every namespace asked for can be read
    afterwards, and running it again changes nothing. *)
Theorem ensureNamespaces_ensures (c : Cluster) (nss : list Namespace) :
  (forall name, getNsErr c name = None) ->
  (forall name, createNsErr c name = None) ->
  exists c',
    ensureNamespaces c nss = (None, c')
    /\ (forall ns, ns ∈ nss -> isOk (client_GetNamespace c' (nsName ns)) = true)
    /\ ensureNamespaces c' nss = (None, c').
Proof.
  intros Hg Hc.
  assert (Hmain : exists c', ensureNamespaces c nss = (None, c')
            /\ forall ns, ns ∈ nss -> isOk (client_GetNamespace c' (nsName ns)) = true).
  { revert c Hg Hc. induction nss as [|ns l IH]; intros c Hg Hc; simpl.
    - exists c. split; [done|]. intros ns Hns. by apply elem_of_nil in Hns.
    - destruct (client_GetNamespace c (nsName ns)) as [n|err] eqn:Eg.
      + destruct (IH c Hg Hc) as (c' & He & Hall). exists c'. split; [done|].
        intros ns' Hin. apply elem_of_cons in Hin as [->|Hin]; [|by apply Hall].
        destruct (ensureNamespaces_keeps_existing _ _ _ _ He) as (_ & added & Hadd & _).
        pose proof (ensureNamespaces_frame _ _ _ _ He) as Hfr.
        assert (Hg' : getNsErr c' (nsName ns) = None) by (rewrite Hfr; apply Hg).
        apply (client_GetNamespace_found _ _ Hg').
        assert (Hok : isOk (client_GetNamespace c (nsName ns)) = true) by by rewrite Eg.
        apply (client_GetNamespace_found _ _ (Hg _)) in Hok as (n0 & Hn0 & Hname).
        exists n0. split; [|done]. rewrite Hadd. apply elem_of_app. by left.
      + assert (err = ErrNotFound) as ->.
        { unfold client_GetNamespace in Eg. rewrite Hg in Eg.
          destruct (find _ _); [done|]. by injection Eg as <-. }
        simpl. unfold client_CreateNamespace. rewrite Hc.
        destruct (existsb _ _) eqn:Ex.
        { exfalso. apply existsb_exists in Ex as (n & Hn & Hname).
          apply bool_decide_eq_true in Hname. apply list_elem_of_In in Hn.
          assert (Hok : isOk (client_GetNamespace c (nsName ns)) = true).
          { apply (client_GetNamespace_found _ _ (Hg _)). eauto. }
          by rewrite Eg in Hok. }
        set (c1 := withNamespaces c (namespaces c ++ [ns])).
        destruct (IH c1) as (c' & He & Hall); [apply Hg|apply Hc|].
        exists c'. split; [done|].
        intros ns' Hin. apply elem_of_cons in Hin as [->|Hin]; [|by apply Hall].
        destruct (ensureNamespaces_keeps_existing _ _ _ _ He) as (_ & added & Hadd & _).
        pose proof (ensureNamespaces_frame _ _ _ _ He) as Hfr.
        assert (Hg' : getNsErr c' (nsName ns) = None) by (rewrite Hfr; apply Hg).
        apply (client_GetNamespace_found _ _ Hg').
        exists ns. split; [|done]. rewrite Hadd. apply elem_of_app. left.
        simpl. apply elem_of_app. right. by apply list_elem_of_singleton. }
  destruct Hmain as (c' & He & Hall). exists c'. split; [done|]. split; [done|].
  by apply ensureNamespaces_present.
Qed.

End Namespaces.

Section Progress.
Context `{LabelKeys} `{Externals}.

Lemma length_append (a b : string) :
  String.length (a +:+ b) = (String.length a + String.length b)%nat.
Proof. induction a as [|ch a IH]; simpl; [done|]. by rewrite IH. Qed.

Lemma append_inj_r (s a b : string) : a +:+ s = b +:+ s -> a = b.
Proof.
  revert b. induction a as [|ch a IH]; intros [|ch' b]; simpl; [done| | |].
  - intros Heq. apply (f_equal String.length) in Heq.
    rewrite ?length_append in Heq. simpl in Heq. rewrite ?length_append in Heq. lia.
  - intros Heq. apply (f_equal String.length) in Heq.
    rewrite ?length_append in Heq. simpl in Heq. rewrite ?length_append in Heq. lia.
  - intros [= -> Heq]. f_equal. by apply IH.
Qed.

Lemma listGVK_inj g1 g2 : listGVK g1 = listGVK g2 -> g1 = g2.
Proof.
  destruct g1, g2. unfold listGVK. simpl. intros [= -> -> Hk].
  f_equal. by eapply append_inj_r.
Qed.

Lemma findAllKnownGVKs_NoDup desired applied : NoDup (findAllKnownGVKs desired applied).
Proof. unfold findAllKnownGVKs. apply NoDup_fst_map_to_list. Qed.

(** Over kinds that are pairwise different, on a cluster that holds one
    object per identity, the listing names no object twice. *)
Lemma listLive_NoDup c r gvks live :
  NoDup gvks -> uniqueIdentities (objects c) ->
  listLiveResourcesByGVKs c r gvks = Ok live ->
  NoDup (identity <$> live).
Proof.
  intros Hg Hu. rewrite listLiveResourcesByGVKs_spec. intros Hl.
  assert (Hobj : NoDup (objects c)) by by eapply NoDup_fmap_1.
  set (f := fun gvk => match client_List c (listGVK gvk) (releaseSelector r) with
                       | Ok items => items
                       | Err _ => []
                       end) in Hl.
  assert (Hf : forall gvk o, o ∈ f gvk -> o ∈ objects c /\ objGVK o = gvk).
  { intros gvk o. unfold f, client_List. destruct (listErr c (listGVK gvk)).
    - intros Hx. by apply elem_of_nil in Hx.
    - rewrite list_elem_of_filter. intros [[Hk _] ?]. split; [done|]. by apply listGVK_inj. }
  assert (Hnd : forall gvk, NoDup (f gvk)).
  { intros gvk. unfold f, client_List. destruct (listErr c (listGVK gvk)); [constructor|].
    by apply NoDup_filter. }
  assert (Hflat : NoDup (flat_map f gvks)
                  /\ forall o, o ∈ flat_map f gvks -> o ∈ objects c).
  { clear Hl. induction Hg as [|g l Hnin Hl IH]; simpl.
    - split; [constructor|]. intros o Ho. by apply elem_of_nil in Ho.
    - destruct IH as [IH1 IH2]. split.
      + apply NoDup_app. split; [done|]. split; [|done].
        intros o Ho Ho'. apply Hnin.
        apply list_elem_of_In, in_flat_map in Ho' as (g' & Hg' & Hin').
        apply list_elem_of_In in Hg', Hin'.
        destruct (Hf _ _ Ho) as [_ <-]. destruct (Hf _ _ Hin') as [_ ->]. done.
      + intros o Ho. apply elem_of_app in Ho as [Ho|Ho]; [by apply (Hf g)|by apply IH2]. }
  assert (live = flat_map f gvks) as ->.
  { destruct gvks; [by injection Hl as <-|].
    destruct (LabelSelectorCheck (releaseSelector r)); [done|]. by injection Hl as <-. }
  destruct Hflat as [Hnd' Hin]. apply NoDup_fmap_2_strong; [|done].
  intros x y Hx Hy Hid. eapply uniqueIdentities_same; [done|by apply Hin|by apply Hin|].
  by apply sameObject_identity.
Qed.

(** Deleting objects that are on the cluster, no two of one identity,
    with every delete call answering: all deletes succeed, and what stays
    are the other objects and those held by finalizers of their own. *)
Lemma deleteResources_healthy c l :
  (forall o, deleteErr c o = None) ->
  (forall s, s ∈ l -> exists o, o ∈ objects c /\ sameObject s o = true) ->
  NoDup (identity <$> l) ->
  exists c',
    deleteResources c l = (None, c')
    /\ forall o, o ∈ objects c'
         <-> o ∈ objects c
             /\ forall s, s ∈ l -> sameObject s o = true -> objFinalizers o <> [].
Proof.
  revert c. induction l as [|s l IH]; intros c Hde Hex Hnd; simpl.
  - exists c. split; [done|]. intros o. split; [|by intros [? _]].
    intros Ho. split; [done|]. intros s Hs. by apply elem_of_nil in Hs.
  - rewrite fmap_cons in Hnd. apply NoDup_cons in Hnd as [Hs Hnd].
    unfold client_Delete. rewrite Hde.
    destruct (Hex s (list_elem_of_here _ _)) as (os & Hos & Hsame).
    assert (Hexb : existsb (sameObject s) (objects c) = true).
    { apply existsb_sameObject. eauto. }
    rewrite Hexb.
    set (c1 := withObjects c (filter (fun o => sameObject s o = false \/ objFinalizers o <> [])
                                     (objects c))).
    destruct (IH c1) as (c' & Hdel & Hobj); [apply Hde| |done|].
    { intros s' Hs'. destruct (Hex s' (list_elem_of_further _ _ _ Hs')) as (o & Ho & Hso).
      exists o. split; [|done]. simpl. apply list_elem_of_filter. split; [|done]. left.
      destruct (sameObject s o) eqn:Es; [|done]. exfalso. apply Hs.
      apply list_elem_of_fmap. exists s'. split; [|done].
      apply sameObject_identity in Es, Hso. congruence. }
    exists c'. split; [done|]. intros o. rewrite Hobj. simpl. rewrite list_elem_of_filter.
    split.
    + intros [[Hkeep Ho] Hall]. split; [done|]. intros s' Hs' Hso.
      apply elem_of_cons in Hs' as [->|Hs']; [|by apply (Hall s')].
      destruct Hkeep as [?|?]; [congruence|done].
    + intros [Ho Hall]. split; [split; [|done]|].
      * destruct (sameObject s o) eqn:Es; [right|by left]. apply (Hall s); [left|done].
      * intros s' Hs'. apply (Hall s'). by right.
Qed.

(** X10.  Finalization makes progress on a healthy data plane.  Once
    the finalizing condition is recorded, a pass whose listing is not
    empty deletes every listed resource without error when no delete call
    is refused, and asks to be run again after five seconds: what is left
    on the data plane are the objects that were not listed and the listed
    ones that finalizers of their own hold. *)
Theorem healthy_finalization_deletes_the_listing (w : World) (key : string * string)
    (r : Release) (live : list Unstructured) :
  cp_Get (cp w) key = Ok r ->
  DeletionTimestamp r <> None ->
  ContainsFinalizer r DataPlaneCleanupFinalizer = true ->
  (SetStatusCondition (Conditions (Status r))
     (NewReleaseFinalizingCondition (Generation r))).2 = false ->
  isOk (getDPClient w (Namespace_ r) (EnvironmentName (Spec r))) = true ->
  (forall o, deleteErr (dp w) o = None) ->
  uniqueIdentities (objects (dp w)) ->
  listLiveResourcesByGVKs (dp w) r
    (findAllKnownGVKs [] (StatusResources (Status r))) = Ok live ->
  live <> [] ->
  exists d',
    Reconcile w key = (({| RequeueAfter := 5 * Second |}, None), withDP w d')
    /\ forall o, o ∈ objects d'
         <-> o ∈ objects (dp w) /\ (o ∈ live -> objFinalizers o <> []).
Proof.
  intros Hget Hd Hf Hc Hcl Hde Hu Hl Hne.
  destruct (deleteResources_healthy (dp w) live) as (d' & Hdel & Hobj); [done| |..].
  { intros s Hs. destruct (listLive_elem _ _ _ _ _ Hl Hs) as (Hin & _).
    exists s. by rewrite sameObject_refl. }
  { eapply listLive_NoDup; [|done|done]. apply findAllKnownGVKs_NoDup. }
  exists d'. split.
  - rewrite (Reconcile_finalizing _ _ _ Hget Hd).
    destruct (getDPClient w _ _) as [cl|] eqn:Ecl; [|done].
    rewrite (finalize_from_listing w r r cl Hf Hc Ecl), Hl, Hdel. by destruct live.
  - intros o. rewrite Hobj. split; intros [Ho Hall]; (split; [done|]).
    + intros Hin. by apply (Hall o); [|apply sameObject_refl].
    + intros s Hs Hso. apply Hall.
      destruct (listLive_elem _ _ _ _ _ Hl Hs) as (Hin & _).
      by rewrite <- (uniqueIdentities_same _ s o Hu Hin Ho Hso).
Qed.

(** X11.  Discovery names nothing twice.  The probe set holds each
    kind once, however many desired documents and inventory entries have
    it; so, on a cluster that holds one object per identity, no object
    comes twice in the listing of live resources, and no delete call is
    made twice for one object. *)
Theorem discovery_names_nothing_twice (c : Cluster) (r : Release)
    (desired : list Unstructured) (applied : list ResourceStatus)
    (live : list Unstructured) :
  uniqueIdentities (objects c) ->
  listLiveResourcesByGVKs c r (findAllKnownGVKs desired applied) = Ok live ->
  NoDup (findAllKnownGVKs desired applied)
  /\ NoDup live
  /\ NoDup (identity <$> live).
Proof.
  intros Hu Hl. split; [apply findAllKnownGVKs_NoDup|].
  assert (Hid : NoDup (identity <$> live)).
  { eapply listLive_NoDup; [|done|done]. apply findAllKnownGVKs_NoDup. }
  split; [by eapply NoDup_fmap_1|done].
Qed.

Lemma makeDesiredResources_from_bad release pre bad post err :
  Forall (fun res => isOk (UnmarshalJSON (resObject res)) = true) pre ->
  UnmarshalJSON (resObject bad) = Err err ->
  makeDesiredResources_from release (pre ++ bad :: post)
  = Err (ErrWrap (String.append "failed to unmarshal resource " (resID bad)) err).
Proof.
  intros Hpre Hbad. induction Hpre as [|res pre Hres _ IH]; simpl.
  - by rewrite Hbad.
  - destruct (UnmarshalJSON (resObject res)); [|done]. by rewrite IH.
Qed.

(** X12.  A Release with an entry that does not parse applies nothing.
    [makeDesiredResources] answers with the error of the first such
    entry, wrapped with the entry's ID, and with no documents; the pass
    returns this error and leaves both the data plane and the stored
    Release as they were, whatever the other entries are. *)
Theorem malformed_entry_applies_nothing (w : World) (key : string * string) (r : Release)
    (pre post : list Resource) (bad : Resource) (err : error) :
  cp_Get (cp w) key = Ok r ->
  DeletionTimestamp r = None ->
  ContainsFinalizer r DataPlaneCleanupFinalizer = true ->
  isOk (getDPClient w (Namespace_ r) (EnvironmentName (Spec r))) = true ->
  Resources (Spec r) = pre ++ bad :: post ->
  Forall (fun res => isOk (UnmarshalJSON (resObject res)) = true) pre ->
  UnmarshalJSON (resObject bad) = Err err ->
  makeDesiredResources r
  = Err (ErrWrap (String.append "failed to unmarshal resource " (resID bad)) err)
  /\ Reconcile w key
     = ((Result_empty,
         Some (ErrWrap (String.append "failed to unmarshal resource " (resID bad)) err)), w).
Proof.
  intros Hget Hd Hf Hcl Hres Hpre Hbad.
  assert (Hm : makeDesiredResources r
               = Err (ErrWrap (String.append "failed to unmarshal resource " (resID bad)) err)).
  { unfold makeDesiredResources. rewrite Hres. by apply makeDesiredResources_from_bad. }
  split; [done|]. unfold Reconcile. rewrite Hget, Hd.
  rewrite (ensureFinalizer_present _ _ Hd Hf).
  destruct w as [c d]. cbn [cp dp withCP withDP] in *.
  destruct (getDPClient _ _ _); [|done]. by rewrite Hm.
Qed.

Lemma updateStatus_hasFinalizer c old r desired live res r' c' key :
  updateStatus c old r desired live = (res, r', c') ->
  (hasFinalizer c' key <-> hasFinalizer c key).
Proof.
  unfold updateStatus. case_decide; [by intros [= _ _ <-]|].
  destruct (cp_StatusUpdate _ _) as [e c1] eqn:E. intros [= _ _ <-].
  by eapply cp_StatusUpdate_hasFinalizer.
Qed.

(** A pass for a Release that is not being deleted keeps the finalizer. *)
Lemma Reconcile_steady_hasFinalizer w key r :
  cp_Get (cp w) key = Ok r -> DeletionTimestamp r = None ->
  hasFinalizer (cp w) key -> hasFinalizer (cp (Reconcile w key).2) key.
Proof.
  intros Hget Hd Hhas.
  assert (Hf : ContainsFinalizer r DataPlaneCleanupFinalizer = true).
  { destruct Hhas as (x & Hx & Hin). apply cp_Get_Ok in Hget.
    unfold ContainsFinalizer. apply bool_decide_eq_true. congruence. }
  unfold Reconcile. rewrite Hget, Hd. rewrite (ensureFinalizer_present _ _ Hd Hf).
  destruct w as [c d]. cbn [cp dp withCP withDP] in *.
  destruct (getDPClient _ _ _); [|done].
  destruct (makeDesiredResources r) as [desired|]; [|done].
  destruct (ensureNamespaces _ _) as [[e1|] d1]; [done|].
  destruct (applyResources _ _) as [[e2|] d2]; [done|].
  destruct (listLiveResourcesByGVKs _ _ _) as [live|]; [|done].
  destruct (deleteResources _ _) as [[e3|] d3]; [done|].
  destruct (updateStatus _ _ _ _ _) as [[[updated [?|]] r'] c'] eqn:Hu.
  - destruct updated; simpl; by eapply updateStatus_hasFinalizer.
  - destruct updated; [simpl; by eapply updateStatus_hasFinalizer|].
    destruct (hasTransitioningResources _); simpl; by eapply updateStatus_hasFinalizer.
Qed.

(** X13.  The cleanup finalizer is removed only by a finalization pass
    that ends well.  A pass that removes it is a pass for a Release whose
    deletion was requested, it returns no error and asks for no requeue;
    and after it the stored Release has its other finalizers only, or is
    gone when it had no other. *)
Theorem finalizer_removed_only_by_clean_finalization (w : World) (key : string * string)
    (r : Release) :
  cp_Get (cp w) key = Ok r ->
  releaseKey r = key ->
  finalizerRemoved w (Reconcile w key).2 key ->
  DeletionTimestamp r <> None
  /\ (Reconcile w key).1 = (Result_empty, None)
  /\ cpReleases (cp (Reconcile w key).2) !! key
     = match filter (fun g => g <> DataPlaneCleanupFinalizer) (Finalizers r) with
       | [] => None
       | others => Some (withFinalizers r others)
       end.
Proof.
  intros Hget Hkey Hrem.
  destruct (DeletionTimestamp r) as [t|] eqn:Hd.
  2: { exfalso. destruct Hrem as [Hhas Hno]. apply Hno.
       by apply (Reconcile_steady_hasFinalizer w key r). }
  split; [done|].
  assert (Hd' : DeletionTimestamp r <> None) by by rewrite Hd.
  rewrite (Reconcile_finalizing _ _ _ Hget Hd') in *.
  apply (finalize_removes_iff w key r Hget Hkey) in Hrem as (Hf & Hc & Hcl & Hl & Hu).
  destruct (getDPClient w _ _) as [cl|] eqn:Ecl; [|done].
  rewrite (finalize_from_listing w r r cl Hf Hc Ecl), Hl.
  cbn [deleteResources length Nat.ltb Nat.leb].
  apply cp_Get_Ok in Hget. unfold cp_Update. rewrite Hu.
  change (releaseKey (withFinalizers r _)) with (releaseKey r). rewrite Hkey, Hget, Hd.
  cbn [Finalizers withFinalizers].
  destruct (filter _ (Finalizers r)) as [|g others] eqn:Efs; simpl.
  - split; [done|]. apply lookup_delete_eq.
  - split; [done|]. rewrite lookup_insert_eq. by destruct r.
Qed.

End Progress.

Section ApplyBeforePrune.
Context `{LabelKeys} `{Externals}.

Lemma applyResources_err c resources e c' :
  applyResources c resources = (Some e, c') ->
  exists pre d post e0,
    resources = pre ++ d :: post
    /\ applyResources c pre = (None, c')
    /\ client_Patch c' d = (Some e0, c')
    /\ e = ErrWrap (String.append "failed to apply resource " (resourceID d)) e0.
Proof.
  revert c. induction resources as [|d l IH]; intros c; simpl; [done|].
  destruct (client_Patch c d) as [[e1|] c1] eqn:E.
  - intros [= <- <-].
    assert (c1 = c) as ->.
    { unfold client_Patch in E. destruct (patchErr c d); [by injection E as _ <-|].
      by destruct (existsb _ _). }
    exists [], d, l, e1. done.
  - intros Hrest. destruct (IH _ Hrest) as (pre & d' & post & e0 & -> & Hpre & Hd' & ->).
    exists (d :: pre), d', post, e0. split; [done|]. split; [|done].
    simpl. by rewrite E.
Qed.

(** X14.  Stale resources are deleted only after every desired
    document was applied.  When the apply phase fails, it fails at the
    first document whose apply call is refused: the documents before it
    are applied, the error names that document, and the pass ends there.
    So a pass for a Release that is not being deleted after which some
    object of the data plane is gone has parsed every entry, ensured the
    namespaces and applied every desired document without error. *)
Theorem stale_resources_go_only_after_apply (w : World) (key : string * string)
    (r : Release) :
  cp_Get (cp w) key = Ok r ->
  DeletionTimestamp r = None ->
  (forall c resources e c',
     applyResources c resources = (Some e, c') ->
     exists pre d post e0,
       resources = pre ++ d :: post
       /\ applyResources c pre = (None, c')
       /\ client_Patch c' d = (Some e0, c')
       /\ e = ErrWrap (String.append "failed to apply resource " (resourceID d)) e0)
  /\ forall o,
       o ∈ objects (dp w) ->
       (forall o', o' ∈ objects (dp (Reconcile w key).2) -> sameObject o o' = false) ->
       exists desired d1 d2,
         makeDesiredResources r = Ok desired
         /\ ensureNamespaces (dp w) (makeDesiredNamespaces r desired) = (None, d1)
         /\ applyResources d1 desired = (None, d2).
Proof.
  intros Hget Hd. split; [apply applyResources_err|].
  intros o Ho Hgone.
  assert (Hstays : forall d, objects d = objects (dp w) ->
            dp (Reconcile w key).2 = d -> False).
  { intros d Hobj Heq. rewrite Heq, Hobj in Hgone.
    specialize (Hgone o Ho). by rewrite sameObject_refl in Hgone. }
  destruct (Reconcile_steady_dp w key r Hget Hd)
    as [Heq|(desired & e1 & d1 & Hm & Hns & Hrest)]; [exfalso; by eapply Hstays|].
  pose proof (ensureNamespaces_objects _ _ _ _ Hns) as Hobj1.
  destruct Hrest as [Heq|(e2 & d2 & Hap & Hrest)]; [exfalso; by eapply Hstays|].
  assert (Ho1 : o ∈ objects d1) by by rewrite Hobj1.
  destruct (applyResources_tracks _ _ _ _ _ Hap Ho1) as (o2 & Ho2 & Hs2 & _).
  destruct Hrest as [Heq|(live & e3 & d3 & -> & Hl & Hdel & Heq)].
  { exfalso. rewrite Heq in Hgone. specialize (Hgone o2 Ho2). congruence. }
  exists desired, d1, d2. split; [done|]. split; [|done].
  destruct e1 as [e1|]; [|done]. exfalso.
  (* a failed namespace phase ends the pass *)
  revert Hgone. unfold Reconcile. rewrite Hget, Hd.
  unfold ensureFinalizer, AddFinalizer. rewrite Hd.
  destruct (ContainsFinalizer r DataPlaneCleanupFinalizer).
  2: { destruct (cp_Update _ _) as [[?|] ?]; simpl; intros Hg;
         specialize (Hg o Ho); by rewrite sameObject_refl in Hg. }
  destruct w as [c d]. cbn [cp dp withCP withDP] in *.
  destruct (getDPClient _ _ _);
    [|simpl; intros Hg; specialize (Hg o Ho); by rewrite sameObject_refl in Hg].
  rewrite Hm, Hns. simpl. intros Hg. specialize (Hg o). rewrite Hobj1 in Hg.
  specialize (Hg Ho). by rewrite sameObject_refl in Hg.
Qed.

End ApplyBeforePrune.

(** ** The trait context builder *)

Section ContextSections.
Context `{context.Externals}.

Lemma size_pos_nonempty (m : gmap string string) : (0 < size m)%nat <-> m <> ∅.
Proof.
  split.
  - intros Hs ->. rewrite map_size_empty in Hs. lia.
  - intros Hne. destruct (decide (size m = 0%nat)) as [Hz|?]; [|lia].
    by apply map_size_empty_iff in Hz.
Qed.

(** X15.  The context of a successful call has five sections and no
    other: [parameters], [trait], [component], [environment] and
    [metadata].  The trait section names the trait and the instance, the
    environment section has the name and the virtual host; the component's
    namespace, and the labels, annotations and pod selectors of the
    metadata, are there exactly when they are not empty. *)
Theorem context_has_five_sections (input : option context.TraitContextInput)
    (ctx : gmap string value) :
  (context.BuildTraitContext input).1 = Ok ctx ->
  exists i trait component componentMeta metadataMap,
    input = Some i
    /\ context.Trait i = Some trait
    /\ context.Component i = Some component
    /\ dom ctx = {[ "parameters"; "trait"; "component"; "environment"; "metadata" ]}
    /\ ctx !! "trait"
       = Some (VMap {[ "name" := VString (v1alpha1.Name trait);
                       "instanceName" :=
                         VString (v1alpha1.InstanceName (context.Instance i)) ]})
    /\ ctx !! "environment"
       = Some (VMap {[ "name" := VString (context.EnvName (context.Environment i));
                       "vhost" := VString (context.VirtualHost (context.Environment i)) ]})
    /\ ctx !! "component" = Some (VMap componentMeta)
    /\ componentMeta !! "name" = Some (VString (v1alpha1.ComponentName component))
    /\ componentMeta !! "namespace"
       = (if decide (v1alpha1.ComponentNamespace component = "") then None
          else Some (VString (v1alpha1.ComponentNamespace component)))
    /\ dom componentMeta ⊆ {[ "name"; "namespace" ]}
    /\ ctx !! "metadata" = Some (VMap metadataMap)
    /\ metadataMap !! "name" = Some (VString (context.Name (context.Metadata i)))
    /\ metadataMap !! "namespace" = Some (VString (context.Namespace (context.Metadata i)))
    /\ metadataMap !! "labels" = optionalSection (context.Labels (context.Metadata i))
    /\ metadataMap !! "annotations"
       = optionalSection (context.Annotations (context.Metadata i))
    /\ metadataMap !! "podSelectors"
       = optionalSection (context.PodSelectors (context.Metadata i))
    /\ dom metadataMap ⊆ {[ "name"; "namespace"; "labels"; "annotations"; "podSelectors" ]}.
Proof.
  unfold context.BuildTraitContext. destruct input as [i|]; [|done].
  destruct (context.Trait i) as [trait|] eqn:Et; [|done].
  destruct (context.Component i) as [component|] eqn:Ec; [|done].
  case_decide as Hn; [done|]. case_decide as Hns; [done|].
  destruct (context.structuralSchemaFor i trait) as [[structural|] cache] eqn:Es; [|done].
  destruct (context.extractParameters _) as [params|] eqn:Ep; [|done].
  destruct (context.mergeEnvOverrides i params) as [merged|] eqn:Em; [|done].
  cbn [fst]. intros [= <-]. unfold context.contextSections.
  assert (Hpair : forall (k1 k2 : string) (v1 v2 : value), k1 <> k2 ->
            <[k2 := v2]> (<[k1 := v1]> (∅ : gmap string value))
            = {[ k1 := v1; k2 := v2 ]}).
  { intros k1 k2 v1 v2 Hk. rewrite insert_insert_ne by done. by rewrite insert_empty. }
  assert (Hopt : forall m : gmap string string,
            optionalSection m
            = if decide (0 < size m)%nat then Some (stringMap m) else None).
  { intros m. unfold optionalSection. case_decide as He; case_decide as Hs; try done.
    - subst. rewrite map_size_empty in Hs. lia.
    - by apply size_pos_nonempty in He. }
  assert (Hcomp : (if decide (v1alpha1.ComponentNamespace component = "")
                   then None else Some (VString (v1alpha1.ComponentNamespace component)))
                  = if decide (v1alpha1.ComponentNamespace component <> "")
                    then Some (VString (v1alpha1.ComponentNamespace component)) else None).
  { case_decide as Hc; case_decide as Hc'; first [done | by destruct Hc']. }
  destruct (decide (v1alpha1.ComponentNamespace component <> ""));
    destruct (decide (0 < size (context.Labels (context.Metadata i)))%nat);
    destruct (decide (0 < size (context.Annotations (context.Metadata i)))%nat);
    destruct (decide (0 < size (context.PodSelectors (context.Metadata i)))%nat);
    (eexists i, trait, component, _, _;
     split; [done|]; split; [done|]; split; [done|];
     split; [rewrite !dom_insert_L, dom_empty_L; set_solver|];
     split; [rewrite !lookup_insert_ne by done; rewrite lookup_insert_eq; by rewrite Hpair|];
     split; [rewrite !lookup_insert_ne by done; rewrite lookup_insert_eq; by rewrite Hpair|];
     split; [rewrite !lookup_insert_ne by done; by rewrite lookup_insert_eq|];
     split; [by repeat (rewrite lookup_insert_eq || (rewrite lookup_insert_ne by done))|];
     split; [rewrite Hcomp;
             by repeat (rewrite lookup_insert_eq || (rewrite lookup_insert_ne by done)
                        || rewrite lookup_empty)|];
     split; [rewrite ?dom_insert_L, dom_empty_L; intros k;
             rewrite !elem_of_union, !elem_of_singleton, ?elem_of_empty; tauto|];
     split; [by rewrite lookup_insert_eq|];
     split; [by repeat (rewrite lookup_insert_eq || (rewrite lookup_insert_ne by done))|];
     split; [by repeat (rewrite lookup_insert_eq || (rewrite lookup_insert_ne by done))|];
     split; [rewrite Hopt; first [rewrite decide_True by done | rewrite decide_False by done];
             by repeat (rewrite lookup_insert_eq || (rewrite lookup_insert_ne by done)
                        || rewrite lookup_empty)|];
     split; [rewrite Hopt; first [rewrite decide_True by done | rewrite decide_False by done];
             by repeat (rewrite lookup_insert_eq || (rewrite lookup_insert_ne by done)
                        || rewrite lookup_empty)|];
     split; [rewrite Hopt; first [rewrite decide_True by done | rewrite decide_False by done];
             by repeat (rewrite lookup_insert_eq || (rewrite lookup_insert_ne by done)
                        || rewrite lookup_empty)|];
     rewrite ?dom_insert_L, dom_empty_L; intros k;
     rewrite !elem_of_union, !elem_of_singleton, ?elem_of_empty; tauto).
Qed.

End ContextSections.

Section SchemaCaching.

(** X16.  A schema found in the cache is not built again.  When the
    cache of the input has a schema under the trait's name, the answer of
    [BuildTraitContext] is the same whatever [BuildStructuralSchema] would
    answer, even an error, and the cache is left as it was. *)
Theorem cached_schema_is_not_rebuilt (E1 E2 : context.Externals)
    (i : context.TraitContextInput) (trait : v1alpha1.Trait)
    (cache : gmap string Structural) (structural : Structural) :
  @context.jsonUnmarshal E1 = @context.jsonUnmarshal E2 ->
  context.Trait i = Some trait ->
  context.SchemaCache i = Some cache ->
  cache !! v1alpha1.Name trait = Some structural ->
  @context.BuildTraitContext E1 (Some i) = @context.BuildTraitContext E2 (Some i)
  /\ (@context.BuildTraitContext E1 (Some i)).2 = Some cache.
Proof.
  intros Hjson Ht Hc Hs.
  assert (Hs1 : forall E, @context.structuralSchemaFor E i trait = (Ok structural, Some cache)).
  { intros E. unfold context.structuralSchemaFor. by rewrite Hc, Hs. }
  assert (Hx : forall raw, @context.extractParametersFromRawExtension E1 raw
                           = @context.extractParametersFromRawExtension E2 raw).
  { intros raw. unfold context.extractParametersFromRawExtension. by rewrite Hjson. }
  unfold context.BuildTraitContext. rewrite Ht, Hc.
  destruct (context.Component i) as [component|]; [|done].
  case_decide; [done|]. case_decide; [done|].
  rewrite !Hs1. unfold context.extractParameters, context.mergeEnvOverrides.
  rewrite !Hx.
  destruct (@context.extractParametersFromRawExtension E2 _) as [params|]; [|done].
  destruct (context.ComponentDeployment i) as [dep|]; [|done].
  destruct (v1alpha1.TraitOverrides dep) as [ovs|]; [|done].
  destruct (ovs !! _) as [ov|]; [|done].
  rewrite Hx. by destruct (@context.extractParametersFromRawExtension E2 _).
Qed.

Context `{context.Externals}.

Lemma structuralSchemaFor_replay i trait :
  context.structuralSchemaFor
    (withSchemaCache i (context.structuralSchemaFor i trait).2) trait
  = context.structuralSchemaFor i trait.
Proof.
  unfold context.structuralSchemaFor. cbn [withSchemaCache context.SchemaCache].
  destruct (context.SchemaCache i) as [c|] eqn:Ec.
  - destruct (c !! v1alpha1.Name trait) as [s|] eqn:Es; cbn [snd].
    + by rewrite Es.
    + destruct (context.BuildStructuralSchema _) as [s|e] eqn:Eb; cbn [snd].
      * by rewrite lookup_insert_eq.
      * rewrite Es. by rewrite ?Eb.
  - by destruct (context.BuildStructuralSchema _).
Qed.

(** The cache a call leaves: the one of step 1 when the guards are
    passed, the one of the input otherwise. *)
Lemma BuildTraitContext_cache i :
  (context.BuildTraitContext (Some i)).2 = context.SchemaCache i
  \/ exists trait component,
       context.Trait i = Some trait
       /\ context.Component i = Some component
       /\ context.Name (context.Metadata i) <> ""
       /\ context.Namespace (context.Metadata i) <> ""
       /\ (context.BuildTraitContext (Some i)).2 = (context.structuralSchemaFor i trait).2.
Proof.
  unfold context.BuildTraitContext.
  destruct (context.Trait i) as [trait|] eqn:Et; [|by left].
  destruct (context.Component i) as [component|] eqn:Ec; [|by left].
  case_decide as Hn; [by left|]. case_decide as Hns; [by left|].
  right. exists trait, component. do 4 (split; [done|]).
  destruct (context.structuralSchemaFor i trait) as [[structural|e] cache']; [|done].
  destruct (context.extractParameters _) as [params|]; [|done].
  by destruct (context.mergeEnvOverrides i params).
Qed.

Lemma BuildTraitContext_replay i :
  context.BuildTraitContext
    (Some (withSchemaCache i (context.BuildTraitContext (Some i)).2))
  = context.BuildTraitContext (Some i).
Proof.
  assert (Hid : withSchemaCache i (context.SchemaCache i) = i) by by destruct i.
  destruct (BuildTraitContext_cache i) as [->|(trait & component & Et & Ec & Hn & Hns & ->)];
    [by rewrite Hid|].
  unfold context.BuildTraitContext.
  cbn [withSchemaCache context.Trait context.Component context.Metadata
       context.Instance context.SchemaCache].
  rewrite Et, Ec, !decide_False by done.
  assert (Hmerge : forall c p, context.mergeEnvOverrides (withSchemaCache i c) p
                               = context.mergeEnvOverrides i p) by done.
  assert (Hsec : forall c ctx, context.contextSections trait component (withSchemaCache i c) ctx
                               = context.contextSections trait component i ctx) by done.
  rewrite structuralSchemaFor_replay.
  destruct (context.structuralSchemaFor i trait) as [[structural|e] cache']; [|done].
  destruct (context.extractParameters _) as [params|]; [|done].
  rewrite Hmerge. destruct (context.mergeEnvOverrides i params); [|done].
  by rewrite Hsec.
Qed.

(** X17.  The schema cache changes no answer.  A call leaves in the
    cache what was there and, at most, the schema it built under the
    trait's name (it does so as soon as the schema is built, also when a
    later step fails); without a cache it leaves none.  A second call
    with the cache the first one left answers as the first did and leaves
    the cache as it is. *)
Theorem schema_cache_changes_no_answer (i : context.TraitContextInput) :
  match context.SchemaCache i, (context.BuildTraitContext (Some i)).2 with
  | None, after => after = None
  | Some cache, Some after =>
      after = cache
      \/ exists trait structural,
           context.Trait i = Some trait
           /\ cache !! v1alpha1.Name trait = None
           /\ (context.structuralSchemaFor i trait).1 = Ok structural
           /\ after = <[v1alpha1.Name trait := structural]> cache
  | Some _, None => False
  end
  /\ context.BuildTraitContext
       (Some (withSchemaCache i (context.BuildTraitContext (Some i)).2))
     = context.BuildTraitContext (Some i).
Proof.
  split; [|apply BuildTraitContext_replay].
  destruct (BuildTraitContext_cache i) as [->|(trait & component & Et & _ & _ & _ & ->)].
  { destruct (context.SchemaCache i); auto. }
  destruct (context.structuralSchemaFor i trait) as [res cache'] eqn:Hs. cbn [snd].
  pose proof Hs as Hs'. unfold context.structuralSchemaFor in Hs.
  destruct (context.SchemaCache i) as [c|].
  - destruct (c !! v1alpha1.Name trait) as [s|] eqn:Es; [injection Hs as <- <-; by left|].
    destruct (context.BuildStructuralSchema _) as [s|e]; injection Hs as <- <-; [|by left].
    right. exists trait, s. by rewrite Hs'.
  - by destruct (context.BuildStructuralSchema _); injection Hs as <- <-.
Qed.

Lemma BuildTraitContext_overrides i ovs :
  context.BuildTraitContext (Some (withTraitOverrides i ovs))
  = context.BuildTraitContext
      (Some (withTraitOverrides i
               (match ovs with
                | Some m =>
                    match m !! v1alpha1.InstanceName (context.Instance i) with
                    | Some ov => Some {[ v1alpha1.InstanceName (context.Instance i) := ov ]}
                    | None => None
                    end
                | None => None
                end))).
Proof.
  unfold context.BuildTraitContext.
  cbn [withTraitOverrides context.Trait context.Component context.Metadata
       context.Instance context.SchemaCache].
  destruct (context.Trait i) as [trait|]; [|done].
  destruct (context.Component i) as [component|]; [|done].
  case_decide; [done|]. case_decide; [done|].
  assert (Hs : forall o, context.structuralSchemaFor (withTraitOverrides i o) trait
                         = context.structuralSchemaFor i trait) by done.
  assert (Hsec : forall o ctx, context.contextSections trait component (withTraitOverrides i o) ctx
                               = context.contextSections trait component i ctx) by done.
  rewrite !Hs. destruct (context.structuralSchemaFor i trait) as [[structural|] cache]; [|done].
  destruct (context.extractParameters _) as [params|]; [|done].
  unfold context.mergeEnvOverrides.
  cbn [withTraitOverrides context.ComponentDeployment v1alpha1.TraitOverrides context.Instance].
  destruct ovs as [m|]; [|done].
  destruct (m !! _) as [ov|] eqn:Em; [|done].
  rewrite lookup_singleton_eq.
  by destruct (context.extractParametersFromRawExtension (Some ov)).
Qed.

(** X18.  Trait overrides are looked up by instance name, and the
    overrides of other instances play no part: two deployments whose
    overrides agree under the name of this instance give the same answer,
    whatever they hold for other instances (even bytes that do not
    decode); and overrides that have nothing under the name of this
    instance are as good as none. *)
Theorem overrides_of_other_instances_are_ignored (i : context.TraitContextInput)
    (ovs ovs' : gmap string v1alpha1.RawExtension) :
  ovs !! v1alpha1.InstanceName (context.Instance i)
  = ovs' !! v1alpha1.InstanceName (context.Instance i) ->
  context.BuildTraitContext (Some (withTraitOverrides i (Some ovs)))
  = context.BuildTraitContext (Some (withTraitOverrides i (Some ovs')))
  /\ (ovs !! v1alpha1.InstanceName (context.Instance i) = None ->
      context.BuildTraitContext (Some (withTraitOverrides i (Some ovs)))
      = context.BuildTraitContext (Some (withTraitOverrides i None))).
Proof.
  intros Heq. split.
  - rewrite (BuildTraitContext_overrides i (Some ovs)),
      (BuildTraitContext_overrides i (Some ovs')). by rewrite Heq.
  - intros Hnone. rewrite (BuildTraitContext_overrides i (Some ovs)). by rewrite Hnone.
Qed.

End SchemaCaching.

(** ** The API services *)

Section WorkflowStatus.

Lemma hasTrueCondition_spec ty conds :
  services.hasTrueCondition ty conds = true
  <-> exists c, c ∈ conds /\ condType c = ty /\ condStatus c = "True".
Proof.
  unfold services.hasTrueCondition. rewrite existsb_exists. split.
  - intros (c & Hin & Hc). apply andb_true_iff in Hc as [H1 H2].
    apply bool_decide_eq_true in H1, H2. exists c. split; [by apply list_elem_of_In|done].
  - intros (c & Hin & H1 & H2). exists c. split; [by apply list_elem_of_In|].
    by rewrite !bool_decide_eq_true_2.
Qed.

Lemma hasTrueCondition_perm ty conds conds' :
  conds ≡ₚ conds' -> services.hasTrueCondition ty conds = services.hasTrueCondition ty conds'.
Proof.
  intros Hp. apply eq_true_iff_eq. rewrite !hasTrueCondition_spec.
  by setoid_rewrite Hp.
Qed.

(** X19.  The build status follows the priority WorkloadUpdated, then
    WorkflowFailed, WorkflowSucceeded and WorkflowRunning: it is the
    status of the first of these types that some condition has with
    status True, and Pending when none has; the order in which the
    conditions are listed plays no part. *)
Theorem workflow_status_follows_priority (conds : list Condition) :
  let has (ty : string) :=
    exists c, c ∈ conds /\ condType c = ty /\ condStatus c = "True" in
  (services.GetLatestWorkflowStatus conds = "Completed" <-> has "WorkloadUpdated")
  /\ (services.GetLatestWorkflowStatus conds = "Failed"
      <-> ~ has "WorkloadUpdated" /\ has "WorkflowFailed")
  /\ (services.GetLatestWorkflowStatus conds = "Succeeded"
      <-> ~ has "WorkloadUpdated" /\ ~ has "WorkflowFailed" /\ has "WorkflowSucceeded")
  /\ (services.GetLatestWorkflowStatus conds = "Running"
      <-> ~ has "WorkloadUpdated" /\ ~ has "WorkflowFailed" /\ ~ has "WorkflowSucceeded"
          /\ has "WorkflowRunning")
  /\ (services.GetLatestWorkflowStatus conds = "Pending"
      <-> ~ has "WorkloadUpdated" /\ ~ has "WorkflowFailed" /\ ~ has "WorkflowSucceeded"
          /\ ~ has "WorkflowRunning")
  /\ forall conds', conds ≡ₚ conds' ->
       services.GetLatestWorkflowStatus conds' = services.GetLatestWorkflowStatus conds.
Proof.
  intros has.
  assert (Hhas : forall ty, has ty <-> services.hasTrueCondition ty conds = true).
  { intros ty. symmetry. apply hasTrueCondition_spec. }
  split_and!.
  6: { intros conds' Hp. unfold services.GetLatestWorkflowStatus.
       by rewrite <- !(hasTrueCondition_perm _ _ _ Hp), <- (Permutation_length Hp). }
  all: rewrite !Hhas; clear Hhas has; unfold services.GetLatestWorkflowStatus;
    destruct conds as [|c l]; [by cbn; intuition discriminate|];
    rewrite decide_False by done;
    destruct (services.hasTrueCondition "WorkloadUpdated" (c :: l));
    destruct (services.hasTrueCondition "WorkflowFailed" (c :: l));
    destruct (services.hasTrueCondition "WorkflowSucceeded" (c :: l));
    destruct (services.hasTrueCondition "WorkflowRunning" (c :: l));
    intuition discriminate.
Qed.

End WorkflowStatus.

Section WorkloadImage.

Lemma firstImage_empty l :
  services.firstImage l = "" <-> forall kc, kc ∈ l -> services.Image kc.2 = "".
Proof.
  induction l as [|[k c] l IH]; simpl.
  - split; [|done]. intros _ kc Hkc. by apply elem_of_nil in Hkc.
  - case_decide as Hc.
    + split; [done|]. intros Hall. exfalso. apply Hc. apply (Hall (k, c)). left.
    + rewrite IH. split.
      * intros Hall kc Hkc. apply elem_of_cons in Hkc as [->|Hkc]; [|by apply Hall].
        simpl. destruct (decide (services.Image c = "")); [done|]. by destruct Hc.
      * intros Hall kc Hkc. apply Hall. by right.
Qed.

Lemma firstImage_elem l :
  services.firstImage l <> "" ->
  exists kc, kc ∈ l /\ services.Image kc.2 = services.firstImage l.
Proof.
  induction l as [|[k c] l IH]; simpl; [done|].
  case_decide as Hc.
  - intros _. exists (k, c). split; [left|done].
  - intros Hne. destruct (IH Hne) as (kc & Hkc & Heq). exists kc. split; [by right|done].
Qed.

(** X20.  The image taken from a workload is the image of one of its
    containers.  Whatever order the containers are ranged over in, the
    answer is empty exactly when no container has an image, and otherwise
    it is the image of some container; when all containers that have an
    image have the same one, it is that image. *)
Theorem extracted_image_is_a_container_image
    (range : gmap string services.Container -> list (string * services.Container))
    (workloadSpec : services.WorkloadTemplateSpec) :
  (forall m, range m ≡ₚ map_to_list m) ->
  (services.extractImageFromWorkloadSpec range workloadSpec = ""
   <-> forall name container,
         services.Containers workloadSpec !! name = Some container ->
         services.Image container = "")
  /\ (services.extractImageFromWorkloadSpec range workloadSpec <> "" ->
      exists name container,
        services.Containers workloadSpec !! name = Some container
        /\ services.Image container
           = services.extractImageFromWorkloadSpec range workloadSpec)
  /\ (forall image,
        (forall name container,
           services.Containers workloadSpec !! name = Some container ->
           services.Image container = image \/ services.Image container = "") ->
        services.extractImageFromWorkloadSpec range workloadSpec = image
        \/ services.extractImageFromWorkloadSpec range workloadSpec = "").
Proof.
  intros Hrange. unfold services.extractImageFromWorkloadSpec.
  set (m := services.Containers workloadSpec).
  assert (Hin : forall kc, kc ∈ range m <-> m !! kc.1 = Some kc.2).
  { intros [k c]. rewrite Hrange. apply elem_of_map_to_list. }
  case_decide as Hsz.
  { apply map_size_empty_iff in Hsz. rewrite Hsz.
    split; [split; [intros _ name c|done]; by rewrite lookup_empty|].
    split; [done|]. intros image _. by right. }
  split; [|split].
  - rewrite firstImage_empty. split.
    + intros Hall name c Hl. apply (Hall (name, c)). by apply Hin.
    + intros Hall [k c] Hkc. apply (Hall k). by apply Hin in Hkc.
  - intros Hne. destruct (firstImage_elem _ Hne) as ([k c] & Hkc & Heq).
    exists k, c. split; [by apply Hin in Hkc|done].
  - intros image Hall.
    destruct (decide (services.firstImage (range m) = "")) as [?|Hne]; [by right|].
    destruct (firstImage_elem _ Hne) as ([k c] & Hkc & Heq). apply Hin in Hkc.
    simpl in *. rewrite <- Heq. rewrite <- Heq in Hne.
    destruct (Hall k c Hkc); [by left|done].
Qed.

End WorkloadImage.

Section Promotion.
Context `{services.Externals}.

Lemma foldl_insert_true_is_Some {A K} `{Countable K} (f : A -> K) (l : list A)
    (s : gmap K bool) (k : K) :
  is_Some (foldl (fun s x => <[f x := true]> s) s l !! k)
  <-> is_Some (s !! k) \/ exists x, x ∈ l /\ f x = k.
Proof.
  revert s. induction l as [|a l IH]; intros s; simpl.
  - split; [auto|]. intros [?|(x & Hx & _)]; [done|]. by apply elem_of_nil in Hx.
  - rewrite IH, lookup_insert_is_Some'. split.
    + intros [[Ha|?]|(x & Hx & Hg)]; eauto.
      * right. exists a. split; [left|done].
      * right. exists x. split; [by right|done].
    + intros [?|(x & Hx & Hg)]; [auto|].
      apply elem_of_cons in Hx as [->|Hx]; [auto|]. right; eauto.
Qed.

Lemma environmentSet_is_Some (paths : list services.PromotionPath)
    (s : gmap string bool) (env : string) :
  is_Some (foldl (fun environmentSet path =>
                    let environmentSet :=
                      <[services.SourceEnvironmentRef path := true]> environmentSet in
                    foldl (fun environmentSet target =>
                             <[services.TargetName target := true]> environmentSet)
                          environmentSet (services.TargetEnvironmentRefs path))
                 s paths !! env)
  <-> is_Some (s !! env)
      \/ exists path, path ∈ paths
           /\ (services.SourceEnvironmentRef path = env
               \/ exists target, target ∈ services.TargetEnvironmentRefs path
                                 /\ services.TargetName target = env).
Proof.
  revert s. induction paths as [|p l IH]; intros s.
  - simpl. split; [auto|]. intros [?|(x & Hx & _)]; [done|]. by apply elem_of_nil in Hx.
  - cbn [foldl]. rewrite IH. cbv zeta.
    rewrite (foldl_insert_true_is_Some services.TargetName), lookup_insert_is_Some'. split.
    + intros [[[Hs|?]|(t & Ht & Hte)]|(x & Hx & Hor)].
      * right. exists p. split; [left|by left].
      * by left.
      * right. exists p. split; [left|]. right. eauto.
      * right. exists x. split; [by right|done].
    + intros [?|(x & Hx & Hor)]; [auto|].
      apply elem_of_cons in Hx as [->|Hx]; [|right; eauto].
      left. destruct Hor as [?|(t & Ht & Hte)]; [auto|]. right. eauto.
Qed.

Lemma promotion_path_listed (pipeline : services.DeploymentPipeline) s t :
  existsb (fun path =>
             bool_decide (services.SourceEnvironmentRef path = s)
             && existsb (fun target => bool_decide (services.TargetName target = t))
                        (services.TargetEnvironmentRefs path))
          (services.PromotionPaths pipeline) = true
  <-> exists path target,
        path ∈ services.PromotionPaths pipeline
        /\ services.SourceEnvironmentRef path = s
        /\ target ∈ services.TargetEnvironmentRefs path
        /\ services.TargetName target = t.
Proof.
  rewrite existsb_exists. split.
  - intros (path & Hp & Hb). apply andb_true_iff in Hb as [Hs Ht].
    apply bool_decide_eq_true in Hs. apply existsb_exists in Ht as (target & Htin & Htn).
    apply bool_decide_eq_true in Htn. exists path, target.
    split; [by apply list_elem_of_In|]. split; [done|]. split; [by apply list_elem_of_In|done].
  - intros (path & target & Hp & Hs & Ht & Htn). exists path.
    split; [by apply list_elem_of_In|]. apply andb_true_iff.
    split; [by apply bool_decide_eq_true|]. apply existsb_exists. exists target.
    split; [by apply list_elem_of_In|by apply bool_decide_eq_true].
Qed.

(** X21.  A promotion is accepted exactly when the project's pipeline
    lists it: [validatePromotionPath] returns no error if and only if the
    project and its deployment pipeline (the default one when the project
    names none) can be read and some promotion path of the pipeline has
    the source environment as its source and the target environment
    among its targets. *)
Theorem promotion_accepted_iff_path_listed (orgName projectName sourceEnv targetEnv : string) :
  services.validatePromotionPath orgName projectName sourceEnv targetEnv = None
  <-> exists project pipeline path target,
        services.GetProject orgName projectName = Ok project
        /\ services.k8sGetPipeline (orgName, services.pipelineNameOf project) = Ok pipeline
        /\ path ∈ services.PromotionPaths pipeline
        /\ services.SourceEnvironmentRef path = sourceEnv
        /\ target ∈ services.TargetEnvironmentRefs path
        /\ services.TargetName target = targetEnv.
Proof.
  unfold services.validatePromotionPath.
  destruct (services.GetProject orgName projectName) as [project|e].
  2: { split; [done|]. by intros (? & ? & ? & ? & ? & _). }
  destruct (services.k8sGetPipeline _) as [pipeline|e] eqn:Ep.
  2: { split; [by destruct (IsNotFound e)|]. intros (? & ? & ? & ? & [= <-] & Hp & _).
       by rewrite Ep in Hp. }
  destruct (existsb _ _) eqn:Ex.
  - split; [intros _|done]. apply promotion_path_listed in Ex as (path & target & ?).
    by exists project, pipeline, path, target.
  - split; [done|]. intros (? & ? & path & target & [= <-] & Hp & Hrest).
    rewrite Ep in Hp. injection Hp as <-.
    assert (existsb (fun path =>
             bool_decide (services.SourceEnvironmentRef path = sourceEnv)
             && existsb (fun target => bool_decide (services.TargetName target = targetEnv))
                        (services.TargetEnvironmentRefs path))
          (services.PromotionPaths pipeline) = true); [|congruence].
    apply promotion_path_listed. by exists path, target.
Qed.

(** X22.  The environments of a project are the sources and targets of
    its pipeline, each once; and both ends of a promotion that
    [validatePromotionPath] accepts are among them. *)
Theorem pipeline_environments_are_sources_and_targets (orgName projectName : string)
    (environments : list string) :
  services.getEnvironmentsFromDeploymentPipeline orgName projectName = Ok environments ->
  NoDup environments
  /\ (exists project pipeline,
        services.GetProject orgName projectName = Ok project
        /\ services.k8sGetPipeline (orgName, services.pipelineNameOf project) = Ok pipeline
        /\ forall env,
             env ∈ environments
             <-> exists path, path ∈ services.PromotionPaths pipeline
                   /\ (services.SourceEnvironmentRef path = env
                       \/ exists target, target ∈ services.TargetEnvironmentRefs path
                                         /\ services.TargetName target = env))
  /\ forall sourceEnv targetEnv,
       services.validatePromotionPath orgName projectName sourceEnv targetEnv = None ->
       sourceEnv ∈ environments /\ targetEnv ∈ environments.
Proof.
  unfold services.getEnvironmentsFromDeploymentPipeline, services.validatePromotionPath.
  destruct (services.GetProject orgName projectName) as [project|e]; [|done].
  destruct (services.k8sGetPipeline _) as [pipeline|e] eqn:Ep; [|by destruct (IsNotFound e)].
  intros [= <-].
  assert (Hmem : forall env,
            env ∈ (map_to_list
                     (foldl (fun environmentSet path =>
                        let environmentSet :=
                          <[services.SourceEnvironmentRef path := true]> environmentSet in
                        foldl (fun environmentSet target =>
                                 <[services.TargetName target := true]> environmentSet)
                              environmentSet (services.TargetEnvironmentRefs path))
                        (∅ : gmap string bool) (services.PromotionPaths pipeline))).*1
            <-> exists path, path ∈ services.PromotionPaths pipeline
                  /\ (services.SourceEnvironmentRef path = env
                      \/ exists target, target ∈ services.TargetEnvironmentRefs path
                                        /\ services.TargetName target = env)).
  { intros env. rewrite list_elem_of_fmap. split.
    - intros ([k v] & -> & Hkv). apply elem_of_map_to_list in Hkv.
      assert (Hsome : is_Some (foldl (fun environmentSet path =>
                        let environmentSet :=
                          <[services.SourceEnvironmentRef path := true]> environmentSet in
                        foldl (fun environmentSet target =>
                                 <[services.TargetName target := true]> environmentSet)
                              environmentSet (services.TargetEnvironmentRefs path))
                        (∅ : gmap string bool) (services.PromotionPaths pipeline) !! k))
        by by exists v.
      apply environmentSet_is_Some in Hsome as [Hs|?]; [|done].
      rewrite lookup_empty in Hs. by destruct Hs.
    - intros Hex.
      assert (Hsome : is_Some (foldl (fun environmentSet path =>
                        let environmentSet :=
                          <[services.SourceEnvironmentRef path := true]> environmentSet in
                        foldl (fun environmentSet target =>
                                 <[services.TargetName target := true]> environmentSet)
                              environmentSet (services.TargetEnvironmentRefs path))
                        (∅ : gmap string bool) (services.PromotionPaths pipeline) !! env)).
      { apply environmentSet_is_Some. by right. }
      destruct Hsome as [v Hv]. exists (env, v). split; [done|]. by apply elem_of_map_to_list. }
  split; [apply NoDup_fst_map_to_list|]. split; [exists project, pipeline; by rewrite Ep|].
  intros s t. destruct (existsb _ _) eqn:Ex; [intros _|done].
  apply promotion_path_listed in Ex as (path & target & Hp & Hs & Ht & Htn).
  split; apply Hmem; exists path; (split; [done|]); [by left|right; by exists target].
Qed.

End Promotion.

(* ================================================================== *)
(** * Part VI: the further properties at the concrete worlds           *)
(* ================================================================== *)

Ltac by_compute := apply (bool_decide_unpack _); vm_compute; exact I.

(** X1, witness.  The Release as created, before its first pass. *)
Lemma data_plane_untouched_without_finalizer_witness :
  dp (@Reconcile Fixture.keys Fixture.externals Scenario.freshWorld Fixture.key).2
  = dp Scenario.freshWorld.
Proof.
  apply (@data_plane_untouched_without_finalizer Fixture.keys Fixture.externals).
  intros r Hr. vm_compute in Hr. injection Hr as <-. reflexivity.
Defined.

(** X2, witness. *)
Lemma first_pass_stores_the_finalizer_witness :
  @Reconcile Fixture.keys Fixture.externals Scenario.freshWorld Fixture.key
  = ((Result_empty, None),
     withCP Scenario.freshWorld
       (withReleases (cp Scenario.freshWorld)
          (<[Fixture.key := withFinalizers Scenario.fresh [DataPlaneCleanupFinalizer]]>
             (cpReleases (cp Scenario.freshWorld))))).
Proof.
  exact (@first_pass_stores_the_finalizer Fixture.keys Fixture.externals
           Scenario.freshWorld Fixture.key Scenario.fresh
           eq_refl eq_refl eq_refl eq_refl).
Defined.

(** X3, witness.  The finalizing Release on a healthy cluster that holds
    its ConfigMap. *)
Lemma finalization_only_deletes_witness :
  objects (dp (@Reconcile Fixture.keys Fixture.externals
                 Fixture.healthyFinalizingWorld Fixture.key).2)
    `sublist_of` objects (dp Fixture.healthyFinalizingWorld)
  /\ namespaces (dp (@Reconcile Fixture.keys Fixture.externals
                       Fixture.healthyFinalizingWorld Fixture.key).2)
     = namespaces (dp Fixture.healthyFinalizingWorld).
Proof.
  pose proof (@finalization_only_deletes Fixture.keys Fixture.externals
                Fixture.healthyFinalizingWorld Fixture.key Fixture.deleting
                ltac:(vm_compute; reflexivity) ltac:(discriminate)) as (H1 & H2 & _).
  split; [exact H1|exact H2].
Defined.

(** X4, witness. *)
Lemma finalization_deletes_only_owned_witness :
  objLabels Fixture.liveConfig !! "openchoreo.dev/release-uid" = Some "uid-1"
  /\ objLabels Fixture.liveConfig !! "openchoreo.dev/managed-by" = Some "release-controller".
Proof.
  pose proof (@finalization_deletes_only_owned Fixture.keys Fixture.externals
                Fixture.healthyFinalizingWorld Fixture.key Fixture.deleting
                Fixture.liveConfig
                ltac:(vm_compute; reflexivity) ltac:(discriminate)
                ltac:(by_compute) ltac:(discriminate)
                ltac:(by_compute) ltac:(by_compute)) as (H1 & H2 & _).
  split; [exact H1|exact H2].
Defined.

(** X5, witness.  The stale Secret is the object that goes. *)
Lemma steady_pass_deletes_only_stale_witness :
  (exists o', o' ∈ objects (dp (@Reconcile Fixture.keys Fixture.externals
                                   Scenario.staleWorld Fixture.key).2)
              /\ sameObject Fixture.orphan o' = true)
  \/ (matchLabels (@releaseSelector Fixture.keys Scenario.withSecretInInventory)
        (objLabels Fixture.orphan) = true
      /\ @resourceID Fixture.keys Fixture.orphan <> ""
      /\ objFinalizers Fixture.orphan = []
      /\ exists desired,
           @makeDesiredResources Fixture.keys Fixture.externals
             Scenario.withSecretInInventory = Ok desired
           /\ @resourceID Fixture.keys Fixture.orphan
              ∉ @resourceID Fixture.keys <$> desired).
Proof.
  apply (@steady_pass_deletes_only_stale Fixture.keys Fixture.externals
           Scenario.staleWorld Fixture.key Scenario.withSecretInInventory Fixture.orphan).
  - vm_compute. reflexivity.
  - reflexivity.
  - by_compute.
  - by_compute.
Defined.

(** X6, witness. *)
Lemma successful_pass_applies_every_document_witness :
  exists desired,
    @makeDesiredResources Fixture.keys Fixture.externals Scenario.withSecretInInventory
    = Ok desired
    /\ forall d, d ∈ desired ->
         exists o,
           o ∈ objects (dp (@Reconcile Fixture.keys Fixture.externals
                              Scenario.staleWorld Fixture.key).2)
           /\ sameObject d o = true
           /\ (exists d', d' ∈ desired /\ sameObject d d' = true
                          /\ objLabels o = objLabels d')
           /\ (uniqueIdentities desired -> objLabels o = objLabels d).
Proof.
  apply (@successful_pass_applies_every_document Fixture.keys Fixture.externals
           Scenario.staleWorld
           (@Reconcile Fixture.keys Fixture.externals Scenario.staleWorld Fixture.key).2
           Fixture.key Scenario.withSecretInInventory
           (@Reconcile Fixture.keys Fixture.externals Scenario.staleWorld Fixture.key).1.1).
  - vm_compute. reflexivity.
  - reflexivity.
  - vm_compute. reflexivity.
  - by_compute.
  - vm_compute. reflexivity.
Defined.

(** X14, witness. *)
Lemma stale_resources_go_only_after_apply_witness :
  exists desired d1 d2,
    @makeDesiredResources Fixture.keys Fixture.externals Scenario.withSecretInInventory
    = Ok desired
    /\ ensureNamespaces (dp Scenario.staleWorld)
         (@makeDesiredNamespaces Fixture.keys Scenario.withSecretInInventory desired)
       = (None, d1)
    /\ @applyResources Fixture.keys d1 desired = (None, d2).
Proof.
  apply (proj2 (@stale_resources_go_only_after_apply Fixture.keys Fixture.externals
                  Scenario.staleWorld Fixture.key Scenario.withSecretInInventory
                  ltac:(vm_compute; reflexivity) ltac:(reflexivity))
           Fixture.orphan).
  - by_compute.
  - intros o' Ho'. vm_compute in Ho'.
    apply elem_of_cons in Ho' as [->|Ho']; [reflexivity|].
    apply elem_of_cons in Ho' as [->|Ho']; [reflexivity|].
    by apply elem_of_nil in Ho'.
Defined.

(** X8, witness.  The namespace [default] is created on a cluster that
    has none. *)
Lemma ensureNamespaces_keeps_existing_witness :
  objects (ensureNamespaces Scenario.emptyCluster
             [Scenario.defaultNamespace]).2
  = objects Scenario.emptyCluster.
Proof.
  apply (ensureNamespaces_keeps_existing
           Scenario.emptyCluster
           (ensureNamespaces Scenario.emptyCluster
              [Scenario.defaultNamespace]).2
           [Scenario.defaultNamespace]
           (ensureNamespaces Scenario.emptyCluster
              [Scenario.defaultNamespace]).1).
  vm_compute. reflexivity.
Defined.

(** X9, witness. *)
Lemma ensureNamespaces_ensures_witness :
  exists c',
    ensureNamespaces Scenario.emptyCluster [Scenario.defaultNamespace]
    = (None, c')
    /\ (forall ns, ns ∈ [Scenario.defaultNamespace] ->
                   isOk (client_GetNamespace c' (nsName ns)) = true)
    /\ ensureNamespaces c' [Scenario.defaultNamespace] = (None, c').
Proof.
  apply (ensureNamespaces_ensures Scenario.emptyCluster
           [Scenario.defaultNamespace]); intros name; reflexivity.
Defined.

(** X10, witness. *)
Lemma healthy_finalization_deletes_the_listing_witness :
  exists d',
    @Reconcile Fixture.keys Fixture.externals Fixture.healthyFinalizingWorld Fixture.key
    = (({| RequeueAfter := 5 * Second |}, None), withDP Fixture.healthyFinalizingWorld d')
    /\ forall o, o ∈ objects d'
         <-> o ∈ objects (dp Fixture.healthyFinalizingWorld)
             /\ (o ∈ [Fixture.liveConfig] -> objFinalizers o <> []).
Proof.
  apply (@healthy_finalization_deletes_the_listing Fixture.keys Fixture.externals
           Fixture.healthyFinalizingWorld Fixture.key Fixture.deleting [Fixture.liveConfig]).
  - vm_compute. reflexivity.
  - discriminate.
  - vm_compute. reflexivity.
  - vm_compute. reflexivity.
  - vm_compute. reflexivity.
  - intros o. reflexivity.
  - by_compute.
  - vm_compute. reflexivity.
  - discriminate.
Defined.

(** X11, witness. *)
Lemma discovery_names_nothing_twice_witness :
  NoDup (findAllKnownGVKs [Fixture.liveConfig]
           (StatusResources (Status Scenario.withSecretInInventory)))
  /\ NoDup [Fixture.orphan; Fixture.liveConfig]
  /\ NoDup (identity <$> [Fixture.orphan; Fixture.liveConfig]).
Proof.
  apply (@discovery_names_nothing_twice Fixture.keys Fixture.externals
           (dp Scenario.staleWorld) Scenario.withSecretInInventory).
  - by_compute.
  - vm_compute. reflexivity.
Defined.

(** X12, witness.  The second entry of the Release is [{]. *)
Lemma malformed_entry_applies_nothing_witness :
  @Reconcile Fixture.keys Fixture.externals Scenario.brokenWorld Fixture.key
  = ((Result_empty,
      Some (ErrWrap "failed to unmarshal resource broken" (ErrOther "invalid character"))),
     Scenario.brokenWorld).
Proof.
  apply (proj2 (@malformed_entry_applies_nothing Fixture.keys Fixture.externals
                  Scenario.brokenWorld Fixture.key Scenario.broken
                  [ {| resID := "config"; resObject := "app-config.json" |} ] []
                  {| resID := "broken"; resObject := "{" |}
                  (ErrOther "invalid character")
                  ltac:(vm_compute; reflexivity) ltac:(reflexivity)
                  ltac:(vm_compute; reflexivity) ltac:(vm_compute; reflexivity)
                  ltac:(reflexivity)
                  ltac:(repeat constructor) ltac:(reflexivity))).
Defined.

(** X13, witness.  The pass that removes the finalizer on the cluster
    that holds nothing of the Release. *)
Lemma finalizer_removed_only_by_clean_finalization_witness :
  DeletionTimestamp Fixture.deleting <> None
  /\ (@Reconcile Fixture.keys Fixture.externals Fixture.cleanFinalizingWorld Fixture.key).1
     = (Result_empty, None)
  /\ cpReleases (cp (@Reconcile Fixture.keys Fixture.externals
                       Fixture.cleanFinalizingWorld Fixture.key).2) !! Fixture.key
     = None.
Proof.
  apply (@finalizer_removed_only_by_clean_finalization Fixture.keys Fixture.externals
           Fixture.cleanFinalizingWorld Fixture.key Fixture.deleting).
  - vm_compute. reflexivity.
  - reflexivity.
  - split.
    + exists Fixture.deleting. split; [by vm_compute|]. left.
    + intros (x & Hx & _). vm_compute in Hx. discriminate Hx.
Defined.

(** X15, witness.  The input of "trait with environment overrides". *)
Lemma context_has_five_sections_witness :
  exists ctx,
    (@context.BuildTraitContext ContextFixture.externals (Some ContextFixture.input)).1
    = Ok ctx
    /\ dom ctx = {[ "parameters"; "trait"; "component"; "environment"; "metadata" ]}.
Proof.
  exists ContextFixture.want. split; [by vm_compute|].
  destruct (@context_has_five_sections ContextFixture.externals
              (Some ContextFixture.input) ContextFixture.want
              ltac:(vm_compute; reflexivity))
    as (i & trait & component & cm & mm & _ & _ & _ & Hdom & _).
  exact Hdom.
Defined.

(** X16, witness. *)
Lemma cached_schema_is_not_rebuilt_witness :
  @context.BuildTraitContext ContextFixture.externals (Some CacheFixture.cachedInput)
  = @context.BuildTraitContext CacheFixture.failingExternals (Some CacheFixture.cachedInput)
  /\ (@context.BuildTraitContext ContextFixture.externals
        (Some CacheFixture.cachedInput)).2 = Some CacheFixture.cache.
Proof.
  apply (@cached_schema_is_not_rebuilt ContextFixture.externals CacheFixture.failingExternals
           CacheFixture.cachedInput ContextFixture.mysqlTrait CacheFixture.cache
           ContextFixture.schemaOf); reflexivity.
Defined.

(** X18, witness. *)
Lemma overrides_of_other_instances_are_ignored_witness :
  @context.BuildTraitContext ContextFixture.externals
    (Some (withTraitOverrides ContextFixture.input (Some CacheFixture.overrides)))
  = @context.BuildTraitContext ContextFixture.externals
      (Some (withTraitOverrides ContextFixture.input
               (Some CacheFixture.overridesWithAnother))).
Proof.
  apply (proj1 (@overrides_of_other_instances_are_ignored ContextFixture.externals
                  ContextFixture.input CacheFixture.overrides
                  CacheFixture.overridesWithAnother
                  ltac:(vm_compute; reflexivity))).
Defined.

(** X20, witness.  The workload with the one container [main]. *)
Lemma extracted_image_is_a_container_image_witness :
  exists name container,
    services.Containers ServicesFixture.workload !! name = Some container
    /\ services.Image container
       = services.extractImageFromWorkloadSpec map_to_list ServicesFixture.workload.
Proof.
  apply (proj1 (proj2 (extracted_image_is_a_container_image map_to_list
                         ServicesFixture.workload (fun m => reflexivity _)))).
  vm_compute. discriminate.
Defined.

(** X22, witness.  The pipeline [dev -> staging -> prod]. *)
Lemma pipeline_environments_are_sources_and_targets_witness :
  NoDup ["staging"; "dev"; "prod"]
  /\ forall sourceEnv targetEnv,
       @services.validatePromotionPath ServicesFixture.externals "org" "shop"
         sourceEnv targetEnv = None ->
       sourceEnv ∈ ["staging"; "dev"; "prod"] /\ targetEnv ∈ ["staging"; "dev"; "prod"].
Proof.
  pose proof (@pipeline_environments_are_sources_and_targets ServicesFixture.externals
                "org" "shop" ["staging"; "dev"; "prod"]
                ltac:(vm_compute; reflexivity)) as (H1 & _ & H3).
  split; [exact H1|exact H3].
Defined.
